(** * FoodData Central importer: a model of [import_with_python.py]

    The loader reads a JSON document, collects the nutrients referenced by
    the food records, and writes nutrients, foods, categories and
    measurements to a graph database through parameterised Cypher
    statements.

    The Python code is embedded as functions over JSON values with an
    explicit error result.  The database is an external collaborator: it is
    modelled as a store of labelled nodes and typed relationships, and each
    Cypher statement of the source is embedded clause by clause as a
    function on that store.

    What the model leaves out: console output; the failures of opening
    and reading the file other than a missing file (a directory, a file
    that may not be read, bytes that are not text) and the failures of the
    parser other than a syntax error; the 64-bit range of the integers the
    driver accepts (integers are unbounded); the rule that a list stored as
    a property holds scalars of one type.  A statement fails when it merges on a null
    property, breaks a uniqueness constraint, reads a property of a value
    that is neither a map nor null, stores as a property a map or a list
    that holds anything but scalars, or applies [toFloat] to a boolean, a
    list or a map. *)

From Stdlib Require Import ZArith String Ascii List Lia.
From Stdlib Require Import Floats.SpecFloat.
From stdpp Require Import base list gmap strings.
Import ListNotations.

Set Warnings "-register-all,-clear-no-such-hyp".
Local Open Scope string_scope.
Local Open Scope list_scope.
Local Open Scope nat_scope.

(** ** Values

    One type serves for the values [json.load] produces and for the values
    the driver hands to the database: the encoding of parameters is
    structural ([None] is null, a [dict] is a map, a [list] is a list). *)

Inductive value :=
| VNone
| VBool (b : bool)
| VInt (z : Z)
| VFloat (f : spec_float)
| VStr (s : string)
| VList (l : list value)
| VDict (d : list (string * value)).

(** ** Errors: the Python exceptions and the driver's exceptions that the
    loader can raise. *)

Inductive error :=
| FileNotFoundError
| JSONDecodeError
| KeyError (k : string)
| TypeError
| AttributeError
| ClientError          (* a statement the database refuses, e.g. MERGE on null *)
| CypherTypeError      (* a Cypher expression applied to a value of the wrong type *)
| ConstraintError      (* a uniqueness constraint is violated *)
| DatabaseError.       (* a constraint cannot be created on the data present *)

Inductive result (A : Type) :=
| Ok (a : A)
| Err (e : error).
Arguments Ok {A} a.
Arguments Err {A} e.

Definition bind {A B} (m : result A) (k : A → result B) : result B :=
  match m with
  | Ok a => k a
  | Err e => Err e
  end.

Notation "'let*' x ':=' m 'in' k" := (bind m (fun x => k))
  (at level 10, x pattern, m at level 100, k at level 200).

Fixpoint foldM {A B} (f : A → B → result A) (l : list B) (a : A) : result A :=
  match l with
  | [] => Ok a
  | x :: l' => let* a' := f a x in foldM f l' a'
  end.

(** ** Python operations on values *)

Fixpoint dict_lookup (k : string) (d : list (string * value)) : option value :=
  match d with
  | [] => None
  | (k', v) :: d' => if String.eqb k' k then Some v else dict_lookup k d'
  end.

(** [v.get(k, dflt)]: only a dict has the method. *)
Definition py_get (v : value) (k : string) (dflt : value) : result value :=
  match v with
  | VDict d => Ok (match dict_lookup k d with Some x => x | None => dflt end)
  | _ => Err AttributeError
  end.

(** [v[k]] with a string key. *)
Definition py_getitem (v : value) (k : string) : result value :=
  match v with
  | VDict d => match dict_lookup k d with Some x => Ok x | None => Err (KeyError k) end
  | _ => Err TypeError
  end.

(** [for x in v]: lists yield their elements, dicts their keys, strings
    their characters; nothing else is iterable. *)
Definition py_iter (v : value) : result (list value) :=
  match v with
  | VList l => Ok l
  | VDict d => Ok (map (fun kv => VStr (fst kv)) d)
  | VStr s => Ok (map (fun c => VStr (String c EmptyString)) (list_ascii_of_string s))
  | _ => Err TypeError
  end.

(** [len(v)] *)
Definition py_len (v : value) : result nat :=
  match v with
  | VList l => Ok (length l)
  | VDict d => Ok (length d)
  | VStr s => Ok (String.length s)
  | _ => Err TypeError
  end.

(** *** Numeric equality.  Python compares an int with a float exactly, and
    so does the database. *)

Definition float_eq_int (f : spec_float) (z : Z) : bool :=
  match f with
  | S754_zero _ => (z =? 0)%Z
  | S754_finite s m e =>
      let n := if s then Z.neg m else Z.pos m in
      if (0 <=? e)%Z then (z =? n * 2 ^ e)%Z else (z * 2 ^ (- e) =? n)%Z
  | _ => false
  end.

Definition float_eqb (f g : spec_float) : bool :=
  match f, g with
  | S754_zero _, S754_zero _ => true
  | S754_infinity s, S754_infinity t => Bool.eqb s t
  | S754_finite s m e, S754_finite t n e' =>
      Bool.eqb s t
      && (Z.pos m * 2 ^ (e - Z.min e e') =? Z.pos n * 2 ^ (e' - Z.min e e'))%Z
  | _, _ => false
  end.

Definition num_eqb (a b : Z + spec_float) : bool :=
  match a, b with
  | inl x, inl y => (x =? y)%Z
  | inl x, inr g => float_eq_int g x
  | inr f, inl y => float_eq_int f y
  | inr f, inr g => float_eqb f g
  end.

(** *** The dict [nutrients] of [create_nutrients], keyed by values.

    A Python dict keeps insertion order; assigning to a key that is present
    replaces the value in place.  A key is found by identity or else by
    [==], under which [True == 1 == 1.0].  Identity adds to [==] only for
    NaN, which is not equal to itself: [json.load] returns one and the same
    object for every NaN of a document, so a NaN key is found again. *)

Definition pydict := list (value * value).

Definition py_hashable (v : value) : bool :=
  match v with
  | VList _ | VDict _ => false
  | _ => true
  end.

Definition py_num (v : value) : option (Z + spec_float) :=
  match v with
  | VBool b => Some (inl (Z.b2z b))
  | VInt z => Some (inl z)
  | VFloat f => Some (inr f)
  | _ => None
  end.

Definition py_eqb (a b : value) : bool :=
  match py_num a, py_num b with
  | Some x, Some y => num_eqb x y
  | None, None =>
      match a, b with
      | VNone, VNone => true
      | VStr s, VStr t => String.eqb s t
      | _, _ => false
      end
  | _, _ => false
  end.

Definition is_nan (v : value) : bool :=
  match v with
  | VFloat S754_nan => true
  | _ => false
  end.

(** [a is b or a == b], for values that [json.load] produced. *)
Definition py_key_eqb (a b : value) : bool :=
  (is_nan a && is_nan b) || py_eqb a b.

Fixpoint dict_set (k v : value) (d : pydict) : pydict :=
  match d with
  | [] => [(k, v)]
  | (k', v') :: d' =>
      if py_key_eqb k' k then (k', v) :: d' else (k', v') :: dict_set k v d'
  end.

(** [d[k] = v] *)
Definition py_setitem (d : pydict) (k v : value) : result pydict :=
  if py_hashable k then Ok (dict_set k v d) else Err TypeError.

Fixpoint dict_find (k : value) (d : pydict) : option value :=
  match d with
  | [] => None
  | (k', v) :: d' => if py_key_eqb k' k then Some v else dict_find k d'
  end.

(** [list(d.values())] *)
Definition dict_values (d : pydict) : list value := map snd d.

(** *** [range(0, stop, step)] for a positive [step], and slicing
    [l[i:j]], which clamps to the length of [l]. *)

Definition py_range (stop step : nat) : list nat :=
  map (fun k => k * step) (seq 0 ((stop + step - 1) / step)).

Definition py_slice {A} (l : list A) (i j : nat) : list A :=
  take (j - i) (drop i l).

(** Batch sizes *)
Definition FOOD_BATCH_SIZE : nat := 100.
Definition NUTRIENT_BATCH_SIZE : nat := 1000.

(** The batches of [for i in range(0, len(l), size): batch = l[i:i + size]]. *)
Definition batches {A} (size : nat) (l : list A) : list (list A) :=
  map (fun i => py_slice l i (i + size)) (py_range (length l) size).

(** ** The graph store

    Nodes and relationships are identified by their position in the store;
    the loader never deletes.  A property set to null is absent. *)

Inductive label := Food | Nutrient | FoodCategory.
Inductive rtype := HAS_NUTRIENT | BELONGS_TO.

Global Instance label_eq_dec : EqDecision label.
Proof. solve_decision. Defined.
Global Instance rtype_eq_dec : EqDecision rtype.
Proof. solve_decision. Defined.

Definition props := list (string * value).

Record node := Node { nlabel : label; nprops : props }.
Record rel := Rel { rkind : rtype; rsrc : nat; rdst : nat; rprops : props }.

(** A schema rule (uniqueness constraint or index): its name, label and
    property key. *)
Definition rule := (string * (label * string))%type.

Record store := Store {
  nodes : list node;
  rels : list rel;
  constraints : list rule;
  indexes : list rule
}.

Definition empty_store : store := Store [] [] [] [].

Definition with_nodes (s : store) (ns : list node) : store :=
  Store ns (rels s) (constraints s) (indexes s).
Definition with_rels (s : store) (rs : list rel) : store :=
  Store (nodes s) rs (constraints s) (indexes s).

(** *** Properties *)

Definition get_prop (k : string) (p : props) : value :=
  match dict_lookup k p with
  | Some v => v
  | None => VNone
  end.

Fixpoint remove_prop (k : string) (p : props) : props :=
  match p with
  | [] => []
  | (k', v) :: p' =>
      if String.eqb k' k then remove_prop k p' else (k', v) :: remove_prop k p'
  end.

Fixpoint put_prop (k : string) (v : value) (p : props) : props :=
  match p with
  | [] => [(k, v)]
  | (k', v') :: p' =>
      if String.eqb k' k then (k, v) :: p' else (k', v') :: put_prop k v p'
  end.

Definition set_prop (k : string) (v : value) (p : props) : props :=
  match v with
  | VNone => remove_prop k p
  | _ => put_prop k v p
  end.

(** A property holds a scalar or a list of scalars; null removes it. *)
Definition scalar (v : value) : bool :=
  match v with
  | VBool _ | VInt _ | VFloat _ | VStr _ => true
  | _ => false
  end.

Definition storable (v : value) : bool :=
  match v with
  | VNone => true
  | VList l => forallb scalar l
  | VDict _ => false
  | _ => true
  end.

(** *** Cypher expressions *)

(** Equality as used by pattern matching: null and maps never match;
    numbers compare by value; lists compare element by element. *)
Fixpoint cy_eqb (a b : value) {struct a} : bool :=
  match a, b with
  | VBool x, VBool y => Bool.eqb x y
  | VInt x, VInt y => (x =? y)%Z
  | VInt x, VFloat g => float_eq_int g x
  | VFloat f, VInt y => float_eq_int f y
  | VFloat f, VFloat g => float_eqb f g
  | VStr s, VStr t => String.eqb s t
  | VList xs, VList ys =>
      (fix go (xs ys : list value) {struct xs} : bool :=
         match xs, ys with
         | [], [] => true
         | x :: xs', y :: ys' => cy_eqb x y && go xs' ys'
         | _, _ => false
         end) xs ys
  | _, _ => false
  end.

(** [m.k]: a missing key and a null map both give null. *)
Definition cy_access (m : value) (k : string) : result value :=
  match m with
  | VDict d => Ok (get_prop k d)
  | VNone => Ok VNone
  | _ => Err CypherTypeError
  end.

(** Conversion of a 64-bit integer to a double: round to nearest even. *)
Definition float_of_int (z : Z) : spec_float :=
  binary_normalize 53 1024 z 0 false.

(** *** Pattern matching on nodes *)

Definition node_matches (l : label) (k : string) (v : value) (n : node) : bool :=
  bool_decide (nlabel n = l) && cy_eqb (get_prop k (nprops n)) v.

Fixpoint find_indices {A} (p : A → bool) (l : list A) (i : nat) : list nat :=
  match l with
  | [] => []
  | x :: l' =>
      if p x then i :: find_indices p l' (S i) else find_indices p l' (S i)
  end.

(** [MATCH (n:l {k: v})] *)
Definition match_nodes (l : label) (k : string) (v : value) (s : store) : list nat :=
  find_indices (node_matches l k v) (nodes s) 0.

(** *** Writes *)

Definition constrained (l : label) (k : string) (s : store) : bool :=
  existsb (fun c : rule => bool_decide (fst (snd c) = l) && String.eqb (snd (snd c)) k)
          (constraints s).

(** Would node [self] holding [v] under key [k] break a uniqueness
    constraint on [(l, k)]? *)
Definition violates (l : label) (k : string) (v : value) (self : nat) (s : store) : bool :=
  constrained l k s
  && existsb (fun i => negb (Nat.eqb i self)) (match_nodes l k v s).

(** [CREATE (n:l {k: v})] *)
Definition create_node (l : label) (k : string) (v : value) (s : store)
  : result (nat * store) :=
  if negb (storable v) then Err CypherTypeError
  else if violates l k v (length (nodes s)) s then Err ConstraintError
  else Ok (length (nodes s), with_nodes s (nodes s ++ [Node l (set_prop k v [])])).

(** [SET n.k = v] on the node bound to [i] *)
Definition set_node_prop (i : nat) (k : string) (v : value) (s : store) : result store :=
  match nodes s !! i with
  | None => Ok s
  | Some n =>
      if negb (storable v) then Err CypherTypeError
      else if violates (nlabel n) k v i s then Err ConstraintError
      else Ok (with_nodes s (<[i := Node (nlabel n) (set_prop k v (nprops n))]> (nodes s)))
  end.

(** [SET n.k1 = e1, n.k2 = e2, ...], the right-hand sides already
    evaluated to a value or an error. *)
Fixpoint set_node_props (i : nat) (kvs : list (string * result value)) (s : store)
  : result store :=
  match kvs with
  | [] => Ok s
  | (k, e) :: kvs' =>
      let* v := e in
      let* s' := set_node_prop i k v s in
      set_node_props i kvs' s'
  end.

(** [CREATE (a)-[r:t]->(b)] *)
Definition create_rel (t : rtype) (a b : nat) (s : store) : nat * store :=
  (length (rels s), with_rels s (rels s ++ [Rel t a b []])).

(** [SET r.k = v] on the relationship bound to [i] *)
Definition set_rel_prop (i : nat) (k : string) (v : value) (s : store) : result store :=
  match rels s !! i with
  | None => Ok s
  | Some r =>
      if negb (storable v) then Err CypherTypeError
      else Ok (with_rels s (<[i := Rel (rkind r) (rsrc r) (rdst r) (set_prop k v (rprops r))]> (rels s)))
  end.

Fixpoint set_rel_props (i : nat) (kvs : list (string * result value)) (s : store)
  : result store :=
  match kvs with
  | [] => Ok s
  | (k, e) :: kvs' =>
      let* v := e in
      let* s' := set_rel_prop i k v s in
      set_rel_props i kvs' s'
  end.

(** [MERGE (n:l {k: v}) ON CREATE SET ...]: binds every matching node; when
    there is none, creates one and runs [on_create] on it.  Merging on a
    null property value is refused. *)
Definition merge_node (l : label) (k : string) (v : value)
    (on_create : nat → store → result store) (s : store) : result (list nat * store) :=
  match v with
  | VNone => Err ClientError
  | _ =>
      match match_nodes l k v s with
      | [] =>
          let* (i, s1) := create_node l k v s in
          let* s2 := on_create i s1 in
          Ok ([i], s2)
      | ms => Ok (ms, s)
      end
  end.

(** A clause maps a table of rows and a store to a table and a store: the
    rows go through the clause one after the other, each seeing the writes
    of the rows before it. *)
Fixpoint clause {R R'} (step : R → store → result (list R' * store))
    (rows : list R) (s : store) : result (list R' * store) :=
  match rows with
  | [] => Ok ([], s)
  | r :: rows' =>
      let* (out, s1) := step r s in
      let* (outs, s2) := clause step rows' s1 in
      Ok (out ++ outs, s2)
  end.

(** *** Schema statements *)

Definition rule_named (name : string) (rs : list rule) : bool :=
  existsb (fun r : rule => String.eqb (fst r) name) rs.

Definition indexed (l : label) (k : string) (s : store) : bool :=
  existsb (fun c : rule => bool_decide (fst (snd c) = l) && String.eqb (snd (snd c)) k)
          (indexes s).

(** No two nodes labelled [l] hold equal values under [k]. *)
Fixpoint distinct_keys (l : label) (k : string) (ns : list node) : bool :=
  match ns with
  | [] => true
  | n :: ns' =>
      (if bool_decide (nlabel n = l)
       then negb (existsb (node_matches l k (get_prop k (nprops n))) ns')
       else true)
      && distinct_keys l k ns'
  end.

(** [CREATE CONSTRAINT name IF NOT EXISTS FOR (n:l) REQUIRE n.k IS UNIQUE]:
    nothing happens when a constraint of that name or on that label and key
    is present; otherwise the data present must satisfy it. *)
Definition create_constraint (name : string) (l : label) (k : string) (s : store)
  : result store :=
  if rule_named name (constraints s) || constrained l k s then Ok s
  else if distinct_keys l k (nodes s)
       then Ok (Store (nodes s) (rels s) (constraints s ++ [(name, (l, k))]) (indexes s))
       else Err DatabaseError.

(** [CREATE INDEX name IF NOT EXISTS FOR (n:l) ON (n.k)] *)
Definition create_index (name : string) (l : label) (k : string) (s : store)
  : result store :=
  if rule_named name (indexes s) || indexed l k s then Ok s
  else Ok (Store (nodes s) (rels s) (constraints s) (indexes s ++ [(name, (l, k))])).

(** ** Running statements

    [session.run] either commits the statement or raises, leaving the store
    as it was before the statement; earlier statements stay committed. *)

Inductive outcome :=
| Done (s : store)
| Abort (e : error) (s : store).

Definition session_run (q : store → result store) (s : store) : outcome :=
  match q s with
  | Ok s' => Done s'
  | Err e => Abort e s
  end.

Definition and_then (o : outcome) (k : store → outcome) : outcome :=
  match o with
  | Done s => k s
  | Abort e s => Abort e s
  end.

Fixpoint run_all (qs : list (store → result store)) (s : store) : outcome :=
  match qs with
  | [] => Done s
  | q :: qs' => and_then (session_run q s) (run_all qs')
  end.

Definition final (o : outcome) : store :=
  match o with
  | Done s => s
  | Abort _ s => s
  end.

Section Loader.

(** The float parser of the database's [toFloat] on strings, and the JSON
    parser of [json.load], are external. *)
Variable parse_float : string → option spec_float.
Variable json_loads : string → option value.

(** [toFloat(v)] *)
Definition toFloat (v : value) : result value :=
  match v with
  | VNone => Ok VNone
  | VInt z => Ok (VFloat (float_of_int z))
  | VFloat f => Ok (VFloat f)
  | VStr s => Ok (match parse_float s with Some f => VFloat f | None => VNone end)
  | _ => Err CypherTypeError
  end.

(** ** [FoodDataImporter.create_constraints_and_indexes] *)

Definition create_constraints_and_indexes (s : store) : outcome :=
  run_all
    [ create_constraint "food_fdc_id" Food "fdcId";
      create_constraint "nutrient_id" Nutrient "id";
      create_constraint "category_id" FoodCategory "id";
      create_index "food_description" Food "description";
      create_index "nutrient_name" Nutrient "name" ] s.

(** ** [FoodDataImporter.load_json_data]

    [fs] maps a path to the text of the file, if there is one: of what
    [open] and [read] can raise, a missing file is the only failure
    modelled, so the results below hold of the runs in which the file is
    either missing or read as text.  The progress line evaluates
    [len(data['FoundationFoods'])]. *)

Definition load_json_data (fs : string → option string) (filepath : string)
  : result value :=
  match fs filepath with
  | None => Err FileNotFoundError
  | Some text =>
      match json_loads text with
      | None => Err JSONDecodeError
      | Some data =>
          let* foods := py_getitem data "FoundationFoods" in
          let* _ := py_len foods in
          Ok data
      end
  end.

(** ** [FoodDataImporter.create_nutrients] *)

(** The body of the inner loop:
    [nutrient = fn['nutrient']; nutrients[nutrient['id']] = nutrient]. *)
Definition collect_fn (nutrients : pydict) (fn : value) : result pydict :=
  let* nutrient := py_getitem fn "nutrient" in
  let* nid := py_getitem nutrient "id" in
  py_setitem nutrients nid nutrient.

(** [for fn in food.get('foodNutrients', []): ...] *)
Definition collect_food (nutrients : pydict) (food : value) : result pydict :=
  let* fns := py_get food "foodNutrients" (VList []) in
  let* fns := py_iter fns in
  foldM collect_fn fns nutrients.

Definition collect_nutrients (foods : list value) : result pydict :=
  foldM collect_food foods [].

(** The statement
    [UNWIND $nutrients AS nutrient
     MERGE (n:Nutrient {id: nutrient.id})
     ON CREATE SET n.name = nutrient.name, n.number = nutrient.number,
                   n.unitName = nutrient.unitName, n.rank = nutrient.rank] *)
Definition merge_nutrient (nutrient : value) (s : store)
  : result (list (value * nat) * store) :=
  let* nid := cy_access nutrient "id" in
  let* (ns, s') :=
    merge_node Nutrient "id" nid
      (fun n => set_node_props n
         [ ("name", cy_access nutrient "name");
           ("number", cy_access nutrient "number");
           ("unitName", cy_access nutrient "unitName");
           ("rank", cy_access nutrient "rank") ]) s in
  Ok (map (fun n => (nutrient, n)) ns, s').

Definition nutrients_query (nutrients : list value) (s : store) : result store :=
  let* (_, s') := clause merge_nutrient nutrients s in
  Ok s'.

Definition create_nutrients (foods : list value) (s : store) : outcome :=
  match collect_nutrients foods with
  | Err e => Abort e s
  | Ok nutrients =>
      let nutrient_list := dict_values nutrients in
      run_all (map nutrients_query (batches NUTRIENT_BATCH_SIZE nutrient_list)) s
  end.

(** ** [FoodDataImporter.create_foods_and_categories] *)

(** [MERGE (fc:FoodCategory {id: food.foodCategory.id})
     ON CREATE SET fc.code = food.foodCategory.code,
                   fc.description = food.foodCategory.description] *)
Definition merge_category (food : value) (s : store)
  : result (list (value * nat) * store) :=
  let* cat := cy_access food "foodCategory" in
  let* cid := cy_access cat "id" in
  let* (fcs, s') :=
    merge_node FoodCategory "id" cid
      (fun fc => set_node_props fc
         [ ("code", cy_access cat "code");
           ("description", cy_access cat "description") ]) s in
  Ok (map (fun fc => (food, fc)) fcs, s').

(** [CREATE (f:Food {fdcId: food.fdcId})] *)
Definition create_food (row : value * nat) (s : store)
  : result (list (value * nat * nat) * store) :=
  let (food, fc) := row in
  let* fid := cy_access food "fdcId" in
  let* (f, s') := create_node Food "fdcId" fid s in
  Ok ([(food, fc, f)], s').

(** [SET f.description = food.description, f.foodClass = food.foodClass,
         f.dataType = food.dataType, f.ndbNumber = food.ndbNumber,
         f.publicationDate = food.publicationDate] *)
Definition set_food (row : value * nat * nat) (s : store)
  : result (list (value * nat * nat) * store) :=
  let '(food, fc, f) := row in
  let* s' :=
    set_node_props f
      [ ("description", cy_access food "description");
        ("foodClass", cy_access food "foodClass");
        ("dataType", cy_access food "dataType");
        ("ndbNumber", cy_access food "ndbNumber");
        ("publicationDate", cy_access food "publicationDate") ] s in
  Ok ([row], s').

(** [CREATE (f)-[:BELONGS_TO]->(fc)] *)
Definition link_category (row : value * nat * nat) (s : store)
  : result (list nat * store) :=
  let '(food, fc, f) := row in
  let (r, s') := create_rel BELONGS_TO f fc s in
  Ok ([r], s').

Definition foods_query (foods : list value) (s : store) : result store :=
  let* (rows1, s1) := clause merge_category foods s in
  let* (rows2, s2) := clause create_food rows1 s1 in
  let* (rows3, s3) := clause set_food rows2 s2 in
  let* (_, s4) := clause link_category rows3 s3 in
  Ok s4.

Definition create_foods_and_categories (foods : list value) (s : store) : outcome :=
  run_all (map foods_query (batches FOOD_BATCH_SIZE foods)) s.

(** ** [FoodDataImporter.create_nutrient_relationships] *)

(** The dict appended to [nutrients_data] for one entry of
    [foodNutrients]. *)
Definition nutrient_entry (fn : value) : result value :=
  let* nutrient := py_getitem fn "nutrient" in
  let* nid := py_getitem nutrient "id" in
  let* amount := py_get fn "amount" VNone in
  let* dataPoints := py_get fn "dataPoints" VNone in
  let* der := py_get fn "foodNutrientDerivation" (VDict []) in
  let* code := py_get der "code" VNone in
  let* der' := py_get fn "foodNutrientDerivation" (VDict []) in
  let* description := py_get der' "description" VNone in
  let* min := py_get fn "min" VNone in
  let* max := py_get fn "max" VNone in
  let* median := py_get fn "median" VNone in
  Ok (VDict [ ("nutrient_id", nid);
              ("amount", amount);
              ("dataPoints", dataPoints);
              ("derivationCode", code);
              ("derivationDescription", description);
              ("min", min);
              ("max", max);
              ("median", median) ]).

Fixpoint map_result {A B} (f : A → result B) (l : list A) : result (list B) :=
  match l with
  | [] => Ok []
  | x :: l' => let* y := f x in let* ys := map_result f l' in Ok (y :: ys)
  end.

Definition nutrients_data (food : value) : result (list value) :=
  let* fns := py_get food "foodNutrients" (VList []) in
  let* fns := py_iter fns in
  map_result nutrient_entry fns.

(** [MATCH (n:Nutrient {id: nutrientData.nutrient_id})] *)
Definition match_nutrient (row : nat * value) (s : store)
  : result (list (nat * value * nat) * store) :=
  let (f, nutrientData) := row in
  let* nid := cy_access nutrientData "nutrient_id" in
  Ok (map (fun n => (f, nutrientData, n)) (match_nodes Nutrient "id" nid s), s).

(** [CREATE (f)-[r:HAS_NUTRIENT]->(n)] *)
Definition create_measurement (row : nat * value * nat) (s : store)
  : result (list (value * nat) * store) :=
  let '(f, nutrientData, n) := row in
  let (r, s') := create_rel HAS_NUTRIENT f n s in
  Ok ([(nutrientData, r)], s').

(** [SET r.amount = toFloat(nutrientData.amount),
         r.dataPoints = nutrientData.dataPoints,
         r.derivationCode = nutrientData.derivationCode,
         r.derivationDescription = nutrientData.derivationDescription,
         r.min = toFloat(nutrientData.min),
         r.max = toFloat(nutrientData.max),
         r.median = toFloat(nutrientData.median)] *)
Definition measurement_fields (nutrientData : value) : list (string * result value) :=
  [ ("amount", let* v := cy_access nutrientData "amount" in toFloat v);
    ("dataPoints", cy_access nutrientData "dataPoints");
    ("derivationCode", cy_access nutrientData "derivationCode");
    ("derivationDescription", cy_access nutrientData "derivationDescription");
    ("min", let* v := cy_access nutrientData "min" in toFloat v);
    ("max", let* v := cy_access nutrientData "max" in toFloat v);
    ("median", let* v := cy_access nutrientData "median" in toFloat v) ].

Definition set_measurement (row : value * nat) (s : store)
  : result (list nat * store) :=
  let (nutrientData, r) := row in
  let* s' := set_rel_props r (measurement_fields nutrientData) s in
  Ok ([r], s').

(** The statement of [create_nutrient_relationships], with parameters
    [$fdcId] and [$nutrients]. *)
Definition measurements_query (fdcId : value) (nutrients : list value) (s : store)
  : result store :=
  let fs := match_nodes Food "fdcId" fdcId s in
  let rows1 := flat_map (fun f => map (fun nd => (f, nd)) nutrients) fs in
  let* (rows2, s2) := clause match_nutrient rows1 s in
  let* (rows3, s3) := clause create_measurement rows2 s2 in
  let* (_, s4) := clause set_measurement rows3 s3 in
  Ok s4.

(** What one turn of the loop evaluates before the statement is sent. *)
Definition measurement_params (food : value) : result (value * list value) :=
  let* nd := nutrients_data food in
  let* fid := py_getitem food "fdcId" in
  Ok (fid, nd).

Fixpoint create_nutrient_relationships (foods : list value) (s : store) : outcome :=
  match foods with
  | [] => Done s
  | food :: foods' =>
      match measurement_params food with
      | Err e => Abort e s
      | Ok (fid, nd) =>
          and_then (session_run (measurements_query fid nd) s)
                   (create_nutrient_relationships foods')
      end
  end.

(** ** [FoodDataImporter.verify_import]: the five counts, in the order of
    the summary table. *)

Definition count_nodes (l : label) (s : store) : nat :=
  length (filter (fun n => nlabel n = l) (nodes s)).

Definition count_rels (t : rtype) (s : store) : nat :=
  length (filter (fun r => rkind r = t) (rels s)).

Definition verify_import (s : store) : nat * nat * nat * nat * nat :=
  (count_nodes Food s, count_nodes Nutrient s, count_nodes FoodCategory s,
   count_rels HAS_NUTRIENT s, count_rels BELONGS_TO s).

(** ** [FoodDataImporter.run_import] *)

Definition run_import (fs : string → option string) (json_file : string) (s : store)
  : outcome :=
  match (let* data := load_json_data fs json_file in
         py_getitem data "FoundationFoods") with
  | Err e => Abort e s
  | Ok foods =>
      and_then (create_constraints_and_indexes s) (fun s1 =>
        match py_iter foods with
        | Err e => Abort e s1
        | Ok foods =>
            and_then (create_nutrients foods s1) (fun s2 =>
            and_then (create_foods_and_categories foods s2) (fun s3 =>
            create_nutrient_relationships foods s3))
        end)
  end.

End Loader.

(** ** The input as the data model reads it

    A food record is a dict whose [foodNutrients], when present, is a list
    of entries; an entry refers to a nutrient dict whose [id] is an integer.
    [nutrient_refs foods] lists the (identifier, nutrient) pairs of the input
    in input order; it is [None] when some record has another shape. *)

Definition entry_ref (fn : value) : option (Z * value) :=
  match fn with
  | VDict d =>
      match dict_lookup "nutrient" d with
      | Some (VDict n) =>
          match dict_lookup "id" n with
          | Some (VInt z) => Some (z, VDict n)
          | _ => None
          end
      | _ => None
      end
  | _ => None
  end.

Definition food_entries (food : value) : option (list value) :=
  match food with
  | VDict d =>
      match dict_lookup "foodNutrients" d with
      | None => Some []
      | Some (VList l) => Some l
      | Some _ => None
      end
  | _ => None
  end.

Definition food_refs (food : value) : option (list (Z * value)) :=
  fns ← food_entries food; mapM entry_ref fns.

Definition nutrient_refs (foods : list value) : option (list (Z * value)) :=
  refss ← mapM food_refs foods; Some (concat refss).

(** A dict with integer keys, and its reading as a [pydict]. *)
Fixpoint zset (z : Z) (v : value) (d : list (Z * value)) : list (Z * value) :=
  match d with
  | [] => [(z, v)]
  | (z', v') :: d' =>
      if bool_decide (z' = z) then (z', v) :: d' else (z', v') :: zset z v d'
  end.

Definition emb (d : list (Z * value)) : pydict :=
  map (fun p => (VInt p.1, p.2)) d.

Definition dedup (d : list (Z * value)) (refs : list (Z * value)) : list (Z * value) :=
  foldl (fun d p => zset p.1 p.2 d) d refs.

(** The value of [m.k] in a statement that does not fail. *)
Definition cy_field (m : value) (k : string) : value :=
  match cy_access m k with
  | Ok v => v
  | Err _ => VNone
  end.

(** The node that the MERGE of [create_nutrients] creates for a nutrient. *)
Definition nutrient_node (nutrient : value) : node :=
  Node Nutrient
    (set_prop "rank" (cy_field nutrient "rank")
    (set_prop "unitName" (cy_field nutrient "unitName")
    (set_prop "number" (cy_field nutrient "number")
    (set_prop "name" (cy_field nutrient "name")
    (set_prop "id" (cy_field nutrient "id") []))))).

(** A nutrient whose identifier matches no Nutrient node of the store. *)
Definition unmatched (s : store) (nutrient : value) : Prop :=
  match_nodes Nutrient "id" (cy_field nutrient "id") s = [].

Global Instance unmatched_dec s nutrient : Decision (unmatched s nutrient).
Proof. unfold unmatched. apply _. Defined.

(** A reference pairs an integer with a nutrient dict that carries it as
    its [id]. *)
Definition ref_ok (p : Z * value) : Prop :=
  ∃ nd, p.2 = VDict nd ∧ get_prop "id" nd = VInt p.1.

(** A nutrient that some Nutrient node of the store matches. *)
Definition matched (s : store) (v : value) : Prop :=
  ∃ nd z, v = VDict nd ∧ get_prop "id" nd = VInt z
          ∧ match_nodes Nutrient "id" (VInt z) s ≠ [].

(** ** Referential integrity and the growth of the store *)

Definition has_label (s : store) (i : nat) (l : label) : Prop :=
  ∃ n, nodes s !! i = Some n ∧ nlabel n = l.

(** Every measurement links a Food node to a Nutrient node of the store. *)
Definition integrity (s : store) : Prop :=
  ∀ r, r ∈ rels s → rkind r = HAS_NUTRIENT →
    has_label s (rsrc r) Food ∧ has_label s (rdst r) Nutrient.

(** Two versions of a node: same label, same identifying properties. *)
Definition same_key (n n' : node) : Prop :=
  nlabel n' = nlabel n
  ∧ get_prop "fdcId" (nprops n') = get_prop "fdcId" (nprops n)
  ∧ get_prop "id" (nprops n') = get_prop "id" (nprops n).

(** [s'] extends [s]: the nodes of [s] are in [s'] at the same positions
    with the same label and identifiers, and the constraints of [s] hold
    in [s']. *)
Definition ext (s s' : store) : Prop :=
  (∀ l k, constrained l k s = true → constrained l k s' = true)
  ∧ ∀ i n, nodes s !! i = Some n → ∃ n', nodes s' !! i = Some n' ∧ same_key n n'.

Definition keeps (s s' : store) : Prop :=
  ext s s' ∧ (integrity s → integrity s').

(** The operations of the loader, and the store they leave, whether they
    complete or abort. *)
Inductive operation :=
| Schema
| Nutrients (foods : list value)
| Foods (foods : list value)
| Measurements (foods : list value)
| Import (fs : string → option string) (json_file : string).

Definition perform (pf : string → option spec_float) (jl : string → option value)
    (s : store) (o : operation) : store :=
  match o with
  | Schema => final (create_constraints_and_indexes s)
  | Nutrients foods => final (create_nutrients foods s)
  | Foods foods => final (create_foods_and_categories foods s)
  | Measurements foods => final (create_nutrient_relationships pf foods s)
  | Import fs json_file => final (run_import pf jl fs json_file s)
  end.

(** Assignments that leave the identifying properties alone. *)
Definition plain_keys (kvs : list (string * result value)) : Prop :=
  Forall (fun kv => kv.1 ≠ "fdcId" ∧ kv.1 ≠ "id") kvs.

(** The properties that a list of assignments leaves on a relationship or
    node when none of them fails. *)
Definition apply_sets (kvs : list (string * result value)) (p : props) : props :=
  foldl (fun p kv => match kv.2 with Ok v => set_prop kv.1 v p | Err _ => p end) p kvs.

(** The measurement that the statement creates for the row [(f, nd, n)]. *)
Definition measurement (pf : string → option spec_float) (row : nat * value * nat) : rel :=
  Rel HAS_NUTRIENT row.1.1 row.2 (apply_sets (measurement_fields pf row.1.2) []).

(** At most one node labelled [l] holds a given integer under [k]: what a
    uniqueness constraint on [(l, k)] guarantees for integer keys. *)
Definition unique_int_key (l : label) (k : string) (s : store) : Prop :=
  ∀ z, length (match_nodes l k (VInt z) s) ≤ 1.

(** The value of [food.foodCategory.id]. *)
Definition category_id (food : value) : value :=
  cy_field (cy_field food "foodCategory") "id".

(** The nodes of two stores agree, one by one, on label and identifiers. *)
Definition same_keys (s s' : store) : Prop :=
  Forall2 same_key (nodes s) (nodes s').

(** A BELONGS_TO relationship that links a Food node carrying the
    [fdcId] of [food] to a FoodCategory node carrying its category id. *)
Definition link_ok (s : store) (food : value) (r : rel) : Prop :=
  rkind r = BELONGS_TO
  ∧ (∃ nf, nodes s !! rsrc r = Some nf ∧ nlabel nf = Food
           ∧ get_prop "fdcId" (nprops nf) = cy_field food "fdcId")
  ∧ (∃ nc, nodes s !! rdst r = Some nc
           ∧ node_matches FoodCategory "id" (category_id food) nc = true).

(** ** A small input

    Two foods of one category that refer to the same nutrient, with
    different names for it; the first entry has no amount.  A third record
    has no [foodNutrients]. *)

Definition ex_nutrient (name : string) : list (string * value) :=
  [ ("id", VInt 1051); ("number", VStr "255"); ("name", VStr name);
    ("rank", VInt 100); ("unitName", VStr "g") ].

Definition ex_category : value :=
  VDict [ ("id", VInt 9); ("code", VStr "0900");
          ("description", VStr "Fruits and Fruit Juices") ].

Definition ex_entry_a : list (string * value) :=
  [ ("type", VStr "FoodNutrient"); ("nutrient", VDict (ex_nutrient "Water"));
    ("dataPoints", VInt 8) ].

Definition ex_entry_b : list (string * value) :=
  [ ("type", VStr "FoodNutrient"); ("nutrient", VDict (ex_nutrient "Water, total"));
    ("dataPoints", VInt 4);
    ("foodNutrientDerivation",
     VDict [("code", VStr "A"); ("description", VStr "Analytical")]);
    ("amount", VInt 86) ].

Definition ex_food_a : list (string * value) :=
  [ ("fdcId", VInt 1); ("description", VStr "Apples, raw");
    ("foodCategory", ex_category);
    ("foodNutrients", VList [VDict ex_entry_a]) ].

Definition ex_food_b : list (string * value) :=
  [ ("fdcId", VInt 2); ("description", VStr "Pears, raw");
    ("foodCategory", ex_category);
    ("foodNutrients", VList [VDict ex_entry_b]) ].

Definition ex_food_bare : list (string * value) :=
  [ ("fdcId", VInt 3); ("description", VStr "Plums, raw");
    ("foodCategory", ex_category) ].

Definition ex_foods : list value := [VDict ex_food_a; VDict ex_food_b].

Definition ex_refs : list (Z * value) :=
  [ (1051%Z, VDict (ex_nutrient "Water"));
    (1051%Z, VDict (ex_nutrient "Water, total")) ].

Definition ex_parse_float (s : string) : option spec_float := None.

Definition ex_json_loads (text : string) : option value :=
  if String.eqb text "foods" then Some (VDict [("FoundationFoods", VList ex_foods)])
  else if String.eqb text "empty" then Some (VDict [])
  else None.

Definition ex_fs (path : string) : option string :=
  if String.eqb path "foods.json" then Some "foods"
  else if String.eqb path "empty.json" then Some "empty"
  else if String.eqb path "broken.json" then Some "{"
  else None.

(** The store after the schema, and after each phase of the import. *)
Definition ex_schema : store :=
  Eval vm_compute in final (create_constraints_and_indexes empty_store).
Definition ex_with_nutrients : store :=
  Eval vm_compute in final (create_nutrients ex_foods ex_schema).
Definition ex_with_foods : store :=
  Eval vm_compute in final (create_foods_and_categories ex_foods ex_with_nutrients).
Definition ex_loaded : store :=
  Eval vm_compute in
    final (create_nutrient_relationships ex_parse_float ex_foods ex_with_foods).

(** ** [main]

    [response] is the line that [input] returns.  [str.lower] is modelled
    on the ASCII letters, which are the only characters that lower to the
    letters of "yes" and "y".  Closing the driver has no effect on the
    store. *)

Definition JSON_FILE : string := "FoodData_Central_foundation_food_json_2025-04-24.json".

Definition ascii_lower (c : ascii) : ascii :=
  let n := nat_of_ascii c in
  if (65 <=? n) && (n <=? 90) then ascii_of_nat (n + 32) else c.

Fixpoint py_lower (s : string) : string :=
  match s with
  | EmptyString => EmptyString
  | String c s' => String (ascii_lower c) (py_lower s')
  end.

(** [response.lower() in ['yes', 'y']] *)
Definition confirmed (response : string) : bool :=
  String.eqb (py_lower response) "yes" || String.eqb (py_lower response) "y".

Definition main (pf : string → option spec_float) (jl : string → option value)
    (fs : string → option string) (response : string) (s : store) : outcome :=
  if negb (confirmed response) then Done s
  else run_import pf jl fs JSON_FILE s.

(** A value that [len] accepts. *)
Definition sized (v : value) : Prop :=
  match v with
  | VList _ | VDict _ | VStr _ => True
  | _ => False
  end.

(** Whether a list of assignments goes through: every right-hand side
    evaluates, to a value that a property can hold. *)
Fixpoint sets_check (kvs : list (string * result value)) : result unit :=
  match kvs with
  | [] => Ok tt
  | (k, e) :: kvs' =>
      let* v := e in
      if storable v then sets_check kvs' else Err CypherTypeError
  end.

Fixpoint rows_check (pf : string → option spec_float) (rows : list (nat * value * nat))
  : result unit :=
  match rows with
  | [] => Ok tt
  | r :: rows' =>
      let* _ := sets_check (measurement_fields pf r.1.2) in
      rows_check pf rows'
  end.

(** A statement on data: the schema stays, relationships are only added. *)
Definition appends (s s' : store) : Prop :=
  constraints s' = constraints s
  ∧ indexes s' = indexes s
  ∧ ∃ new, rels s' = rels s ++ new.

(** The schema rules of [s] are in [s']. *)
Definition schema_ext (s s' : store) : Prop :=
  (∀ name, rule_named name (constraints s) = true → rule_named name (constraints s') = true)
  ∧ (∀ l k, constrained l k s = true → constrained l k s' = true)
  ∧ (∀ name, rule_named name (indexes s) = true → rule_named name (indexes s') = true)
  ∧ (∀ l k, indexed l k s = true → indexed l k s' = true)
  ∧ nodes s' = nodes s
  ∧ rels s' = rels s.

(** Relationships, constraints and indexes of [s] are those of [s'], in
    place, with more after them. *)
Definition retains (s s' : store) : Prop :=
  (∃ new, rels s' = rels s ++ new)
  ∧ (∃ new, constraints s' = constraints s ++ new)
  ∧ (∃ new, indexes s' = indexes s ++ new).

(** [create_constraint name l k] goes through on [s]. *)
Definition constraint_ok (name : string) (l : label) (k : string) (s : store) : bool :=
  rule_named name (constraints s) || constrained l k s || distinct_keys l k (nodes s).

(** ** The integer identifiers of the nodes of a label *)

Definition int_key (l : label) (k : string) (n : node) : option Z :=
  if bool_decide (nlabel n = l)
  then match get_prop k (nprops n) with VInt z => Some z | _ => None end
  else None.

Definition int_keys (l : label) (k : string) (s : store) : list Z :=
  omap (int_key l k) (nodes s).

(** Every node labelled [l] carries an integer under [k], and no two of
    them the same. *)
Definition keyed (l : label) (k : string) (s : store) : Prop :=
  NoDup (int_keys l k s) ∧ length (int_keys l k s) = count_nodes l s.

Definition int_of (v : value) : Z :=
  match v with VInt z => z | _ => 0%Z end.

(** The identifiers of a food record and of its category. *)
Definition food_key (food : value) : Z := int_of (cy_field food "fdcId").
Definition category_key (food : value) : Z := int_of (category_id food).

(** A food record with an integer [fdcId] and an integer category [id]. *)
Definition int_ids (food : value) : Prop :=
  ∃ k c, cy_field food "fdcId" = VInt k ∧ category_id food = VInt c.

(** What creating the foods [b] does to a store that enforces unique
    [fdcId]s. *)
Definition foods_added (b : list value) (s s' : store) : Prop :=
  constrained Food "fdcId" s' = true
  ∧ keyed Food "fdcId" s' ∧ keyed FoodCategory "id" s'
  ∧ int_keys Food "fdcId" s' = int_keys Food "fdcId" s ++ (food_key <$> b)
  ∧ (list_to_set (int_keys FoodCategory "id" s') : gset Z)
    = list_to_set (int_keys FoodCategory "id" s) ∪ list_to_set (category_key <$> b)
  ∧ int_keys Nutrient "id" s' = int_keys Nutrient "id" s
  ∧ count_nodes Nutrient s' = count_nodes Nutrient s
  ∧ ∃ links, rels s' = rels s ++ links ∧ length links = length b
      ∧ Forall (fun r => rkind r = BELONGS_TO) links.

(** [s'] has the nodes of [s], untouched, and after them new nodes that
    satisfy [P]. *)
Definition adds (P : node → Prop) (s s' : store) : Prop :=
  ∃ new, nodes s' = nodes s ++ new ∧ Forall P new.

(** The constraints and indexes that [create_constraints_and_indexes]
    asks for. *)
Definition loader_constraints : list rule :=
  [ ("food_fdc_id", (Food, "fdcId")); ("nutrient_id", (Nutrient, "id"));
    ("category_id", (FoodCategory, "id")) ].
Definition loader_indexes : list rule :=
  [ ("food_description", (Food, "description")); ("nutrient_name", (Nutrient, "name")) ].

(** A database whose schema holds no rule but the loader's own. *)
Definition own_schema (s : store) : Prop :=
  (∀ r, r ∈ constraints s → r ∈ loader_constraints)
  ∧ (∀ r, r ∈ indexes s → r ∈ loader_indexes).

Global Instance rule_eq_dec : EqDecision rule.
Proof. unfold rule. apply _. Defined.

(** The constraint [r] is in place, or the nodes present satisfy it. *)
Definition satisfiable (s : store) (r : rule) : bool :=
  bool_decide (r ∈ constraints s) || distinct_keys r.2.1 r.2.2 (nodes s).

(** What a completed import into the empty database leaves: [s3] is the
    store before the measurements are created, [s'] the final store. *)
Definition imported (foods : list value) (refs : list (Z * value)) (s3 s' : store) : Prop :=
  nodes s' = nodes s3
  ∧ constraints s' = loader_constraints
  ∧ indexes s' = loader_indexes
  ∧ keyed Food "fdcId" s3 ∧ keyed FoodCategory "id" s3 ∧ keyed Nutrient "id" s3
  ∧ int_keys Food "fdcId" s3 = (food_key <$> foods)
  ∧ (list_to_set (int_keys FoodCategory "id" s3) : gset Z)
    = list_to_set (category_key <$> foods)
  ∧ int_keys Nutrient "id" s3 = (dedup [] refs).*1
  ∧ (length (rels s3) = length foods ∧ Forall (fun r => rkind r = BELONGS_TO) (rels s3))
  ∧ ∃ new, rels s' = rels s3 ++ new ∧ length new = length refs
      ∧ Forall (fun r => rkind r = HAS_NUTRIENT) new.

(** * Properties *)

(** ** Batching *)

Section Batches.
Context {A : Type}.
Implicit Types (l : list A) (size : nat).

Lemma py_slice_take l i size : py_slice l i (i + size) = take size (drop i l).
Proof. unfold py_slice. f_equal. lia. Qed.

Lemma py_range_length stop size : length (py_range stop size) = (stop + size - 1) / size.
Proof. unfold py_range. by rewrite length_map, length_seq. Qed.

Lemma batches_length size l :
  length (batches size l) = (length l + size - 1) / size.
Proof. unfold batches. by rewrite length_map, py_range_length. Qed.

Lemma batches_lookup size l i b :
  batches size l !! i = Some b ↔
  i < (length l + size - 1) / size ∧ b = take size (drop (i * size) l).
Proof.
  unfold batches, py_range. rewrite list_lookup_fmap, list_lookup_fmap.
  destruct (seq 0 ((length l + size - 1) / size) !! i) as [j|] eqn:E; simpl.
  - apply lookup_seq in E as [-> Hi]. rewrite py_slice_take. simpl.
    split; [intros [= <-]; done | intros [_ ->]; done].
  - split; [done |]. intros [Hi _].
    rewrite (lookup_seq_lt 0 _ i Hi) in E. done.
Qed.

Lemma concat_slices size l k :
  concat (map (fun i => py_slice l i (i + size)) (map (fun j => j * size) (seq 0 k)))
  = take (k * size) l.
Proof.
  induction k as [|k IH]; [done |].
  rewrite seq_S, !map_app, concat_app, IH. simpl.
  rewrite app_nil_r, py_slice_take, take_take_drop. f_equal. lia.
Qed.

Lemma div_up_bounds n size :
  0 < size →
  n ≤ (n + size - 1) / size * size ∧ ((n + size - 1) / size - 1) * size < n + size.
Proof.
  intros Hs. pose proof (Nat.div_mod_eq (n + size - 1) size) as E.
  pose proof (Nat.mod_upper_bound (n + size - 1) size ltac:(lia)) as Hr.
  set (q := (n + size - 1) / size) in *. set (r := (n + size - 1) mod size) in *.
  nia.
Qed.

Lemma batches_concat size l : 0 < size → concat (batches size l) = l.
Proof.
  intros Hs. unfold batches, py_range. rewrite concat_slices.
  apply take_ge. pose proof (div_up_bounds (length l) size Hs). lia.
Qed.



End Batches.


(** ** Properties and stores: basic facts *)

Lemma get_prop_remove k k' p :
  get_prop k (remove_prop k' p) = if String.eqb k' k then VNone else get_prop k p.
Proof.
  unfold get_prop. induction p as [|[k0 v0] p IH]; simpl.
  - by destruct (String.eqb k' k).
  - destruct (String.eqb k0 k') eqn:E0.
    + apply String.eqb_eq in E0 as ->. rewrite IH.
      by destruct (String.eqb k' k).
    + simpl. destruct (String.eqb k0 k) eqn:E1; [|done].
      apply String.eqb_eq in E1 as ->. by rewrite String.eqb_sym, E0.
Qed.

Lemma get_prop_put k k' v p :
  get_prop k (put_prop k' v p) = if String.eqb k' k then v else get_prop k p.
Proof.
  unfold get_prop. induction p as [|[k0 v0] p IH]; simpl.
  - by destruct (String.eqb k' k).
  - destruct (String.eqb k0 k') eqn:E0; simpl.
    + apply String.eqb_eq in E0 as ->. by destruct (String.eqb k' k).
    + destruct (String.eqb k0 k) eqn:E1; [|done].
      apply String.eqb_eq in E1 as ->. by rewrite String.eqb_sym, E0.
Qed.

Lemma get_prop_set k k' v p :
  get_prop k (set_prop k' v p) = if String.eqb k' k then v else get_prop k p.
Proof.
  destruct v; simpl; try apply get_prop_put. apply get_prop_remove.
Qed.

Lemma with_nodes_nodes s ns : nodes (with_nodes s ns) = ns.
Proof. done. Qed.

Lemma with_nodes_twice s ns ns' : with_nodes (with_nodes s ns) ns' = with_nodes s ns'.
Proof. done. Qed.

Lemma with_nodes_id s : with_nodes s (nodes s) = s.
Proof. by destruct s. Qed.

Lemma with_rels_id s : with_rels s (rels s) = s.
Proof. by destruct s. Qed.

Lemma find_indices_app {A} (p : A → bool) (l1 l2 : list A) i :
  find_indices p (l1 ++ l2) i = find_indices p l1 i ++ find_indices p l2 (i + length l1).
Proof.
  revert i. induction l1 as [|x l1 IH]; intros i; simpl.
  - f_equal. lia.
  - rewrite IH. replace (S i + length l1) with (i + S (length l1)) by lia.
    by destruct (p x).
Qed.

Lemma find_indices_bound {A} (p : A → bool) (l : list A) i j :
  j ∈ find_indices p l i → i ≤ j < i + length l.
Proof.
  revert i. induction l as [|x l IH]; intros i; simpl.
  - by intros ?%elem_of_nil.
  - destruct (p x).
    + intros [->|H]%elem_of_cons; [lia |]. apply IH in H. lia.
    + intros H. apply IH in H. lia.
Qed.

Lemma find_indices_lookup {A} (p : A → bool) (l : list A) i j :
  j ∈ find_indices p l i ↔ ∃ x, i ≤ j ∧ l !! (j - i) = Some x ∧ p x = true.
Proof.
  revert i. induction l as [|x l IH]; intros i; simpl.
  - split; [by intros ?%elem_of_nil | by intros (? & ? & ? & ?)].
  - assert (j ∈ find_indices p l (S i) ↔
            ∃ y, S i ≤ j ∧ l !! (j - S i) = Some y ∧ p y = true) as IH' by apply IH.
    destruct (p x) eqn:Px.
    + rewrite elem_of_cons, IH'. split.
      * intros [->|(y & ? & ? & ?)].
        -- exists x. rewrite Nat.sub_diag. done.
        -- exists y. replace (j - i) with (S (j - S i)) by lia.
           split; [lia | done].
      * intros (y & Hle & Hy & Py).
        destruct (decide (j = i)) as [->|Hne]; [by left |]. right.
        exists y. replace (j - i) with (S (j - S i)) in Hy by lia. split; [lia | done].
    + rewrite IH'. split.
      * intros (y & ? & ? & ?). exists y.
        replace (j - i) with (S (j - S i)) by lia. split; [lia | done].
      * intros (y & Hle & Hy & Py).
        destruct (decide (j = i)) as [->|Hne].
        -- rewrite Nat.sub_diag in Hy. simpl in Hy. congruence.
        -- exists y. replace (j - i) with (S (j - S i)) in Hy by lia. split; [lia | done].
Qed.

Lemma match_nodes_lookup l k v s j :
  j ∈ match_nodes l k v s ↔ ∃ n, nodes s !! j = Some n ∧ node_matches l k v n = true.
Proof.
  unfold match_nodes. rewrite find_indices_lookup. rewrite Nat.sub_0_r.
  split; [intros (n & _ & ? & ?) | intros (n & ? & ?)]; exists n; auto with lia.
Qed.

Lemma match_nodes_snoc l k v s n :
  match_nodes l k v (with_nodes s (nodes s ++ [n]))
  = match_nodes l k v s ++ (if node_matches l k v n then [length (nodes s)] else []).
Proof.
  unfold match_nodes. simpl. rewrite find_indices_app. simpl.
  by destruct (node_matches l k v n).
Qed.

Lemma cy_eqb_int z z' : cy_eqb (VInt z) (VInt z') = bool_decide (z = z').
Proof.
  simpl. destruct (Z.eqb_spec z z'); [by rewrite bool_decide_eq_true_2 | by rewrite bool_decide_eq_false_2].
Qed.

Lemma py_eqb_int z z' : py_eqb (VInt z) (VInt z') = bool_decide (z = z').
Proof.
  unfold py_eqb. simpl.
  destruct (Z.eqb_spec z z'); [by rewrite bool_decide_eq_true_2 | by rewrite bool_decide_eq_false_2].
Qed.

Lemma py_key_eqb_int z z' : py_key_eqb (VInt z) (VInt z') = bool_decide (z = z').
Proof. unfold py_key_eqb. cbn [is_nan andb orb]. apply py_eqb_int. Qed.

(** ** Deduplication of nutrients *)

Lemma dict_set_emb z v d : dict_set (VInt z) v (emb d) = emb (zset z v d).
Proof.
  induction d as [|[z' v'] d IH]; simpl; [done |].
  rewrite py_key_eqb_int. case_bool_decide; simpl; [done |]. by rewrite IH.
Qed.

Lemma dict_find_emb z d : dict_find (VInt z) (emb d) = (list_to_map d : gmap Z value) !! z.
Proof.
  induction d as [|[z' v'] d IH]; simpl; [done |].
  rewrite py_key_eqb_int. case_bool_decide as E.
  - subst. by rewrite lookup_insert_eq.
  - by rewrite lookup_insert_ne.
Qed.

Lemma zset_to_map z v d :
  (list_to_map (zset z v d) : gmap Z value) = <[z := v]> (list_to_map d).
Proof.
  induction d as [|[z' v'] d IH]; simpl; [done |].
  case_bool_decide as E; simpl.
  - subst. by rewrite insert_insert_eq.
  - rewrite IH. by apply insert_insert_ne.
Qed.

Lemma zset_keys z v d :
  (zset z v d).*1 = if bool_decide (z ∈ d.*1) then d.*1 else d.*1 ++ [z].
Proof.
  induction d as [|[z' v'] d IH]; [done |].
  change (zset z v ((z', v') :: d))
    with (if bool_decide (z' = z) then (z', v) :: d else (z', v') :: zset z v d).
  destruct (decide (z' = z)) as [->|Hne].
  - rewrite bool_decide_eq_true_2 by done.
    rewrite bool_decide_eq_true_2; [done | simpl; by left].
  - rewrite bool_decide_eq_false_2 by done.
    change (((z', v') :: zset z v d).*1) with (z' :: (zset z v d).*1).
    rewrite IH. change (((z', v') :: d).*1) with (z' :: d.*1).
    destruct (decide (z ∈ d.*1)) as [Hin|Hnin].
    + rewrite !bool_decide_eq_true_2; [done | by right | done].
    + rewrite !bool_decide_eq_false_2; [done | | done].
      intros [?|?]%elem_of_cons; congruence.
Qed.

Lemma zset_NoDup z v d : NoDup d.*1 → NoDup (zset z v d).*1.
Proof.
  intros H. rewrite zset_keys. case_bool_decide as E; [done |].
  apply NoDup_app. split_and!; [done | | apply NoDup_singleton].
  intros x Hx ->%list_elem_of_singleton. done.
Qed.

Lemma dedup_NoDup d refs : NoDup d.*1 → NoDup (dedup d refs).*1.
Proof.
  revert d. induction refs as [|[z v] refs IH]; intros d H; simpl; [done |].
  apply IH. by apply zset_NoDup.
Qed.

Lemma dedup_to_map d refs :
  (list_to_map (dedup d refs) : gmap Z value)
  = foldl (fun m p => <[p.1 := p.2]> m) (list_to_map d) refs.
Proof.
  revert d. induction refs as [|[z v] refs IH]; intros d; simpl; [done |].
  by rewrite IH, zset_to_map.
Qed.

Lemma foldl_insert_dom (m : gmap Z value) refs :
  dom (foldl (fun m p => <[p.1 := p.2]> m) m refs) = dom m ∪ list_to_set refs.*1.
Proof.
  revert m. induction refs as [|[z v] refs IH]; intros m; simpl.
  - set_solver.
  - rewrite IH, dom_insert_L. set_solver.
Qed.

Lemma foldl_insert_last (m : gmap Z value) pre z v post :
  z ∉ post.*1 →
  foldl (fun m p => <[p.1 := p.2]> m) m (pre ++ (z, v) :: post) !! z = Some v.
Proof.
  intros Hz. rewrite foldl_app. simpl.
  generalize (foldl (fun m p => <[p.1 := p.2]> m) m pre). intros m'.
  assert (<[z := v]> m' !! z = Some v) as H by apply lookup_insert_eq.
  revert H. generalize (<[z := v]> m'). clear m'.
  induction post as [|[z' v'] post IH]; intros m' H; simpl; [done |].
  apply IH.
  - intros ?. apply Hz. simpl. by right.
  - rewrite lookup_insert_ne; [done |]. intros ->. apply Hz. simpl. by left.
Qed.

Lemma dedup_length refs :
  length (dedup [] refs) = size (list_to_set refs.*1 : gset Z).
Proof.
  assert (NoDup (dedup [] refs).*1) as ND by (apply dedup_NoDup; constructor).
  transitivity (size (list_to_map (dedup [] refs) : gmap Z value)).
  - rewrite <- (length_map_to_list (list_to_map (dedup [] refs) : gmap Z value)).
    symmetry. apply Permutation_length. by apply map_to_list_to_map.
  - rewrite <- size_dom. rewrite dedup_to_map, foldl_insert_dom.
    simpl. f_equal. set_solver.
Qed.

(** The collecting loop of [create_nutrients] on a well-shaped input. *)

Lemma collect_fn_ref d fn z n :
  entry_ref fn = Some (z, n) →
  collect_fn (emb d) fn = Ok (emb (zset z n d)).
Proof.
  unfold entry_ref, collect_fn. destruct fn as [| | | | | |fd]; try done.
  simpl. destruct (dict_lookup "nutrient" fd) as [[| | | | | |nd]|]; try done.
  simpl. destruct (dict_lookup "id" nd) as [[| |z'| | | |]|]; try done.
  intros [= <- <-]. simpl. unfold py_setitem. simpl. by rewrite dict_set_emb.
Qed.

Lemma collect_fns_refs d fns refs :
  mapM entry_ref fns = Some refs →
  foldM collect_fn fns (emb d) = Ok (emb (dedup d refs)).
Proof.
  revert d refs. induction fns as [|fn fns IH]; intros d refs; simpl.
  - by intros [= <-].
  - destruct (entry_ref fn) as [[z n]|] eqn:E; [|done]. simpl.
    destruct (mapM entry_ref fns) as [refs'|] eqn:E'; [|done]. simpl.
    intros [= <-]. rewrite (collect_fn_ref _ _ _ _ E). simpl. by apply IH.
Qed.

Lemma collect_food_refs d food refs :
  food_refs food = Some refs →
  collect_food (emb d) food = Ok (emb (dedup d refs)).
Proof.
  unfold food_refs, food_entries, collect_food.
  destruct food as [| | | | | |fd]; try done. simpl.
  destruct (dict_lookup "foodNutrients" fd) as [[| | | | |l|]|]; try done; simpl.
  - apply collect_fns_refs.
  - by intros [= <-].
Qed.

Lemma collect_foods_refs d foods refss :
  mapM food_refs foods = Some refss →
  foldM collect_food foods (emb d) = Ok (emb (dedup d (concat refss))).
Proof.
  revert d refss. induction foods as [|food foods IH]; intros d refss; simpl.
  - by intros [= <-].
  - destruct (food_refs food) as [refs|] eqn:E; [|done]. simpl.
    destruct (mapM food_refs foods) as [refss'|] eqn:E'; [|done]. simpl.
    intros [= <-]. rewrite (collect_food_refs _ _ _ E). simpl.
    rewrite (IH _ _ eq_refl). unfold dedup. by rewrite foldl_app.
Qed.

Lemma collect_nutrients_refs foods refs :
  nutrient_refs foods = Some refs →
  collect_nutrients foods = Ok (emb (dedup [] refs)).
Proof.
  unfold nutrient_refs, collect_nutrients.
  destruct (mapM food_refs foods) as [refss|] eqn:E; [|done]. simpl.
  intros [= <-]. by apply (collect_foods_refs []).
Qed.

(** ** Writes to the store *)

Lemma bind_Ok {A B} (m : result A) (k : A → result B) b :
  bind m k = Ok b → ∃ a, m = Ok a ∧ k a = Ok b.
Proof. destruct m as [a|e]; simpl; [eauto | done]. Qed.

Lemma create_node_Ok l k v s i s' :
  create_node l k v s = Ok (i, s') →
  i = length (nodes s)
  ∧ s' = with_nodes s (nodes s ++ [Node l (set_prop k v [])])
  ∧ violates l k v (length (nodes s)) s = false.
Proof.
  unfold create_node. destruct (storable v); simpl; [|done].
  destruct (violates l k v (length (nodes s)) s); [done |].
  by intros [= <- <-].
Qed.

Lemma create_node_unmatched l k v s :
  storable v = true → match_nodes l k v s = [] →
  create_node l k v s
  = Ok (length (nodes s), with_nodes s (nodes s ++ [Node l (set_prop k v [])])).
Proof.
  intros Hs Hm. unfold create_node, violates. rewrite Hs, Hm. simpl.
  by rewrite andb_false_r.
Qed.

Lemma set_node_prop_Ok i k v s s' n :
  set_node_prop i k v s = Ok s' → nodes s !! i = Some n →
  s' = with_nodes s (<[i := Node (nlabel n) (set_prop k v (nprops n))]> (nodes s)).
Proof.
  unfold set_node_prop. intros H Hn. rewrite Hn in H.
  destruct (storable v); simpl in H; [|done].
  destruct (violates (nlabel n) k v i s); [done |]. by injection H as <-.
Qed.

Lemma set_node_prop_last s ns n k v s' :
  set_node_prop (length ns) k v (with_nodes s (ns ++ [n])) = Ok s' →
  s' = with_nodes s (ns ++ [Node (nlabel n) (set_prop k v (nprops n))]).
Proof.
  intros H. eapply set_node_prop_Ok in H.
  2:{ rewrite with_nodes_nodes. by apply list_lookup_middle. }
  rewrite H, with_nodes_twice, with_nodes_nodes. f_equal.
  replace (length ns) with (length ns + 0) by lia. by rewrite insert_app_r.
Qed.

Ltac set_last H :=
  repeat match type of H with
  | bind (set_node_prop (length ?ns) ?k ?v (with_nodes ?s (?ns ++ [?n]))) _ = Ok _ =>
      let E := fresh "E" in let sx := fresh "sx" in
      apply bind_Ok in H as (sx & E & H);
      apply set_node_prop_last in E; subst sx; cbn [nlabel nprops] in H
  end.

Lemma merge_nutrient_spec nd z s rows s' :
  get_prop "id" nd = VInt z →
  merge_nutrient (VDict nd) s = Ok (rows, s') →
  s' = if bool_decide (match_nodes Nutrient "id" (VInt z) s = [])
       then with_nodes s (nodes s ++ [nutrient_node (VDict nd)])
       else s.
Proof.
  intros Hid H. unfold merge_nutrient in H. cbn [cy_access bind] in H.
  rewrite Hid in H. unfold merge_node in H.
  destruct (match_nodes Nutrient "id" (VInt z) s) as [|m ms] eqn:Hm.
  - rewrite bool_decide_eq_true_2 by done.
    rewrite create_node_unmatched in H by done.
    cbn [bind set_node_props] in H.
    apply bind_Ok in H as ([ns s2] & H1 & H). injection H as _ <-.
    apply bind_Ok in H1 as (s3 & H1 & H2). injection H2 as _ <-.
    set_last H1. injection H1 as <-.
    unfold nutrient_node, cy_field. cbn [cy_access]. by rewrite Hid.
  - rewrite bool_decide_eq_false_2 by done.
    cbn [bind] in H. by injection H as _ <-.
Qed.

(** ** The nutrient statement *)

Lemma clause_app {R R'} (step : R → store → result (list R' * store)) l1 l2 s :
  clause step (l1 ++ l2) s
  = let* (o1, s1) := clause step l1 s in
    let* (o2, s2) := clause step l2 s1 in
    Ok (o1 ++ o2, s2).
Proof.
  revert s. induction l1 as [|r l1 IH]; intros s; simpl.
  - destruct (clause step l2 s) as [[o2 s2]|]; done.
  - destruct (step r s) as [[o s1]|]; simpl; [|done].
    rewrite IH. destruct (clause step l1 s1) as [[o1 s1']|]; simpl; [|done].
    destruct (clause step l2 s1') as [[o2 s2]|]; simpl; [|done].
    by rewrite app_assoc.
Qed.

Lemma filter_ext_Forall {A} (P Q : A → Prop) `{∀ x, Decision (P x)} `{∀ x, Decision (Q x)}
    (l : list A) :
  Forall (fun x => P x ↔ Q x) l → filter P l = filter Q l.
Proof.
  induction 1 as [|x l Hx Hl IH]; [done |].
  rewrite !filter_cons, IH. destruct (decide (P x)), (decide (Q x)); tauto || done.
Qed.

Lemma nutrient_node_id v : get_prop "id" (nprops (nutrient_node v)) = cy_field v "id".
Proof. unfold nutrient_node. cbn [nprops]. by rewrite !get_prop_set. Qed.

Lemma entry_ref_ok fn p : entry_ref fn = Some p → ref_ok p.
Proof.
  unfold entry_ref. destruct fn as [| | | | | |fd]; try done.
  destruct (dict_lookup "nutrient" fd) as [[| | | | | |nd]|]; try done.
  destruct (dict_lookup "id" nd) as [[| |z'| | | |]|] eqn:E; try done.
  intros [= <-]. exists nd. split; [done |]. unfold get_prop. by rewrite E.
Qed.

Lemma mapM_entry_ref_ok fns refs : mapM entry_ref fns = Some refs → Forall ref_ok refs.
Proof.
  intros H%mapM_Some. induction H as [|fn p fns refs Hp _ IH]; constructor; [|done].
  by eapply entry_ref_ok.
Qed.

Lemma nutrient_refs_ok foods refs : nutrient_refs foods = Some refs → Forall ref_ok refs.
Proof.
  unfold nutrient_refs. destruct (mapM food_refs foods) as [refss|] eqn:E; [|done].
  simpl. intros [= <-]. apply mapM_Some in E. apply Forall_concat.
  induction E as [|food refs foods refss Hf _ IH]; constructor; [|done].
  unfold food_refs in Hf. destruct (food_entries food) as [fns|]; [|done].
  simpl in Hf. by eapply mapM_entry_ref_ok.
Qed.

Lemma zset_ok z v d : ref_ok (z, v) → Forall ref_ok d → Forall ref_ok (zset z v d).
Proof.
  intros Hv. induction 1 as [|[z' v'] d Hp Hd IH]; simpl.
  - by constructor.
  - case_bool_decide as E; constructor; try done. by subst.
Qed.

Lemma dedup_ok d refs : Forall ref_ok d → Forall ref_ok refs → Forall ref_ok (dedup d refs).
Proof.
  intros Hd Hr. revert d Hd. induction Hr as [|[z v] refs Hp _ IH]; intros d Hd; [done |].
  simpl. apply IH. by apply zset_ok.
Qed.

Lemma ref_ok_field p : ref_ok p → cy_field p.2 "id" = VInt p.1.
Proof. intros (nd & -> & Hid). done. Qed.

Lemma clause_merge_nutrient (zd : list (Z * value)) s rows s' :
  NoDup zd.*1 → Forall ref_ok zd →
  clause merge_nutrient zd.*2 s = Ok (rows, s') →
  s' = with_nodes s (nodes s ++ map nutrient_node (filter (unmatched s) zd.*2)).
Proof.
  intros ND Hok. revert s rows ND. induction Hok as [|[z v] zd Hp Hzd IH]; intros s rows ND H.
  - simpl in H. injection H as _ <-. simpl. by rewrite app_nil_r, with_nodes_id.
  - rewrite fmap_cons in ND. apply NoDup_cons in ND as [Hz ND].
    change (((z, v) :: zd).*2) with (v :: zd.*2) in *. cbn [clause] in H.
    apply bind_Ok in H as ([o s1] & H1 & H).
    apply bind_Ok in H as ([os s2] & H2 & H). injection H as _ <-.
    destruct Hp as (nd & Hv & Hid). simpl in Hv, Hid. subst v.
    apply (merge_nutrient_spec _ z) in H1; [|done].
    apply IH in H2; [|done]. rewrite filter_cons.
    assert (unmatched s (VDict nd) ↔ match_nodes Nutrient "id" (VInt z) s = []) as Hu.
    { unfold unmatched, cy_field. cbn [cy_access]. by rewrite Hid. }
    case_bool_decide as Hm.
    + rewrite decide_True by (by apply Hu). subst s1.
      rewrite H2, with_nodes_twice, with_nodes_nodes. f_equal.
      rewrite <- app_assoc. f_equal. simpl. f_equal. f_equal.
      apply filter_ext_Forall. apply Forall_forall. intros v' Hv'.
      apply list_elem_of_fmap in Hv' as ([z' v''] & -> & Hin).
      rewrite Forall_forall in Hzd. specialize (Hzd _ Hin) as Hok'.
      apply ref_ok_field in Hok'. simpl in Hok'. simpl.
      unfold unmatched. rewrite Hok', match_nodes_snoc.
      assert (node_matches Nutrient "id" (VInt z') (nutrient_node (VDict nd)) = false)
        as ->; [| by rewrite app_nil_r].
      unfold node_matches. rewrite nutrient_node_id. unfold cy_field.
      cbn [cy_access]. rewrite Hid, cy_eqb_int.
      rewrite (bool_decide_eq_false_2 (z = z')), andb_false_r; [done |].
      intros ->. apply Hz. apply list_elem_of_fmap. by exists (z', v'').
    + rewrite decide_False by (by rewrite Hu). by subst s1.
Qed.

Lemma run_all_nutrients bs s s' :
  run_all (map nutrients_query bs) s = Done s' →
  ∃ rows, clause merge_nutrient (concat bs) s = Ok (rows, s').
Proof.
  revert s. induction bs as [|b bs IH]; intros s; simpl.
  - intros [= <-]. by exists [].
  - unfold session_run, nutrients_query.
    destruct (clause merge_nutrient b s) as [[o s1]|] eqn:E; simpl; [|done].
    intros (rows & Hr)%IH. rewrite clause_app, E. simpl. rewrite Hr. simpl. eauto.
Qed.

Lemma create_nutrients_Done foods refs s s' :
  nutrient_refs foods = Some refs →
  create_nutrients foods s = Done s' →
  s' = with_nodes s
         (nodes s ++ map nutrient_node (filter (unmatched s) (dedup [] refs).*2)).
Proof.
  intros Hr H. unfold create_nutrients in H.
  rewrite (collect_nutrients_refs _ _ Hr) in H.
  apply run_all_nutrients in H as (rows & H).
  rewrite batches_concat in H by (unfold NUTRIENT_BATCH_SIZE; lia).
  assert (dict_values (emb (dedup [] refs)) = (dedup [] refs).*2) as Ev.
  { unfold dict_values, emb. rewrite <- list_fmap_compose. done. }
  rewrite Ev in H. eapply clause_merge_nutrient; [| |exact H].
  - apply dedup_NoDup. constructor.
  - apply dedup_ok; [constructor |]. by eapply nutrient_refs_ok.
Qed.

Lemma count_nodes_zero l k v s : count_nodes l s = 0 → match_nodes l k v s = [].
Proof.
  unfold count_nodes. intros H0.
  destruct (match_nodes l k v s) as [|j js] eqn:E; [done |]. exfalso.
  assert (j ∈ match_nodes l k v s) as Hj by (rewrite E; by left).
  apply match_nodes_lookup in Hj as (n & Hn & Hm).
  unfold node_matches in Hm. apply andb_true_iff in Hm as [Hl _].
  apply bool_decide_eq_true in Hl.
  assert (n ∈ filter (fun n => nlabel n = l) (nodes s)) as Hin.
  { apply list_elem_of_filter. split; [done |]. by eapply list_elem_of_lookup_2. }
  destruct (filter (fun n => nlabel n = l) (nodes s)); [by apply elem_of_nil in Hin | done].
Qed.

Lemma filter_nutrient_nodes (vs : list value) :
  filter (fun n => nlabel n = Nutrient) (map nutrient_node vs) = map nutrient_node vs.
Proof.
  induction vs as [|v vs IH]; [done |]. simpl. rewrite filter_cons, IH.
  by rewrite decide_True.
Qed.

Lemma filter_all {A} (P : A → Prop) `{∀ x, Decision (P x)} (l : list A) :
  Forall P l → filter P l = l.
Proof.
  induction 1 as [|x l Hx _ IH]; [done |]. by rewrite filter_cons, decide_True, IH.
Qed.

Lemma dedup_keys refs z : z ∈ (dedup [] refs).*1 ↔ z ∈ refs.*1.
Proof.
  pose proof (dedup_to_map [] refs) as E. apply (f_equal dom) in E.
  rewrite foldl_insert_dom, dom_list_to_map_L in E.
  rewrite <- (elem_of_list_to_set (C := gset Z)), E. set_solver.
Qed.

(** C1. Identifiers repeated across foods collapse: the loader merges one
    nutrient per distinct identifier of the input, and on a store without
    Nutrient nodes it leaves exactly one node per distinct identifier. *)
Theorem distinct_nutrient_nodes (foods : list value) (refs : list (Z * value)) :
  nutrient_refs foods = Some refs →
  (∃ nutrients, collect_nutrients foods = Ok nutrients
     ∧ length (dict_values nutrients) = size (list_to_set refs.*1 : gset Z))
  ∧ ∀ s s', count_nodes Nutrient s = 0 →
      create_nutrients foods s = Done s' →
      count_nodes Nutrient s' = size (list_to_set refs.*1 : gset Z)
      ∧ ∃ ids, NoDup ids
          ∧ (∀ z, z ∈ ids ↔ z ∈ refs.*1)
          ∧ map (fun n => get_prop "id" (nprops n))
                (filter (fun n => nlabel n = Nutrient) (nodes s'))
            = map VInt ids.
Proof.
  intros Hr. split.
  - exists (emb (dedup [] refs)). split; [by apply collect_nutrients_refs |].
    unfold dict_values, emb. by rewrite !length_map, dedup_length.
  - intros s s' H0 H. apply (create_nutrients_Done _ _ _ _ Hr) in H.
    assert (filter (unmatched s) (dedup [] refs).*2 = (dedup [] refs).*2) as Ef.
    { apply filter_all. apply Forall_forall. intros v _. by apply count_nodes_zero. }
    rewrite Ef in H.
    assert (filter (fun n => nlabel n = Nutrient) (nodes s) = []) as E0.
    { unfold count_nodes in H0. by apply length_zero_iff_nil. }
    assert (filter (fun n => nlabel n = Nutrient) (nodes s')
            = map nutrient_node (dedup [] refs).*2) as En.
    { subst s'. rewrite with_nodes_nodes, filter_app, E0. apply filter_nutrient_nodes. }
    split.
    + unfold count_nodes. rewrite En, !length_map. apply dedup_length.
    + exists (dedup [] refs).*1. split_and!.
      * apply dedup_NoDup. constructor.
      * apply dedup_keys.
      * rewrite En, map_map.
        assert (Forall ref_ok (dedup [] refs)) as Hok.
        { apply dedup_ok; [constructor |]. by eapply nutrient_refs_ok. }
        clear -Hok. induction Hok as [|p d Hp _ IH]; [done |].
        rewrite !fmap_cons. cbn [map].
        rewrite nutrient_node_id, (ref_ok_field _ Hp). f_equal. apply IH.
Qed.

Lemma find_indices_none {A} (p : A → bool) (l : list A) i :
  Forall (fun y => p y = false) l → find_indices p l i = [].
Proof.
  intros H. revert i. induction H as [|y l Hy _ IH]; intros i; simpl; [done |].
  by rewrite Hy.
Qed.

Lemma find_indices_unique {A} (p : A → bool) (l1 l2 : list A) x i :
  Forall (fun y => p y = false) l1 → p x = true → Forall (fun y => p y = false) l2 →
  find_indices p (l1 ++ x :: l2) i = [i + length l1].
Proof.
  intros H1 Hx H2. rewrite find_indices_app, (find_indices_none _ _ _ H1). simpl.
  by rewrite Hx, (find_indices_none _ _ _ H2).
Qed.

Lemma node_matches_nutrient p z :
  ref_ok p → node_matches Nutrient "id" (VInt z) (nutrient_node p.2) = bool_decide (p.1 = z).
Proof.
  intros Hp. unfold node_matches. rewrite nutrient_node_id, (ref_ok_field _ Hp).
  by rewrite cy_eqb_int.
Qed.

Lemma nutrient_nodes_other (d : list (Z * value)) z (P : value → Prop)
    `{∀ v, Decision (P v)} :
  Forall ref_ok d → z ∉ d.*1 →
  Forall (fun n => node_matches Nutrient "id" (VInt z) n = false)
         (map nutrient_node (filter P d.*2)).
Proof.
  intros Hok Hz. apply Forall_forall. intros n Hn.
  apply list_elem_of_In, in_map_iff in Hn as (v & <- & Hv).
  apply list_elem_of_In, list_elem_of_filter in Hv as [_ Hv].
  apply list_elem_of_fmap in Hv as (p & -> & Hp).
  rewrite Forall_forall in Hok. rewrite node_matches_nutrient by auto.
  apply bool_decide_eq_false_2. intros <-. apply Hz.
  apply list_elem_of_fmap. by exists p.
Qed.

Lemma dedup_last pre z v post :
  z ∉ post.*1 →
  (list_to_map (dedup [] (pre ++ (z, v) :: post)) : gmap Z value) !! z = Some v.
Proof. intros Hz. rewrite dedup_to_map. by apply foldl_insert_last. Qed.

(** C4 (as the code has it). When a nutrient identifier occurs several
    times in the input, the value kept for it is that of its LAST occurrence
    in input order: the dict [nutrients] maps the identifier to the last
    nutrient dict that carries it, and the node created for an identifier
    that the store did not hold carries the name, number, unit and rank of
    that last occurrence. *)
Theorem nutrient_last_occurrence (foods : list value) pre z nd post :
  nutrient_refs foods = Some (pre ++ (z, VDict nd) :: post) →
  z ∉ post.*1 →
  (∃ nutrients, collect_nutrients foods = Ok nutrients
     ∧ dict_find (VInt z) nutrients = Some (VDict nd))
  ∧ ∀ s s', match_nodes Nutrient "id" (VInt z) s = [] →
      create_nutrients foods s = Done s' →
      ∃ i n, match_nodes Nutrient "id" (VInt z) s' = [i]
        ∧ nodes s' !! i = Some n
        ∧ nlabel n = Nutrient
        ∧ get_prop "name" (nprops n) = get_prop "name" nd
        ∧ get_prop "number" (nprops n) = get_prop "number" nd
        ∧ get_prop "unitName" (nprops n) = get_prop "unitName" nd
        ∧ get_prop "rank" (nprops n) = get_prop "rank" nd.
Proof.
  intros Hr Hz.
  pose proof (dedup_last pre z (VDict nd) post Hz) as Hl.
  set (refs := pre ++ (z, VDict nd) :: post) in *.
  split.
  - exists (emb (dedup [] refs)). split; [by apply collect_nutrients_refs |].
    by rewrite dict_find_emb.
  - intros s s' Hs H. apply (create_nutrients_Done _ _ _ _ Hr) in H.
    assert (NoDup (dedup [] refs).*1) as ND by (apply dedup_NoDup; constructor).
    assert (Forall ref_ok (dedup [] refs)) as Hok.
    { apply dedup_ok; [constructor |]. by eapply nutrient_refs_ok. }
    apply elem_of_list_to_map_2 in Hl.
    apply list_elem_of_split in Hl as (d1 & d2 & Ed).
    rewrite Ed in H, ND, Hok.
    rewrite fmap_app, fmap_cons in ND. apply NoDup_app in ND as (ND1 & Hd1 & ND2).
    apply NoDup_cons in ND2 as [Hd2 _].
    apply Forall_app in Hok as [Hok1 Hok2]. apply Forall_cons in Hok2 as [Hok0 Hok2].
    assert (z ∉ d1.*1) as Hz1.
    { intros Hin. apply (Hd1 _ Hin). by left. }
    rewrite fmap_app, fmap_cons, filter_app, filter_cons in H. cbn [snd] in H.
    rewrite decide_True in H by (unfold unmatched, cy_field; cbn [cy_access];
      destruct Hok0 as (nd' & [= <-] & ->); done).
    rewrite map_app in H. cbn [map] in H.
    set (A := map nutrient_node (filter (unmatched s) d1.*2)) in *.
    set (B := map nutrient_node (filter (unmatched s) d2.*2)) in *.
    exists (length (nodes s) + length A), (nutrient_node (VDict nd)).
    subst s'. split_and!.
    + unfold match_nodes in *. rewrite with_nodes_nodes, find_indices_app, Hs. simpl.
      apply find_indices_unique.
      * by apply nutrient_nodes_other.
      * by rewrite (node_matches_nutrient (z, VDict nd)), bool_decide_eq_true_2.
      * by apply nutrient_nodes_other.
    + rewrite with_nodes_nodes, app_assoc. apply list_lookup_middle.
      by rewrite length_app.
    + done.
    + unfold nutrient_node, cy_field. cbn [nprops cy_access]. by rewrite !get_prop_set.
    + unfold nutrient_node, cy_field. cbn [nprops cy_access]. by rewrite !get_prop_set.
    + unfold nutrient_node, cy_field. cbn [nprops cy_access]. by rewrite !get_prop_set.
    + unfold nutrient_node, cy_field. cbn [nprops cy_access]. by rewrite !get_prop_set.
Qed.

(** ** The upsert of nutrients *)

Lemma zset_elem z v d p : p ∈ zset z v d → p = (z, v) ∨ p ∈ d.
Proof.
  induction d as [|[z' v'] d IH]; simpl.
  - intros ->%list_elem_of_singleton. by left.
  - case_bool_decide as E.
    + subst z'. intros [->|?]%elem_of_cons; [by left |]. right. by right.
    + intros [->|H]%elem_of_cons; [right; by left |].
      destruct (IH H) as [->|?]; [by left |]. right. by right.
Qed.

Lemma dedup_elem d refs p : p ∈ dedup d refs → p ∈ d ∨ p ∈ refs.
Proof.
  revert d. induction refs as [|[z v] refs IH]; intros d; simpl; [by left |].
  intros [[->|?]%zset_elem|?]%IH.
  - right. by left.
  - by left.
  - right. by right.
Qed.

Lemma merge_nutrient_matched v s :
  matched s v → ∃ rows, merge_nutrient v s = Ok (rows, s).
Proof.
  intros (nd & z & -> & Hid & Hm). unfold merge_nutrient. cbn [cy_access bind].
  rewrite Hid. unfold merge_node.
  destruct (match_nodes Nutrient "id" (VInt z) s) as [|m ms]; [done |].
  cbn [bind]. eauto.
Qed.

Lemma clause_merge_matched vs s :
  Forall (matched s) vs → ∃ rows, clause merge_nutrient vs s = Ok (rows, s).
Proof.
  induction 1 as [|v vs Hv _ (rows & IH)]; simpl; [eauto |].
  destruct (merge_nutrient_matched _ _ Hv) as (o & ->). simpl. rewrite IH. simpl. eauto.
Qed.

Lemma run_all_matched bs s :
  Forall (Forall (matched s)) bs → run_all (map nutrients_query bs) s = Done s.
Proof.
  induction 1 as [|b bs Hb _ IH]; simpl; [done |].
  unfold session_run, nutrients_query.
  destruct (clause_merge_matched _ _ Hb) as (rows & ->). simpl. exact IH.
Qed.

Lemma match_nodes_grow l k v s ns :
  match_nodes l k v s ≠ [] → match_nodes l k v (with_nodes s (nodes s ++ ns)) ≠ [].
Proof.
  unfold match_nodes. rewrite with_nodes_nodes, find_indices_app.
  destruct (find_indices (node_matches l k v) (nodes s) 0); done.
Qed.

Lemma match_nodes_new l k v s ns n :
  n ∈ ns → node_matches l k v n = true →
  match_nodes l k v (with_nodes s (nodes s ++ ns)) ≠ [].
Proof.
  intros Hn Hm. apply list_elem_of_lookup_1 in Hn as (j & Hj).
  assert (length (nodes s) + j ∈ match_nodes l k v (with_nodes s (nodes s ++ ns))) as Hin.
  { apply match_nodes_lookup. exists n. split; [|done].
    rewrite with_nodes_nodes, lookup_app_r by lia.
    by replace (length (nodes s) + j - length (nodes s)) with j by lia. }
  intros E. rewrite E in Hin. by apply elem_of_nil in Hin.
Qed.

Lemma created_ids (d : list (Z * value)) (s : store) :
  Forall ref_ok d →
  map (fun n => get_prop "id" (nprops n))
      (map nutrient_node (filter (unmatched s) d.*2))
  = VInt <$> (filter (fun z => match_nodes Nutrient "id" (VInt z) s = []) d.*1).
Proof.
  induction 1 as [|p d Hp _ IH]; [done |].
  rewrite !fmap_cons, !filter_cons.
  assert (unmatched s p.2 ↔ match_nodes Nutrient "id" (VInt p.1) s = []) as Hu.
  { unfold unmatched. by rewrite (ref_ok_field _ Hp). }
  destruct (decide (unmatched s p.2)) as [U|U],
           (decide (match_nodes Nutrient "id" (VInt p.1) s = [])) as [M|M];
    try (exfalso; tauto).
  - cbn [map]. rewrite fmap_cons, nutrient_node_id, (ref_ok_field _ Hp). f_equal. exact IH.
  - exact IH.
Qed.

(** C5. The upsert of nutrients creates exactly what is missing.  When
    [create_nutrients] completes, the nodes present stay as they are; the
    nodes added are Nutrient nodes with pairwise distinct identifiers, one
    for every identifier of the input that matched no node before and none
    for an identifier that matched one, each with the name, number, unit
    and rank of an input nutrient of that identifier; afterwards every
    identifier of the input has a node, and running [create_nutrients]
    again on the same input changes nothing. *)
Theorem nutrient_upsert_idempotent (foods : list value) refs s s1 :
  nutrient_refs foods = Some refs →
  create_nutrients foods s = Done s1 →
  (∃ new, nodes s1 = nodes s ++ new
     ∧ rels s1 = rels s
     ∧ Forall (fun n => nlabel n = Nutrient
                 ∧ ∃ z nd, (z, VDict nd) ∈ refs
                     ∧ match_nodes Nutrient "id" (VInt z) s = []
                     ∧ get_prop "id" (nprops n) = VInt z
                     ∧ get_prop "name" (nprops n) = get_prop "name" nd
                     ∧ get_prop "number" (nprops n) = get_prop "number" nd
                     ∧ get_prop "unitName" (nprops n) = get_prop "unitName" nd
                     ∧ get_prop "rank" (nprops n) = get_prop "rank" nd) new
     ∧ NoDup (map (fun n => get_prop "id" (nprops n)) new)
     ∧ (∀ z, z ∈ refs.*1 → match_nodes Nutrient "id" (VInt z) s = [] →
          ∃ n, n ∈ new ∧ get_prop "id" (nprops n) = VInt z))
  ∧ (∀ z, z ∈ refs.*1 → match_nodes Nutrient "id" (VInt z) s1 ≠ [])
  ∧ create_nutrients foods s1 = Done s1.
Proof.
  intros Hr H. pose proof (create_nutrients_Done _ _ _ _ Hr H) as E.
  assert (Forall ref_ok (dedup [] refs)) as Hok.
  { apply dedup_ok; [constructor |]. by eapply nutrient_refs_ok. }
  assert (NoDup (dedup [] refs).*1) as ND by (apply dedup_NoDup; constructor).
  assert (∀ z nd, (z, VDict nd) ∈ dedup [] refs →
            match_nodes Nutrient "id" (VInt z) s1 ≠ []) as Hpresent.
  { intros z nd Hp. rewrite Forall_forall in Hok. destruct (Hok _ Hp) as (nd' & Hv' & Hid).
    simpl in Hv', Hid. injection Hv' as <-.
    subst s1. destruct (decide (unmatched s (VDict nd))) as [Hu|Hu].
    + apply (match_nodes_new _ _ _ _ _ (nutrient_node (VDict nd))).
      * apply list_elem_of_In, in_map. apply list_elem_of_In, list_elem_of_filter.
        split; [done |]. apply list_elem_of_fmap. by exists (z, VDict nd).
      * rewrite (node_matches_nutrient (z, VDict nd));
          [by apply bool_decide_eq_true_2 | by exists nd].
    + apply match_nodes_grow. unfold unmatched, cy_field in Hu. cbn [cy_access] in Hu.
      by rewrite Hid in Hu. }
  split; [|split].
  - exists (map nutrient_node (filter (unmatched s) (dedup [] refs).*2)).
    split_and!.
    + by subst s1.
    + by subst s1.
    + apply Forall_forall. intros n Hn.
      apply list_elem_of_In, in_map_iff in Hn as (v & <- & Hv).
      apply list_elem_of_In, list_elem_of_filter in Hv as [Hu Hv].
      apply list_elem_of_fmap in Hv as ([z v'] & -> & Hp).
      rewrite Forall_forall in Hok. destruct (Hok _ Hp) as (nd & Hv' & Hid).
      simpl in Hv', Hid. subst v'. split; [done |]. exists z, nd.
      unfold unmatched, cy_field in Hu. cbn [snd cy_access] in Hu. rewrite Hid in Hu.
      split_and!.
      * apply dedup_elem in Hp as [Hp|Hp]; [by apply elem_of_nil in Hp | done].
      * done.
      * by rewrite nutrient_node_id.
      * unfold nutrient_node, cy_field. cbn [snd nprops cy_access]. by rewrite !get_prop_set.
      * unfold nutrient_node, cy_field. cbn [snd nprops cy_access]. by rewrite !get_prop_set.
      * unfold nutrient_node, cy_field. cbn [snd nprops cy_access]. by rewrite !get_prop_set.
      * unfold nutrient_node, cy_field. cbn [snd nprops cy_access]. by rewrite !get_prop_set.
    + rewrite (created_ids _ _ Hok). apply NoDup_fmap_2; [by intros ?? [=] |].
      by apply NoDup_filter.
    + intros z Hz Hm. apply dedup_keys in Hz.
      apply list_elem_of_fmap in Hz as ([z' v] & -> & Hp). simpl in Hm.
      exists (nutrient_node v). split.
      * apply list_elem_of_In, in_map. apply list_elem_of_In, list_elem_of_filter.
        split; [|apply list_elem_of_fmap; by exists (z', v)].
        rewrite Forall_forall in Hok. unfold unmatched.
        pose proof (ref_ok_field (z', v) (Hok _ Hp)) as Hid. simpl in Hid.
        by rewrite Hid.
      * rewrite Forall_forall in Hok.
        pose proof (ref_ok_field (z', v) (Hok _ Hp)) as Hid. simpl in Hid.
        by rewrite nutrient_node_id, Hid.
  - intros z Hz. apply dedup_keys in Hz.
    apply list_elem_of_fmap in Hz as ([z' v] & -> & Hp).
    rewrite Forall_forall in Hok. destruct (Hok _ Hp) as (nd & Hv & _). simpl in Hv.
    subst v. by apply (Hpresent z' nd).
  - unfold create_nutrients. rewrite (collect_nutrients_refs _ _ Hr).
    apply run_all_matched. apply Forall_concat.
    rewrite batches_concat by (unfold NUTRIENT_BATCH_SIZE; lia).
    assert (dict_values (emb (dedup [] refs)) = (dedup [] refs).*2) as ->.
    { unfold dict_values, emb. by rewrite <- list_fmap_compose. }
    apply Forall_forall. intros v Hv.
    apply list_elem_of_fmap in Hv as ([z v'] & -> & Hp).
    rewrite Forall_forall in Hok. destruct (Hok _ Hp) as (nd & Hv' & Hid).
    simpl in Hv', Hid. subst v'. exists nd, z. split_and!; [done | done |].
    by apply (Hpresent z nd).
Qed.

(** ** Loading the document *)

(** C9. [load_json_data] fails on text that is not JSON and on a document
    without the key [FoundationFoods]; on a document that holds the food
    array under that key it returns the parsed document. *)
Theorem load_json_data_result (json_loads : string → option value)
    (fs : string → option string) (filepath text : string) :
  fs filepath = Some text →
  (json_loads text = None →
     load_json_data json_loads fs filepath = Err JSONDecodeError)
  ∧ (∀ d, json_loads text = Some (VDict d) →
       dict_lookup "FoundationFoods" d = None →
       load_json_data json_loads fs filepath = Err (KeyError "FoundationFoods"))
  ∧ (∀ data, json_loads text = Some data → (∀ d, data ≠ VDict d) →
       load_json_data json_loads fs filepath = Err TypeError)
  ∧ (∀ d foods, json_loads text = Some (VDict d) →
       dict_lookup "FoundationFoods" d = Some (VList foods) →
       load_json_data json_loads fs filepath = Ok (VDict d)).
Proof.
  intros Hf. unfold load_json_data. rewrite Hf. split_and!.
  - by intros ->.
  - intros d -> Hk. simpl. by rewrite Hk.
  - intros data -> Hd. destruct data; try done. by destruct (Hd d).
  - intros d foods -> Hk. simpl. by rewrite Hk.
Qed.

(** ** Foods without nutrients *)

Lemma foldM_app {A B} (f : A → B → result A) l1 l2 a :
  foldM f (l1 ++ l2) a = let* a' := foldM f l1 a in foldM f l2 a'.
Proof.
  revert a. induction l1 as [|x l1 IH]; intros a; simpl; [done |].
  destruct (f a x); simpl; [apply IH | done].
Qed.

Lemma measurements_query_nil pf fid s : measurements_query pf fid [] s = Ok s.
Proof.
  unfold measurements_query.
  assert (flat_map (fun f : nat => map (fun nd : value => (f, nd)) [])
            (match_nodes Food "fdcId" fid s) = []) as ->.
  { induction (match_nodes Food "fdcId" fid s); [done | by simpl]. }
  done.
Qed.

Lemma create_nutrient_relationships_skip pf food fid pre post s :
  measurement_params food = Ok (fid, []) →
  create_nutrient_relationships pf (pre ++ food :: post) s
  = create_nutrient_relationships pf (pre ++ post) s.
Proof.
  intros Hp. revert s. induction pre as [|food0 pre IH]; intros s; simpl.
  - rewrite Hp. unfold session_run. by rewrite measurements_query_nil.
  - destruct (measurement_params food0) as [[fid0 nd0]|]; [|done].
    destruct (session_run (measurements_query pf fid0 nd0) s); simpl; [apply IH | done].
Qed.

(** C10. A food record without the key [foodNutrients] is passed over:
    [create_nutrients] collects nothing from it, and
    [create_nutrient_relationships] sends for it a statement that creates no
    relationship; in both the other foods are processed as if the record
    were not there. *)
Theorem food_without_nutrients (pf : string → option spec_float)
    (d : list (string * value)) (pre post : list value) (s : store) :
  dict_lookup "foodNutrients" d = None →
  (∀ nutrients, collect_food nutrients (VDict d) = Ok nutrients)
  ∧ collect_nutrients (pre ++ VDict d :: post) = collect_nutrients (pre ++ post)
  ∧ create_nutrients (pre ++ VDict d :: post) s = create_nutrients (pre ++ post) s
  ∧ ∀ fid, dict_lookup "fdcId" d = Some fid →
      measurement_params (VDict d) = Ok (fid, [])
      ∧ measurements_query pf fid [] s = Ok s
      ∧ create_nutrient_relationships pf (pre ++ VDict d :: post) s
        = create_nutrient_relationships pf (pre ++ post) s.
Proof.
  intros Hn.
  assert (∀ nutrients, collect_food nutrients (VDict d) = Ok nutrients) as Hc.
  { intros nutrients. unfold collect_food. simpl. by rewrite Hn. }
  assert (collect_nutrients (pre ++ VDict d :: post) = collect_nutrients (pre ++ post)) as Hcn.
  { unfold collect_nutrients. rewrite !foldM_app.
    destruct (foldM collect_food pre []) as [a|]; simpl; [|done]. by rewrite Hc. }
  split_and!; [done | done | |].
  - unfold create_nutrients. by rewrite Hcn.
  - intros fid Hfid.
    assert (measurement_params (VDict d) = Ok (fid, [])) as Hp.
    { unfold measurement_params, nutrients_data. simpl. rewrite Hn. simpl. by rewrite Hfid. }
    split_and!; [done | apply measurements_query_nil |].
    by apply (create_nutrient_relationships_skip pf _ fid).
Qed.

(** ** Growth of the store *)

Lemma same_key_refl n : same_key n n.
Proof. done. Qed.

Lemma same_key_trans n1 n2 n3 : same_key n1 n2 → same_key n2 n3 → same_key n1 n3.
Proof. intros (? & ? & ?) (? & ? & ?). split_and!; congruence. Qed.

Lemma ext_refl s : ext s s.
Proof. split; [done |]. intros i n Hn. exists n. split; [done | apply same_key_refl]. Qed.

Lemma ext_trans s1 s2 s3 : ext s1 s2 → ext s2 s3 → ext s1 s3.
Proof.
  intros [C1 H1] [C2 H2]. split; [auto |]. intros i n Hn.
  destruct (H1 _ _ Hn) as (n2 & Hn2 & K1). destruct (H2 _ _ Hn2) as (n3 & Hn3 & K2).
  exists n3. split; [done |]. by eapply same_key_trans.
Qed.

Lemma keeps_refl s : keeps s s.
Proof. split; [apply ext_refl | done]. Qed.

Lemma keeps_trans s1 s2 s3 : keeps s1 s2 → keeps s2 s3 → keeps s1 s3.
Proof. intros [E1 I1] [E2 I2]. split; [by eapply ext_trans | auto]. Qed.

Lemma has_label_ext s s' i l : ext s s' → has_label s i l → has_label s' i l.
Proof.
  intros [_ H] (n & Hn & Hl). destruct (H _ _ Hn) as (n' & Hn' & (Hl' & _)).
  exists n'. split; [done | congruence].
Qed.

Lemma keeps_nodes s s' : ext s s' → rels s' = rels s → keeps s s'.
Proof.
  intros E Hr. split; [done |]. intros I r Hin Hk. rewrite Hr in Hin.
  destruct (I r Hin Hk). split; by eapply has_label_ext.
Qed.

Lemma ext_snoc s n : ext s (with_nodes s (nodes s ++ [n])).
Proof.
  split; [done |]. intros i n0 Hn. exists n0. split; [|apply same_key_refl].
  rewrite with_nodes_nodes. by apply lookup_app_l_Some.
Qed.

Lemma create_node_keeps l k v s i s' :
  create_node l k v s = Ok (i, s') → keeps s s' ∧ has_label s' i l.
Proof.
  intros (-> & -> & _)%create_node_Ok. split.
  - apply keeps_nodes; [apply ext_snoc | done].
  - exists (Node l (set_prop k v [])). split; [|done].
    rewrite with_nodes_nodes. by apply list_lookup_middle.
Qed.

Lemma set_node_prop_keeps i k v s s' :
  k ≠ "fdcId" → k ≠ "id" → set_node_prop i k v s = Ok s' → keeps s s'.
Proof.
  intros K1 K2 H. destruct (nodes s !! i) as [n|] eqn:Hn.
  - apply (set_node_prop_Ok _ _ _ _ _ _ H) in Hn as Hs. subst s'.
    apply keeps_nodes; [|done]. split; [done |]. intros j n0 Hj.
    rewrite with_nodes_nodes. destruct (decide (j = i)) as [->|Hne].
    + eexists. split.
      * apply list_lookup_insert_eq. by eapply lookup_lt_Some.
      * rewrite Hn in Hj. injection Hj as <-. split_and!; [done | |]; simpl;
          rewrite get_prop_set.
        -- destruct (String.eqb_spec k "fdcId"); done.
        -- destruct (String.eqb_spec k "id"); done.
    + exists n0. split; [|apply same_key_refl]. by rewrite list_lookup_insert_ne.
  - unfold set_node_prop in H. rewrite Hn in H. injection H as <-. apply keeps_refl.
Qed.

Lemma set_node_props_keeps i kvs s s' :
  plain_keys kvs → set_node_props i kvs s = Ok s' → keeps s s'.
Proof.
  intros Hk. revert s. induction Hk as [|[k e] kvs [K1 K2] _ IH]; intros s H; simpl in H.
  - injection H as <-. apply keeps_refl.
  - apply bind_Ok in H as (v & _ & H). apply bind_Ok in H as (s1 & H1 & H).
    eapply keeps_trans; [by eapply set_node_prop_keeps | by apply IH].
Qed.

Lemma match_nodes_label l k v s j : j ∈ match_nodes l k v s → has_label s j l.
Proof.
  intros (n & Hn & Hm)%match_nodes_lookup. exists n. split; [done |].
  unfold node_matches in Hm. apply andb_true_iff in Hm as [Hl _].
  by apply bool_decide_eq_true in Hl.
Qed.

Lemma merge_node_keeps l k v on_create s ms s' :
  (∀ i s1 s2, on_create i s1 = Ok s2 → keeps s1 s2) →
  merge_node l k v on_create s = Ok (ms, s') →
  keeps s s' ∧ Forall (fun m => has_label s' m l) ms.
Proof.
  intros Hc H. unfold merge_node in H.
  assert (match_nodes l k v s ≠ [] → Ok (match_nodes l k v s, s) = Ok (ms, s') →
          keeps s s' ∧ Forall (fun m => has_label s' m l) ms) as Hmatched.
  { intros _ [= <- <-]. split; [apply keeps_refl |].
    apply Forall_forall. intros j Hj. by eapply match_nodes_label. }
  assert ((let* (i, s1) := create_node l k v s in
           let* s2 := on_create i s1 in Ok ([i], s2)) = Ok (ms, s') →
          keeps s s' ∧ Forall (fun m => has_label s' m l) ms) as Hcreated.
  { intros H'. apply bind_Ok in H' as ([i s1] & H1 & H').
    apply bind_Ok in H' as (s2 & H2 & H'). injection H' as <- <-.
    apply create_node_keeps in H1 as [K1 L1]. apply Hc in H2 as K2.
    split; [by eapply keeps_trans |]. constructor; [|done].
    eapply has_label_ext; [apply K2 | done]. }
  destruct (match_nodes l k v s) as [|m0 ms0] eqn:Hm.
  - destruct v; try done; by apply Hcreated.
  - destruct v; try done; by apply Hmatched.
Qed.

Lemma ext_with_rels s rs : ext s (with_rels s rs).
Proof. split; [done |]. intros i n Hn. exists n. split; [done | apply same_key_refl]. Qed.

Lemma create_rel_keeps t a b s :
  (t = HAS_NUTRIENT → has_label s a Food ∧ has_label s b Nutrient) →
  keeps s (create_rel t a b s).2.
Proof.
  intros Hab. simpl. split; [apply ext_with_rels |]. intros I r Hin Hk.
  simpl in Hin. apply elem_of_app in Hin as [Hin|Hin%list_elem_of_singleton].
  - by apply I.
  - subst r. simpl in *. by apply Hab.
Qed.

Lemma set_rel_prop_keeps i k v s s' : set_rel_prop i k v s = Ok s' → keeps s s'.
Proof.
  unfold set_rel_prop. destruct (rels s !! i) as [r|] eqn:Hr.
  - destruct (storable v); simpl; [|done]. intros [= <-].
    split; [apply ext_with_rels |]. intros I r' Hin Hk. simpl in Hin.
    apply list_elem_of_lookup_1 in Hin as (j & Hj).
    apply list_lookup_insert_Some in Hj as [(-> & <- & _)|(_ & Hj)].
    + simpl in *. apply (I r); [by eapply list_elem_of_lookup_2 | done].
    + apply (I r'); [by eapply list_elem_of_lookup_2 | done].
  - intros [= <-]. apply keeps_refl.
Qed.

Lemma set_rel_props_keeps i kvs s s' : set_rel_props i kvs s = Ok s' → keeps s s'.
Proof.
  revert s. induction kvs as [|[k e] kvs IH]; intros s H; simpl in H.
  - injection H as <-. apply keeps_refl.
  - apply bind_Ok in H as (v & _ & H). apply bind_Ok in H as (s1 & H1 & H).
    eapply keeps_trans; [by eapply set_rel_prop_keeps | by apply IH].
Qed.

Lemma clause_keeps {R R'} (step : R → store → result (list R' * store))
    (Q : R → store → Prop) (Q' : R' → store → Prop) :
  (∀ r s s', Q r s → ext s s' → Q r s') →
  (∀ o s s', Q' o s → ext s s' → Q' o s') →
  (∀ r s out s', Q r s → step r s = Ok (out, s') →
     keeps s s' ∧ Forall (fun o => Q' o s') out) →
  ∀ rows s outs s', Forall (fun r => Q r s) rows →
    clause step rows s = Ok (outs, s') →
    keeps s s' ∧ Forall (fun o => Q' o s') outs.
Proof.
  intros HQ HQ' Hstep rows. induction rows as [|r rows IH]; intros s outs s' Hrows H.
  - simpl in H. injection H as <- <-. split; [apply keeps_refl | done].
  - simpl in H. apply bind_Ok in H as ([out s1] & H1 & H).
    apply bind_Ok in H as ([outs' s2] & H2 & H). injection H as <- <-.
    apply Forall_cons in Hrows as [Hr Hrows].
    destruct (Hstep _ _ _ _ Hr H1) as [K1 O1].
    assert (Forall (fun r => Q r s1) rows) as Hrows1.
    { eapply Forall_impl; [exact Hrows |]. intros r' Hr'. eapply HQ; [exact Hr' | apply K1]. }
    destruct (IH _ _ _ Hrows1 H2) as [K2 O2].
    split; [by eapply keeps_trans |]. apply Forall_app. split; [|done].
    eapply Forall_impl; [exact O1 |]. intros o Ho. eapply HQ'; [exact Ho | apply K2].
Qed.

Ltac plain := unfold plain_keys;
  repeat (apply List.Forall_cons; [split; cbn; discriminate |]); apply List.Forall_nil.

Lemma clause_keeps_any {R R'} (step : R → store → result (list R' * store)) :
  (∀ r s out s', step r s = Ok (out, s') → keeps s s') →
  ∀ rows s outs s', clause step rows s = Ok (outs, s') → keeps s s'.
Proof.
  intros Hstep rows s outs s' H.
  apply (clause_keeps step (fun _ _ => True) (fun _ _ => True)) in H as [K _]; try done.
  - intros r s0 out s0' _ H0. split; [by eapply Hstep |].
    apply Forall_forall. done.
  - apply Forall_forall. done.
Qed.

Lemma merge_nutrient_keeps v s rows s' : merge_nutrient v s = Ok (rows, s') → keeps s s'.
Proof.
  unfold merge_nutrient. intros H. apply bind_Ok in H as (nid & _ & H).
  apply bind_Ok in H as ([ns s1] & H1 & H). injection H as _ <-.
  eapply merge_node_keeps in H1 as [K _]; [done |].
  intros i s2 s3. apply set_node_props_keeps. plain.
Qed.

Lemma nutrients_query_keeps b s s' : nutrients_query b s = Ok s' → keeps s s'.
Proof.
  unfold nutrients_query. intros H. apply bind_Ok in H as ([rows s1] & H1 & H).
  injection H as <-. eapply clause_keeps_any; [|exact H1].
  intros r s0 out s0'. apply merge_nutrient_keeps.
Qed.

Lemma merge_category_keeps food s rows s' :
  merge_category food s = Ok (rows, s') → keeps s s'.
Proof.
  unfold merge_category. intros H. apply bind_Ok in H as (cat & _ & H).
  apply bind_Ok in H as (cid & _ & H).
  apply bind_Ok in H as ([ns s1] & H1 & H). injection H as _ <-.
  eapply merge_node_keeps in H1 as [K _]; [done |].
  intros i s2 s3. apply set_node_props_keeps. plain.
Qed.

Lemma create_food_keeps row s rows s' : create_food row s = Ok (rows, s') → keeps s s'.
Proof.
  destruct row as [food fc]. unfold create_food. intros H.
  apply bind_Ok in H as (fid & _ & H). apply bind_Ok in H as ([f s1] & H1 & H).
  injection H as _ <-. by apply create_node_keeps in H1 as [K _].
Qed.

Lemma set_food_keeps row s rows s' : set_food row s = Ok (rows, s') → keeps s s'.
Proof.
  destruct row as [[food fc] f]. unfold set_food. intros H.
  apply bind_Ok in H as (s1 & H1 & H). injection H as _ <-.
  eapply set_node_props_keeps; [|exact H1]. plain.
Qed.

Lemma link_category_keeps row s rows s' : link_category row s = Ok (rows, s') → keeps s s'.
Proof.
  destruct row as [[food fc] f]. unfold link_category.
  pose proof (create_rel_keeps BELONGS_TO f fc s) as K.
  destruct (create_rel BELONGS_TO f fc s) as [r s1]. intros [= _ <-]. by apply K.
Qed.

Lemma foods_query_keeps b s s' : foods_query b s = Ok s' → keeps s s'.
Proof.
  unfold foods_query. intros H.
  apply bind_Ok in H as ([rows1 s1] & H1 & H).
  apply bind_Ok in H as ([rows2 s2] & H2 & H).
  apply bind_Ok in H as ([rows3 s3] & H3 & H).
  apply bind_Ok in H as ([rows4 s4] & H4 & H). injection H as <-.
  eapply clause_keeps_any in H1; [|intros ????; apply merge_category_keeps].
  eapply clause_keeps_any in H2; [|intros ????; apply create_food_keeps].
  eapply clause_keeps_any in H3; [|intros ????; apply set_food_keeps].
  eapply clause_keeps_any in H4; [|intros ????; apply link_category_keeps].
  eauto using keeps_trans.
Qed.

Lemma measurements_query_keeps pf fid nds s s' :
  measurements_query pf fid nds s = Ok s' → keeps s s'.
Proof.
  unfold measurements_query. intros H.
  apply bind_Ok in H as ([rows2 s2] & H2 & H).
  apply bind_Ok in H as ([rows3 s3] & H3 & H).
  apply bind_Ok in H as ([rows4 s4] & H4 & H). injection H as <-.
  apply (clause_keeps _ (fun r s => has_label s r.1 Food)
           (fun r s => has_label s r.1.1 Food ∧ has_label s r.2 Nutrient)) in H2
    as [K2 Q2].
  - apply (clause_keeps _ (fun r s => has_label s r.1.1 Food ∧ has_label s r.2 Nutrient)
             (fun _ _ => True)) in H3 as [K3 _].
    + eapply clause_keeps_any in H4.
      * eauto using keeps_trans.
      * intros [nd r] s0 out s0' H0. unfold set_measurement in H0.
        apply bind_Ok in H0 as (s1 & H1 & H0). injection H0 as _ <-.
        by eapply set_rel_props_keeps.
    + intros r s0 s0' [? ?] E. split; by eapply has_label_ext.
    + done.
    + intros [[f nd] n] s0 out s0' [Hf Hn] H0. unfold create_measurement in H0.
      pose proof (create_rel_keeps HAS_NUTRIENT f n s0 (fun _ => conj Hf Hn)) as K.
      destruct (create_rel HAS_NUTRIENT f n s0) as [r s1]. injection H0 as _ <-.
      split; [done |]. by apply Forall_forall.
    + done.
  - intros r s0 s0' ? E. by eapply has_label_ext.
  - intros r s0 s0' [? ?] E. split; by eapply has_label_ext.
  - intros [f nd] s0 out s0' Hf H0. unfold match_nutrient in H0.
    apply bind_Ok in H0 as (nid & _ & H0). injection H0 as <- <-.
    split; [apply keeps_refl |]. apply Forall_forall. intros r Hr.
    apply list_elem_of_In, in_map_iff in Hr as (n & <- & Hn). simpl.
    split; [done |]. eapply match_nodes_label. by apply list_elem_of_In.
  - apply Forall_forall. intros [f nd] Hin. simpl.
    apply list_elem_of_In, in_flat_map in Hin as (f' & Hf' & Hin).
    apply in_map_iff in Hin as (nd' & [= <- <-] & _).
    eapply match_nodes_label. by apply list_elem_of_In.
Qed.

Lemma Done_inj s s' : Done s = Done s' → s = s'.
Proof. by intros [= ->]. Qed.

Lemma final_and_then o k :
  final (and_then o k) = match o with Done s => final (k s) | Abort _ s => s end.
Proof. by destruct o. Qed.

Lemma session_run_keeps q s :
  (∀ s', q s = Ok s' → keeps s s') → keeps s (final (session_run q s)).
Proof.
  intros Hq. unfold session_run. destruct (q s) as [s'|e]; simpl; [by apply Hq | apply keeps_refl].
Qed.

Lemma run_all_keeps qs s :
  Forall (fun q => ∀ s s', q s = Ok s' → keeps s s') qs →
  keeps s (final (run_all qs s)).
Proof.
  intros H. revert s. induction H as [|q qs Hq _ IH]; intros s; simpl; [apply keeps_refl |].
  rewrite final_and_then. unfold session_run.
  destruct (q s) as [s'|e] eqn:E; [|apply keeps_refl].
  eapply keeps_trans; [by apply Hq | apply IH].
Qed.

Lemma constrained_snoc l k s r :
  constrained l k s = true →
  constrained l k (Store (nodes s) (rels s) (constraints s ++ [r]) (indexes s)) = true.
Proof. unfold constrained. simpl. rewrite existsb_app. by intros ->. Qed.

Lemma create_constraint_keeps name l k s s' :
  create_constraint name l k s = Ok s' → keeps s s'.
Proof.
  unfold create_constraint.
  destruct (rule_named name (constraints s) || constrained l k s).
  - intros [= <-]. apply keeps_refl.
  - destruct (distinct_keys l k (nodes s)); [|done]. intros [= <-].
    apply keeps_nodes; [|done]. split.
    + intros l0 k0. apply constrained_snoc.
    + intros i n Hn. exists n. split; [done | apply same_key_refl].
Qed.

Lemma create_index_keeps name l k s s' :
  create_index name l k s = Ok s' → keeps s s'.
Proof.
  unfold create_index. destruct (rule_named name (indexes s) || indexed l k s).
  - intros [= <-]. apply keeps_refl.
  - intros [= <-]. apply keeps_nodes; [|done]. split; [done |].
    intros i n Hn. exists n. split; [done | apply same_key_refl].
Qed.

Lemma create_constraints_and_indexes_keeps s :
  keeps s (final (create_constraints_and_indexes s)).
Proof.
  apply run_all_keeps.
  repeat (apply List.Forall_cons;
          [intros ??; first [apply create_constraint_keeps | apply create_index_keeps] |]).
  apply List.Forall_nil.
Qed.

Lemma create_nutrients_keeps foods s : keeps s (final (create_nutrients foods s)).
Proof.
  unfold create_nutrients. destruct (collect_nutrients foods); [|apply keeps_refl].
  apply run_all_keeps. apply Forall_forall. intros q Hq.
  apply list_elem_of_In, in_map_iff in Hq as (b & <- & _). apply nutrients_query_keeps.
Qed.

Lemma create_foods_and_categories_keeps foods s :
  keeps s (final (create_foods_and_categories foods s)).
Proof.
  apply run_all_keeps. apply Forall_forall. intros q Hq.
  apply list_elem_of_In, in_map_iff in Hq as (b & <- & _). apply foods_query_keeps.
Qed.

Lemma create_nutrient_relationships_keeps pf foods s :
  keeps s (final (create_nutrient_relationships pf foods s)).
Proof.
  revert s. induction foods as [|food foods IH]; intros s; simpl; [apply keeps_refl |].
  destruct (measurement_params food) as [[fid nd]|]; [|apply keeps_refl].
  rewrite final_and_then. unfold session_run.
  destruct (measurements_query pf fid nd s) as [s'|] eqn:E; [|apply keeps_refl].
  eapply keeps_trans; [by eapply measurements_query_keeps | apply IH].
Qed.

Lemma run_import_keeps pf jl fs file s : keeps s (final (run_import pf jl fs file s)).
Proof.
  unfold run_import.
  destruct (let* data := load_json_data jl fs file in py_getitem data "FoundationFoods")
    as [foods|]; [|apply keeps_refl].
  rewrite final_and_then.
  pose proof (create_constraints_and_indexes_keeps s) as K0.
  destruct (create_constraints_and_indexes s) as [s1|e s1]; simpl in K0; [|exact K0].
  destruct (py_iter foods) as [fl|]; [|exact K0].
  rewrite final_and_then. pose proof (create_nutrients_keeps fl s1) as K1.
  destruct (create_nutrients fl s1) as [s2|e s2]; [|by eapply keeps_trans].
  rewrite final_and_then. pose proof (create_foods_and_categories_keeps fl s2) as K2.
  destruct (create_foods_and_categories fl s2) as [s3|e s3];
    [|eauto using keeps_trans].
  pose proof (create_nutrient_relationships_keeps pf fl s3) as K3.
  eauto using keeps_trans.
Qed.

Lemma perform_keeps pf jl s o : keeps s (perform pf jl s o).
Proof.
  destruct o; simpl.
  - apply create_constraints_and_indexes_keeps.
  - apply create_nutrients_keeps.
  - apply create_foods_and_categories_keeps.
  - apply create_nutrient_relationships_keeps.
  - apply run_import_keeps.
Qed.

Lemma clause_match_nutrient_none rows s :
  Forall (fun r : nat * value =>
            match_nodes Nutrient "id" (cy_field r.2 "nutrient_id") s = []) rows →
  clause match_nutrient rows s = Ok ([], s) ∨ ∃ e, clause match_nutrient rows s = Err e.
Proof.
  induction 1 as [|[f nd] rows Hr _ IH]; simpl; [by left |].
  unfold cy_field in Hr. simpl in Hr.
  destruct (cy_access nd "nutrient_id") as [nid|e]; simpl; [|right; eauto].
  rewrite Hr. simpl. destruct IH as [->|[e ->]]; simpl; [by left | right; eauto].
Qed.

(** C6. Every measurement links a Food node to a Nutrient node of the
    store, in every store that the operations of the loader leave, whether
    they complete or abort; the statement of
    [create_nutrient_relationships] creates nothing when no Food node has
    the identifier, or when no Nutrient node matches any entry. *)
Theorem measurement_endpoints_exist (pf : string → option spec_float)
    (jl : string → option value) (ops : list operation) (s : store) :
  integrity s →
  integrity (foldl (perform pf jl) s ops)
  ∧ (∀ fid nds, match_nodes Food "fdcId" fid s = [] →
       measurements_query pf fid nds s = Ok s)
  ∧ (∀ fid nds,
       Forall (fun nd => match_nodes Nutrient "id" (cy_field nd "nutrient_id") s = []) nds →
       final (session_run (measurements_query pf fid nds) s) = s).
Proof.
  intros I. split_and!.
  - revert s I. induction ops as [|o ops IH]; intros s I; simpl; [done |].
    apply IH. by apply (perform_keeps pf jl s o).
  - intros fid nds Hf. unfold measurements_query. by rewrite Hf.
  - intros fid nds Hn. unfold session_run, measurements_query.
    set (rows := flat_map _ _).
    assert (Forall (fun r : nat * value =>
              match_nodes Nutrient "id" (cy_field r.2 "nutrient_id") s = []) rows) as Hr.
    { apply Forall_forall. intros [f nd] Hin.
      apply list_elem_of_In, in_flat_map in Hin as (f' & _ & Hin).
      apply in_map_iff in Hin as (nd' & [= <- <-] & Hin). simpl.
      rewrite Forall_forall in Hn. apply Hn. by apply list_elem_of_In. }
    destruct (clause_match_nutrient_none _ _ Hr) as [->|[e ->]]; done.
Qed.

(** ** The measurement statement *)

Lemma set_rel_prop_middle s A r B k v s' :
  set_rel_prop (length A) k v (with_rels s (A ++ r :: B)) = Ok s' →
  s' = with_rels s (A ++ Rel (rkind r) (rsrc r) (rdst r) (set_prop k v (rprops r)) :: B).
Proof.
  unfold set_rel_prop. simpl. rewrite list_lookup_middle by done.
  destruct (storable v); simpl; [|done]. intros [= <-]. unfold with_rels. simpl. f_equal.
  replace (length A) with (length A + 0) by lia. by rewrite insert_app_r.
Qed.

Lemma set_rel_props_middle s A r B kvs s' :
  set_rel_props (length A) kvs (with_rels s (A ++ r :: B)) = Ok s' →
  s' = with_rels s (A ++ Rel (rkind r) (rsrc r) (rdst r) (apply_sets kvs (rprops r)) :: B)
  ∧ Forall (fun kv => ∃ v, kv.2 = Ok v) kvs.
Proof.
  revert r. induction kvs as [|[k e] kvs IH]; intros r H; simpl in H.
  - injection H as <-. split; [by destruct r | done].
  - apply bind_Ok in H as (v & -> & H). apply bind_Ok in H as (s1 & H1 & H).
    apply set_rel_prop_middle in H1. subst s1. apply IH in H as [-> Hk].
    split; [done |]. constructor; [by exists v | done].
Qed.

Lemma clause_match_nutrient_store rows s rows' s' :
  clause match_nutrient rows s = Ok (rows', s') → s' = s.
Proof.
  revert rows'. induction rows as [|[f nd] rows IH]; intros rows' H; simpl in H.
  - by injection H as _ <-.
  - apply bind_Ok in H as ([o s1] & H1 & H). apply bind_Ok in H as ([os s2] & H2 & H).
    injection H as _ <-. unfold match_nutrient in H1.
    apply bind_Ok in H1 as (nid & _ & H1). injection H1 as _ <-. by eapply IH.
Qed.

Lemma clause_create_measurement rows s rows' s' :
  clause create_measurement rows s = Ok (rows', s') →
  s' = with_rels s (rels s ++ map (fun r => Rel HAS_NUTRIENT r.1.1 r.2 []) rows)
  ∧ rows' = zip (map (fun r => r.1.2) rows) (seq (length (rels s)) (length rows)).
Proof.
  revert s rows'. induction rows as [|[[f nd] n] rows IH]; intros s rows' H; simpl in H.
  - injection H as <- <-. simpl. by rewrite app_nil_r, with_rels_id.
  - apply bind_Ok in H as ([os s2] & H2 & H). injection H as <- <-.
    apply IH in H2 as [-> ->]. simpl. rewrite length_app. simpl. split.
    + unfold with_rels. simpl. by rewrite <- app_assoc.
    + do 3 f_equal. lia.
Qed.

Lemma clause_set_measurement pf s A (rows : list (nat * value * nat)) out s' :
  clause (set_measurement pf)
    (zip (map (fun r => r.1.2) rows) (seq (length A) (length rows)))
    (with_rels s (A ++ map (fun r => Rel HAS_NUTRIENT r.1.1 r.2 []) rows)) = Ok (out, s') →
  s' = with_rels s (A ++ map (measurement pf) rows)
  ∧ Forall (fun r => Forall (fun kv => ∃ v, kv.2 = Ok v) (measurement_fields pf r.1.2)) rows.
Proof.
  revert A out. induction rows as [|[[f nd] n] rows IH]; intros A out H.
  - simpl in H. injection H as _ <-. done.
  - cbn [map length seq zip zip_with clause fst snd] in H.
    apply bind_Ok in H as ([o s1] & H1 & H). apply bind_Ok in H as ([os s2] & H2 & H).
    injection H as _ <-. unfold set_measurement in H1.
    apply bind_Ok in H1 as (s1' & H1 & E1). injection E1 as _ <-.
    apply set_rel_props_middle in H1 as [-> Hk]. cbn [rkind rsrc rdst rprops] in H2.
    replace (A ++ Rel HAS_NUTRIENT f n (apply_sets (measurement_fields pf nd) [])
               :: map (fun r => Rel HAS_NUTRIENT r.1.1 r.2 []) rows)
      with ((A ++ [measurement pf (f, nd, n)])
              ++ map (fun r => Rel HAS_NUTRIENT r.1.1 r.2 []) rows) in H2
      by (by rewrite <- app_assoc).
    replace (S (length A)) with (length (A ++ [measurement pf (f, nd, n)])) in H2
      by (rewrite length_app; simpl; lia).
    apply IH in H2 as [-> Hrows]. split; [|by constructor].
    by rewrite <- app_assoc.
Qed.

Lemma measurements_query_Ok pf fid nds s s' :
  measurements_query pf fid nds s = Ok s' →
  ∃ rows,
    clause match_nutrient
      (flat_map (fun f => map (fun nd => (f, nd)) nds) (match_nodes Food "fdcId" fid s)) s
    = Ok (rows, s)
    ∧ s' = with_rels s (rels s ++ map (measurement pf) rows)
    ∧ Forall (fun r => Forall (fun kv => ∃ v, kv.2 = Ok v) (measurement_fields pf r.1.2)) rows.
Proof.
  unfold measurements_query. intros H.
  apply bind_Ok in H as ([rows2 s2] & H2 & H).
  apply bind_Ok in H as ([rows3 s3] & H3 & H).
  apply bind_Ok in H as ([rows4 s4] & H4 & H). injection H as <-.
  pose proof (clause_match_nutrient_store _ _ _ _ H2) as ->.
  apply clause_create_measurement in H3 as [-> ->].
  apply clause_set_measurement in H4 as [-> Hok].
  exists rows2. done.
Qed.

Lemma measurement_fields_props pf ndd :
  Forall (fun kv => ∃ v, kv.2 = Ok v) (measurement_fields pf (VDict ndd)) →
  ∀ p, p = apply_sets (measurement_fields pf (VDict ndd)) [] →
  toFloat pf (get_prop "amount" ndd) = Ok (get_prop "amount" p)
  ∧ toFloat pf (get_prop "min" ndd) = Ok (get_prop "min" p)
  ∧ toFloat pf (get_prop "max" ndd) = Ok (get_prop "max" p)
  ∧ toFloat pf (get_prop "median" ndd) = Ok (get_prop "median" p)
  ∧ get_prop "dataPoints" p = get_prop "dataPoints" ndd
  ∧ get_prop "derivationCode" p = get_prop "derivationCode" ndd
  ∧ get_prop "derivationDescription" p = get_prop "derivationDescription" ndd.
Proof.
  unfold measurement_fields, apply_sets. cbn [cy_access bind foldl fst snd].
  intros H p ->.
  apply Forall_cons in H as [(v1 & E1) H]. apply Forall_cons in H as [_ H].
  apply Forall_cons in H as [_ H]. apply Forall_cons in H as [_ H].
  apply Forall_cons in H as [(v5 & E5) H]. apply Forall_cons in H as [(v6 & E6) H].
  apply Forall_cons in H as [(v7 & E7) _]. cbn [snd] in E1, E5, E6, E7.
  rewrite E1, E5, E6, E7. rewrite !get_prop_set. done.
Qed.

Lemma map_result_Forall2 {A B} (f : A → result B) l l' :
  map_result f l = Ok l' → Forall2 (fun x y => f x = Ok y) l l'.
Proof.
  revert l'. induction l as [|x l IH]; intros l' H; simpl in H.
  - injection H as <-. constructor.
  - apply bind_Ok in H as (y & Hy & H). apply bind_Ok in H as (ys & Hys & H).
    injection H as <-. constructor; [done | by apply IH].
Qed.

Lemma nutrient_entry_Ok efd nd :
  nutrient_entry (VDict efd) = Ok nd →
  ∃ ndd nutr nid,
    nd = VDict ndd
    ∧ dict_lookup "nutrient" efd = Some nutr
    ∧ py_getitem nutr "id" = Ok nid
    ∧ get_prop "nutrient_id" ndd = nid
    ∧ get_prop "amount" ndd = get_prop "amount" efd
    ∧ get_prop "min" ndd = get_prop "min" efd
    ∧ get_prop "max" ndd = get_prop "max" efd
    ∧ get_prop "median" ndd = get_prop "median" efd
    ∧ get_prop "dataPoints" ndd = get_prop "dataPoints" efd
    ∧ get_prop "derivationCode" ndd
      = cy_field (get_prop "foodNutrientDerivation" efd) "code"
    ∧ get_prop "derivationDescription" ndd
      = cy_field (get_prop "foodNutrientDerivation" efd) "description".
Proof.
  unfold nutrient_entry. intros H.
  apply bind_Ok in H as (nutr & Hn & H). apply bind_Ok in H as (nid & Hid & H).
  cbn [py_get bind] in H.
  assert (dict_lookup "nutrient" efd = Some nutr) as Hn'.
  { simpl in Hn. destruct (dict_lookup "nutrient" efd); [by injection Hn as -> | done]. }
  destruct (dict_lookup "foodNutrientDerivation" efd) as [der|] eqn:Ed.
  - destruct der as [| | | | | |dd]; try done. cbn [py_get bind] in H.
    injection H as <-. eexists _, nutr, nid.
    split_and!; try done; unfold get_prop, cy_field; rewrite Ed; done.
  - cbn [py_get bind dict_lookup] in H. injection H as <-.
    eexists _, nutr, nid.
    split_and!; try done; unfold get_prop, cy_field; rewrite Ed; done.
Qed.

Lemma entry_ref_getitem fn z nutr :
  entry_ref fn = Some (z, nutr) →
  ∃ efd, fn = VDict efd ∧ dict_lookup "nutrient" efd = Some nutr
         ∧ py_getitem nutr "id" = Ok (VInt z).
Proof.
  unfold entry_ref. destruct fn as [| | | | | |efd]; try done.
  destruct (dict_lookup "nutrient" efd) as [[| | | | | |nd]|] eqn:E; try done.
  destruct (dict_lookup "id" nd) as [[| |z'| | | |]|] eqn:E'; try done.
  intros [= <- <-]. exists efd. split_and!; [done | done |]. simpl. by rewrite E'.
Qed.

Lemma match_nodes_nodes l k v s s' :
  nodes s = nodes s' → match_nodes l k v s = match_nodes l k v s'.
Proof. unfold match_nodes. by intros ->. Qed.

Lemma clause_match_nutrient_unique f nds ns s :
  Forall2 (fun nd n => ∃ d, nd = VDict d
             ∧ match_nodes Nutrient "id" (get_prop "nutrient_id" d) s = [n]) nds ns →
  clause match_nutrient (map (fun nd => (f, nd)) nds) s
  = Ok (zip_with (fun nd n => (f, nd, n)) nds ns, s).
Proof.
  induction 1 as [|nd n nds ns (d & -> & Hm) _ IH]; simpl; [done |].
  rewrite Hm. simpl. by rewrite IH.
Qed.

Lemma create_nutrient_relationships_app pf pre l s s' :
  create_nutrient_relationships pf (pre ++ l) s = Done s' →
  ∃ s1, create_nutrient_relationships pf pre s = Done s1
        ∧ create_nutrient_relationships pf l s1 = Done s'.
Proof.
  revert s. induction pre as [|food pre IH]; intros s H; simpl in *; [eauto |].
  destruct (measurement_params food) as [[fid nd]|]; [|done].
  destruct (session_run (measurements_query pf fid nd) s) as [s0|]; simpl in *; [|done].
  by apply IH.
Qed.

Lemma create_nutrient_relationships_grows pf l s s' :
  create_nutrient_relationships pf l s = Done s' →
  nodes s' = nodes s ∧ ∃ new, rels s' = rels s ++ new.
Proof.
  revert s. induction l as [|food l IH]; intros s H; simpl in H.
  - injection H as <-. split; [done |]. exists []. by rewrite app_nil_r.
  - destruct (measurement_params food) as [[fid nd]|]; [|done].
    unfold session_run in H.
    destruct (measurements_query pf fid nd s) as [s0|] eqn:E; simpl in H; [|done].
    apply measurements_query_Ok in E as (rows & _ & -> & _).
    apply IH in H as [Hn (new & Hr)]. split; [done |].
    simpl in Hr. rewrite <- app_assoc in Hr. eauto.
Qed.

Lemma nutrients_data_entries food entries :
  food_entries food = Some entries →
  nutrients_data food = map_result nutrient_entry entries.
Proof.
  unfold food_entries, nutrients_data. destruct food as [| | | | | |fd]; try done.
  simpl. destruct (dict_lookup "foodNutrients" fd) as [[| | | | |l|]|]; try done.
  - by intros [= <-].
  - by intros [= <-].
Qed.

Lemma entry_nd fn nd z nutr :
  entry_ref fn = Some (z, nutr) → nutrient_entry fn = Ok nd →
  ∃ efd ndd, fn = VDict efd ∧ nd = VDict ndd
    ∧ get_prop "nutrient_id" ndd = VInt z
    ∧ get_prop "amount" ndd = get_prop "amount" efd
    ∧ get_prop "min" ndd = get_prop "min" efd
    ∧ get_prop "max" ndd = get_prop "max" efd
    ∧ get_prop "median" ndd = get_prop "median" efd
    ∧ get_prop "dataPoints" ndd = get_prop "dataPoints" efd
    ∧ get_prop "derivationCode" ndd
      = cy_field (get_prop "foodNutrientDerivation" efd) "code"
    ∧ get_prop "derivationDescription" ndd
      = cy_field (get_prop "foodNutrientDerivation" efd) "description".
Proof.
  intros (efd & -> & Hn & Hid)%entry_ref_getitem
         (ndd & nutr' & nid & -> & Hn' & Hid' & Hrest)%nutrient_entry_Ok.
  rewrite Hn in Hn'. injection Hn' as <-. rewrite Hid in Hid'. injection Hid' as <-.
  exists efd, ndd. done.
Qed.

Lemma entries_targets s entries nds :
  Forall2 (fun fn nd => nutrient_entry fn = Ok nd) entries nds →
  Forall (fun fn => ∃ z nutr n, entry_ref fn = Some (z, nutr)
            ∧ match_nodes Nutrient "id" (VInt z) s = [n]) entries →
  ∃ ns,
    Forall2 (fun nd n => ∃ d, nd = VDict d
               ∧ match_nodes Nutrient "id" (get_prop "nutrient_id" d) s = [n]) nds ns
    ∧ Forall2 (fun fn n => ∃ z nutr, entry_ref fn = Some (z, nutr)
                 ∧ match_nodes Nutrient "id" (VInt z) s = [n]) entries ns.
Proof.
  induction 1 as [|fn nd entries nds Hfn _ IH]; intros Hent.
  - exists []. split; constructor.
  - apply Forall_cons in Hent as [(z & nutr & n & Hr & Hm) Hent].
    destruct (IH Hent) as (ns & H1 & H2). exists (n :: ns).
    destruct (entry_nd _ _ _ _ Hr Hfn) as (efd & ndd & -> & -> & Hid & _).
    split; constructor; try done.
    + exists ndd. by rewrite Hid.
    + by exists z, nutr.
Qed.

(** C2 (as the code has it). For every entry of a food's [foodNutrients]
    whose food and nutrient are each matched by one node,
    [create_nutrient_relationships] creates exactly one measurement, from
    the food node to the nutrient node.  Its amount, min, max and median
    are the [toFloat] of the entry's fields; its dataPoints and derivation
    code and description are stored as given, without conversion; a field
    the entry lacks is null, and so an absent amount is a null amount. *)
Theorem measurement_per_entry (pf : string → option spec_float)
    (pre post : list value) (fd : list (string * value)) (entries : list value)
    (fid : value) (f : nat) (s s' : store) :
  create_nutrient_relationships pf (pre ++ VDict fd :: post) s = Done s' →
  food_entries (VDict fd) = Some entries →
  dict_lookup "fdcId" fd = Some fid →
  match_nodes Food "fdcId" fid s = [f] →
  Forall (fun fn => ∃ z nutr n, entry_ref fn = Some (z, nutr)
            ∧ match_nodes Nutrient "id" (VInt z) s = [n]) entries →
  ∃ s1 created later,
    create_nutrient_relationships pf pre s = Done s1
    ∧ rels s' = rels s1 ++ created ++ later
    ∧ length created = length entries
    ∧ ∀ i fn, entries !! i = Some fn →
        ∃ r efd z nutr,
          fn = VDict efd
          ∧ entry_ref fn = Some (z, nutr)
          ∧ created !! i = Some r
          ∧ rkind r = HAS_NUTRIENT
          ∧ rsrc r = f
          ∧ match_nodes Nutrient "id" (VInt z) s = [rdst r]
          ∧ toFloat pf (get_prop "amount" efd) = Ok (get_prop "amount" (rprops r))
          ∧ toFloat pf (get_prop "min" efd) = Ok (get_prop "min" (rprops r))
          ∧ toFloat pf (get_prop "max" efd) = Ok (get_prop "max" (rprops r))
          ∧ toFloat pf (get_prop "median" efd) = Ok (get_prop "median" (rprops r))
          ∧ get_prop "dataPoints" (rprops r) = get_prop "dataPoints" efd
          ∧ get_prop "derivationCode" (rprops r)
            = cy_field (get_prop "foodNutrientDerivation" efd) "code"
          ∧ get_prop "derivationDescription" (rprops r)
            = cy_field (get_prop "foodNutrientDerivation" efd) "description"
          ∧ (dict_lookup "amount" efd = None → get_prop "amount" (rprops r) = VNone).
Proof.
  intros H He Hfid Hf Hent.
  apply create_nutrient_relationships_app in H as (s1 & Hpre & H). exists s1.
  apply create_nutrient_relationships_grows in Hpre as Hg. destruct Hg as [Hn1 _].
  cbn [create_nutrient_relationships] in H. unfold measurement_params in H.
  rewrite (nutrients_data_entries _ _ He) in H.
  destruct (map_result nutrient_entry entries) as [nds|] eqn:End; [|done].
  apply map_result_Forall2 in End. cbn [bind py_getitem] in H. rewrite Hfid in H.
  cbn [bind] in H. unfold session_run in H.
  destruct (measurements_query pf fid nds s1) as [s2|] eqn:Eq; [|done]. cbn [and_then] in H.
  apply create_nutrient_relationships_grows in H as [_ (later & Hl)].
  apply measurements_query_Ok in Eq as (rows & Hrows & -> & Hok).
  rewrite <- (match_nodes_nodes Food "fdcId" fid s s1) in Hrows by done.
  rewrite Hf in Hrows. cbn [flat_map] in Hrows. rewrite app_nil_r in Hrows.
  assert (Forall (fun fn => ∃ z nutr n, entry_ref fn = Some (z, nutr)
            ∧ match_nodes Nutrient "id" (VInt z) s1 = [n]) entries) as Hent1.
  { eapply Forall_impl; [exact Hent |]. intros fn (z & nutr & n & ? & ?).
    exists z, nutr, n. split; [done |].
    by rewrite <- (match_nodes_nodes Nutrient "id" (VInt z) s s1). }
  destruct (entries_targets s1 _ _ End Hent1) as (ns & Hns & Hens).
  rewrite (clause_match_nutrient_unique f nds ns s1 Hns) in Hrows.
  injection Hrows as <-.
  exists (map (measurement pf) (zip_with (fun nd n => (f, nd, n)) nds ns)), later.
  split_and!; [done | | |].
  - rewrite Hl. simpl. by rewrite <- app_assoc.
  - rewrite length_map, length_zip_with.
    apply Forall2_length in End, Hns. lia.
  - intros i fn Hi.
    destruct (Forall2_lookup_l _ _ _ _ _ End Hi) as (nd & Hnd & Hfn).
    destruct (Forall2_lookup_l _ _ _ _ _ Hens Hi) as (n & Hn & (z & nutr & Hr & Hm)).
    destruct (entry_nd _ _ _ _ Hr Hfn)
      as (efd & ndd & -> & -> & Hid & Ha & Hmin & Hmax & Hmed & Hdp & Hdc & Hdd).
    exists (measurement pf (f, VDict ndd, n)), efd, z, nutr.
    assert (zip_with (fun nd n => (f, nd, n)) nds ns !! i = Some (f, VDict ndd, n)) as Hrow.
    { rewrite lookup_zip_with. rewrite Hnd. simpl. by rewrite Hn. }
    rewrite Forall_forall in Hok.
    pose proof (Hok _ (list_elem_of_lookup_2 _ _ _ Hrow)) as Hfields. cbn [fst snd] in Hfields.
    pose proof (measurement_fields_props pf ndd Hfields _ eq_refl)
      as (Fa & Fmin & Fmax & Fmed & Fdp & Fdc & Fdd).
    rewrite Ha in Fa. rewrite Hmin in Fmin. rewrite Hmax in Fmax. rewrite Hmed in Fmed.
    split_and!; try done.
    + by rewrite list_lookup_fmap, Hrow.
    + by rewrite <- (match_nodes_nodes Nutrient "id" (VInt z) s s1) in Hm.
    + unfold measurement. cbn [rprops fst snd]. by rewrite Fdp.
    + unfold measurement. cbn [rprops fst snd]. by rewrite Fdc.
    + unfold measurement. cbn [rprops fst snd]. by rewrite Fdd.
    + intros Hnone.
      assert (get_prop "amount" efd = VNone) as E by (unfold get_prop; by rewrite Hnone).
      rewrite E in Fa. cbn [toFloat] in Fa. injection Fa as Fa. symmetry. exact Fa.
Qed.

(** ** The food statement *)

Lemma cy_access_field m k v : cy_access m k = Ok v → cy_field m k = v.
Proof. unfold cy_field. by intros ->. Qed.

Lemma apply_sets_plain kvs p :
  plain_keys kvs →
  get_prop "fdcId" (apply_sets kvs p) = get_prop "fdcId" p
  ∧ get_prop "id" (apply_sets kvs p) = get_prop "id" p.
Proof.
  intros H. revert p. induction H as [|[k e] kvs [K1 K2] _ IH]; intros p; [done |].
  unfold apply_sets in *. cbn [foldl fst snd]. destruct e as [v|]; [|apply IH].
  destruct (IH (set_prop k v p)) as [-> ->]. rewrite !get_prop_set.
  destruct (String.eqb_spec k "fdcId"), (String.eqb_spec k "id"); done.
Qed.

Lemma set_node_props_last s ns n kvs s' :
  set_node_props (length ns) kvs (with_nodes s (ns ++ [n])) = Ok s' →
  s' = with_nodes s (ns ++ [Node (nlabel n) (apply_sets kvs (nprops n))]).
Proof.
  revert n. induction kvs as [|[k e] kvs IH]; intros n H; simpl in H.
  - injection H as <-. by destruct n.
  - apply bind_Ok in H as (v & -> & H). apply bind_Ok in H as (s1 & H1 & H).
    apply set_node_prop_last in H1. subst s1. by apply IH in H.
Qed.

Lemma same_keys_refl s : same_keys s s.
Proof. unfold same_keys. apply Forall2_same_length_lookup. split; [done |].
  intros i n n' H1 H2. rewrite H1 in H2. injection H2 as <-. apply same_key_refl. Qed.

Lemma same_keys_trans s1 s2 s3 : same_keys s1 s2 → same_keys s2 s3 → same_keys s1 s3.
Proof.
  unfold same_keys. intros H1 H2. revert H2. generalize (nodes s3).
  induction H1 as [|n1 n2 l1 l2 K _ IH]; intros l3 H2.
  - by apply Forall2_nil_inv_l in H2 as ->.
  - apply Forall2_cons_inv_l in H2 as (n3 & l3' & K' & H2 & ->).
    constructor; [by eapply same_key_trans | by apply IH].
Qed.

Lemma same_keys_match l k v s s' :
  k = "id" ∨ k = "fdcId" → same_keys s s' →
  match_nodes l k v s' = match_nodes l k v s.
Proof.
  intros Hk H. unfold match_nodes, same_keys in *. generalize 0.
  induction H as [|n n' ns ns' (Hl & Hf & Hi) _ IH]; intros i; simpl; [done |].
  rewrite IH. unfold node_matches. rewrite Hl.
  by destruct Hk as [-> | ->]; rewrite ?Hi, ?Hf.
Qed.

Lemma set_node_prop_same i k v s s' :
  k ≠ "fdcId" → k ≠ "id" → set_node_prop i k v s = Ok s' →
  rels s' = rels s ∧ same_keys s s'.
Proof.
  intros K1 K2 H. destruct (nodes s !! i) as [n|] eqn:Hn.
  - apply (set_node_prop_Ok _ _ _ _ _ _ H) in Hn as Hs. subst s'. split; [done |].
    unfold same_keys. rewrite with_nodes_nodes. apply Forall2_same_length_lookup.
    split; [by rewrite length_insert |]. intros j n1 n2 H1 H2.
    destruct (decide (j = i)) as [->|Hne].
    + rewrite list_lookup_insert_eq in H2 by (by eapply lookup_lt_Some).
      injection H2 as <-. rewrite Hn in H1. injection H1 as <-.
      split_and!; [done | |]; simpl; rewrite get_prop_set.
      * by destruct (String.eqb_spec k "fdcId").
      * by destruct (String.eqb_spec k "id").
    + rewrite list_lookup_insert_ne in H2 by done. rewrite H1 in H2. injection H2 as <-.
      apply same_key_refl.
  - unfold set_node_prop in H. rewrite Hn in H. injection H as <-.
    split; [done | apply same_keys_refl].
Qed.

Lemma set_node_props_same i kvs s s' :
  plain_keys kvs → set_node_props i kvs s = Ok s' →
  rels s' = rels s ∧ same_keys s s'.
Proof.
  intros Hk. revert s. induction Hk as [|[k e] kvs [K1 K2] _ IH]; intros s H; simpl in H.
  - injection H as <-. split; [done | apply same_keys_refl].
  - apply bind_Ok in H as (v & _ & H). apply bind_Ok in H as (s1 & H1 & H).
    apply set_node_prop_same in H1 as [R1 S1]; [|done..].
    apply IH in H as [R2 S2]. split; [congruence | by eapply same_keys_trans].
Qed.

Lemma match_nodes_ext l k v s s' j :
  k = "id" ∨ k = "fdcId" → ext s s' →
  j ∈ match_nodes l k v s → j ∈ match_nodes l k v s'.
Proof.
  intros Hk [_ E] (n & Hn & Hm)%match_nodes_lookup. apply match_nodes_lookup.
  destruct (E _ _ Hn) as (n' & Hn' & (Hl & Hf & Hi)). exists n'. split; [done |].
  unfold node_matches in *. rewrite Hl. by destruct Hk as [-> | ->]; rewrite ?Hi, ?Hf.
Qed.

Lemma merge_category_int food c s rows s' :
  unique_int_key FoodCategory "id" s → category_id food = VInt c →
  merge_category food s = Ok (rows, s') →
  ∃ fc, rows = [(food, fc)]
    ∧ fc ∈ match_nodes FoodCategory "id" (VInt c) s'
    ∧ unique_int_key FoodCategory "id" s'
    ∧ rels s' = rels s.
Proof.
  intros Hu Hc H. unfold merge_category in H.
  apply bind_Ok in H as (cat & Hcat & H). apply bind_Ok in H as (cid & Hcid & H).
  apply bind_Ok in H as ([fcs s1] & H1 & H). injection H as <- <-.
  apply cy_access_field in Hcat, Hcid. unfold category_id in Hc.
  rewrite Hcat, Hcid in Hc. subst cid. unfold merge_node in H1.
  destruct (match_nodes FoodCategory "id" (VInt c) s) as [|m ms] eqn:Hm.
  - rewrite create_node_unmatched in H1 by done. cbn [bind] in H1.
    apply bind_Ok in H1 as (s2 & H2 & H1). injection H1 as <- <-.
    apply set_node_props_last in H2. subst s2. cbn [nlabel nprops].
    set (n' := Node FoodCategory _).
    assert (∀ z, node_matches FoodCategory "id" (VInt z) n' = bool_decide (c = z)) as Hn'.
    { intros z. unfold node_matches, n'. cbn [nlabel nprops].
      destruct (apply_sets_plain
                  [("code", cy_access cat "code"); ("description", cy_access cat "description")]
                  (set_prop "id" (VInt c) [])) as [_ ->]; [plain |].
      rewrite get_prop_set. simpl String.eqb. cbv iota. by rewrite cy_eqb_int. }
    exists (length (nodes s)). split_and!; [done | | | done].
    + rewrite match_nodes_snoc, Hm, Hn', bool_decide_eq_true_2 by done. by left.
    + intros z. rewrite match_nodes_snoc, Hn'. case_bool_decide as E.
      * subst z. rewrite Hm. simpl. lia.
      * rewrite app_nil_r. apply Hu.
  - injection H1 as <- <-. specialize (Hu c) as Hlen. rewrite Hm in Hlen.
    destruct ms; [|simpl in Hlen; lia].
    exists m. split_and!; [done | | done | done]. rewrite Hm. by left.
Qed.

Lemma clause_merge_category b s rows s' :
  unique_int_key FoodCategory "id" s →
  Forall (fun food => ∃ c, category_id food = VInt c) b →
  clause merge_category b s = Ok (rows, s') →
  unique_int_key FoodCategory "id" s'
  ∧ rels s' = rels s
  ∧ Forall2 (fun food row => row.1 = food
               ∧ row.2 ∈ match_nodes FoodCategory "id" (category_id food) s') b rows.
Proof.
  intros Hu Hb. revert s rows Hu. induction Hb as [|food b [c Hc] _ IH]; intros s rows Hu H.
  - simpl in H. injection H as <- <-. split_and!; [done | done | constructor].
  - simpl in H. apply bind_Ok in H as ([o s1] & H1 & H).
    apply bind_Ok in H as ([os s2] & H2 & H). injection H as <- <-.
    destruct (merge_category_int _ _ _ _ _ Hu Hc H1) as (fc & -> & Hfc & Hu1 & Hr1).
    assert (keeps s1 s2) as K.
    { eapply clause_keeps_any; [|exact H2]. intros ????. apply merge_category_keeps. }
    destruct (IH _ _ Hu1 H2) as (Hu2 & Hr2 & Hrows).
    split_and!; [done | congruence |]. constructor; [|done]. split; [done |]. simpl.
    rewrite Hc. eapply match_nodes_ext; [by left | apply K | done].
Qed.

Lemma clause_create_food rows s rows' s' :
  clause create_food rows s = Ok (rows', s') →
  s' = with_nodes s
         (nodes s ++ map (fun row => Node Food (set_prop "fdcId" (cy_field row.1 "fdcId") []))
                         rows)
  ∧ rows' = zip_with (fun row i => (row.1, row.2, i)) rows
                     (seq (length (nodes s)) (length rows)).
Proof.
  revert s rows'. induction rows as [|[food fc] rows IH]; intros s rows' H; simpl in H.
  - injection H as <- <-. simpl. by rewrite app_nil_r, with_nodes_id.
  - apply bind_Ok in H as ([o s1] & H1 & H). apply bind_Ok in H as ([os s2] & H2 & H).
    injection H as <- <-. apply bind_Ok in H1 as (fid & Hfid & H1).
    apply bind_Ok in H1 as ([f s1'] & H1 & E). injection E as <- <-.
    apply create_node_Ok in H1 as (-> & -> & _). apply cy_access_field in Hfid. subst fid.
    apply IH in H2 as [-> ->]. rewrite with_nodes_twice, with_nodes_nodes, length_app.
    simpl. split.
    + by rewrite <- app_assoc.
    + do 3 f_equal. lia.
Qed.

Lemma clause_set_food rows s rows' s' :
  clause set_food rows s = Ok (rows', s') →
  rows' = rows ∧ rels s' = rels s ∧ same_keys s s'.
Proof.
  revert s rows'. induction rows as [|[[food fc] f] rows IH]; intros s rows' H;
    cbn [clause] in H.
  - injection H as <- <-. split_and!; [done | done | apply same_keys_refl].
  - apply bind_Ok in H as ([o s1] & H1 & H). apply bind_Ok in H as ([os s2] & H2 & H).
    injection H as <- <-. unfold set_food in H1.
    apply bind_Ok in H1 as (s1' & H1 & E). injection E as <- <-.
    apply set_node_props_same in H1 as [R1 S1]; [|plain].
    apply IH in H2 as (-> & R2 & S2).
    split_and!; [done | congruence | by eapply same_keys_trans].
Qed.

Lemma clause_link_category rows s out s' :
  clause link_category rows s = Ok (out, s') →
  s' = with_rels s (rels s ++ map (fun row => Rel BELONGS_TO row.2 row.1.2 []) rows).
Proof.
  revert s out. induction rows as [|[[food fc] f] rows IH]; intros s out H; simpl in H.
  - injection H as _ <-. simpl. by rewrite app_nil_r, with_rels_id.
  - apply bind_Ok in H as ([os s2] & H2 & H). injection H as _ <-.
    apply IH in H2 as ->. unfold with_rels. simpl. by rewrite <- app_assoc.
Qed.

Lemma unique_append_food s ns :
  unique_int_key FoodCategory "id" s → Forall (fun n => nlabel n = Food) ns →
  unique_int_key FoodCategory "id" (with_nodes s (nodes s ++ ns)).
Proof.
  intros Hu Hns z. unfold match_nodes. rewrite with_nodes_nodes, find_indices_app.
  rewrite (find_indices_none _ ns), app_nil_r; [apply Hu |].
  eapply Forall_impl; [exact Hns |]. intros n Hn. unfold node_matches. by rewrite Hn.
Qed.

Lemma ext_length s s' : ext s s' → length (nodes s) ≤ length (nodes s').
Proof.
  intros [_ E]. destruct (nodes s) as [|n ns] eqn:En using rev_ind; [simpl; lia |].
  destruct (E (length ns) n) as (n' & Hn' & _).
  - by apply list_lookup_middle.
  - apply lookup_lt_Some in Hn'. rewrite length_app. simpl. lia.
Qed.

Lemma link_ok_ext s s' food r : ext s s' → link_ok s food r → link_ok s' food r.
Proof.
  intros [_ E] (Hk & (nf & Hnf & Hl & Hf) & (nc & Hnc & Hm)). split_and!; [done | |].
  - destruct (E _ _ Hnf) as (nf' & Hnf' & (Hl' & Hf' & _)). exists nf'.
    split_and!; [done | congruence | congruence].
  - destruct (E _ _ Hnc) as (nc' & Hnc' & (Hl' & _ & Hi')). exists nc'.
    split; [done |]. unfold node_matches in *. by rewrite Hl', Hi'.
Qed.

Lemma foods_query_int b s s' :
  unique_int_key FoodCategory "id" s →
  Forall (fun food => ∃ c, category_id food = VInt c) b →
  foods_query b s = Ok s' →
  ∃ links, rels s' = rels s ++ links
    ∧ Forall2 (link_ok s') b links
    ∧ Forall (fun r => length (nodes s) ≤ rsrc r < length (nodes s')) links
    ∧ NoDup (rsrc <$> links)
    ∧ unique_int_key FoodCategory "id" s'.
Proof.
  intros Hu Hb H. unfold foods_query in H.
  apply bind_Ok in H as ([rows1 s1] & H1 & H).
  apply bind_Ok in H as ([rows2 s2] & H2 & H).
  apply bind_Ok in H as ([rows3 s3] & H3 & H).
  apply bind_Ok in H as ([rows4 s4] & H4 & H). injection H as <-.
  assert (keeps s s1) as K1.
  { eapply clause_keeps_any; [|exact H1]. intros ????. apply merge_category_keeps. }
  assert (keeps s1 s2) as K2.
  { eapply clause_keeps_any; [|exact H2]. intros ????. apply create_food_keeps. }
  assert (keeps s2 s3) as K3.
  { eapply clause_keeps_any; [|exact H3]. intros ????. apply set_food_keeps. }
  assert (keeps s3 s4) as K4.
  { eapply clause_keeps_any; [|exact H4]. intros ????. apply link_category_keeps. }
  destruct (clause_merge_category _ _ _ _ Hu Hb H1) as (Hu1 & Hr1 & Hrows1).
  apply clause_create_food in H2 as [Hs2 ->].
  apply clause_set_food in H3 as (-> & Hr3 & Hk3).
  apply clause_link_category in H4 as Hs4.
  set (rows := zip_with (fun row i => (row.1, row.2, i)) rows1
                 (seq (length (nodes s1)) (length rows1))) in *.
  set (links := map (fun row : value * nat * nat => Rel BELONGS_TO row.2 row.1.2 []) rows) in *.
  assert (length rows1 = length b) as Hlen by (symmetry; by eapply Forall2_length).
  assert (length (nodes s4) = length (nodes s1) + length b) as Hn4.
  { rewrite Hs4. simpl. apply Forall2_length in Hk3. rewrite <- Hk3, Hs2.
    rewrite with_nodes_nodes, length_app, length_map. lia. }
  assert (∀ i r, links !! i = Some r →
            ∃ food fc, b !! i = Some food ∧ rows1 !! i = Some (food, fc)
              ∧ r = Rel BELONGS_TO (length (nodes s1) + i) fc []) as Hlinks.
  { intros i r Hi. unfold links, rows in Hi. rewrite list_lookup_fmap in Hi.
    rewrite lookup_zip_with in Hi.
    destruct (rows1 !! i) as [[food fc]|] eqn:E1; [|done]. simpl in Hi.
    destruct (seq (length (nodes s1)) (length rows1) !! i) as [j|] eqn:E2; [|done].
    simpl in Hi. injection Hi as <-. apply lookup_seq in E2 as [-> _].
    destruct (Forall2_lookup_r _ _ _ _ _ Hrows1 E1) as (food' & Hb' & (Hf' & _)).
    simpl in Hf'. subst food'. by exists food, fc. }
  exists links. split_and!.
  - rewrite Hs4. simpl. rewrite Hr3, Hs2. simpl. by rewrite Hr1.
  - apply Forall2_same_length_lookup. split.
    { unfold links, rows. rewrite length_map, length_zip_with, length_seq. lia. }
    intros i food r Hbi Hi.
    destruct (Hlinks _ _ Hi) as (food' & fc & Hb' & E1 & ->).
    rewrite Hbi in Hb'. injection Hb' as <-.
    destruct (Forall2_lookup_l _ _ _ _ _ Hrows1 Hbi) as (row & Hrow & (_ & Hfc)).
    rewrite E1 in Hrow. injection Hrow as <-. simpl in Hfc.
    apply (link_ok_ext s2); [eapply ext_trans; [apply K3 | apply K4] |].
    split_and!; [done | |]; simpl.
    + exists (Node Food (set_prop "fdcId" (cy_field food "fdcId") [])).
      split_and!; [| done |].
      * rewrite Hs2, with_nodes_nodes, lookup_app_r by lia.
        replace (length (nodes s1) + i - length (nodes s1)) with i by lia.
        rewrite list_lookup_fmap, E1. done.
      * simpl. rewrite get_prop_set. done.
    + apply (match_nodes_ext _ _ _ _ s2) in Hfc; [|by left | apply K2].
      by apply match_nodes_lookup in Hfc.
  - apply Forall_forall. intros r Hr. apply list_elem_of_lookup_1 in Hr as (i & Hi).
    destruct (Hlinks _ _ Hi) as (food & fc & Hb' & _ & ->). simpl.
    apply lookup_lt_Some in Hb'. pose proof (ext_length _ _ (proj1 K1)). lia.
  - unfold links, rows. rewrite <- list_fmap_compose.
    assert (∀ (l : list (value * nat)) (js : list nat), length l = length js →
              (rsrc ∘ (fun row : value * nat * nat => Rel BELONGS_TO row.2 row.1.2 []))
                <$> zip_with (fun row i => (row.1, row.2, i)) l js = js) as Hz.
    { induction l as [|x l IHl]; intros [|j js] Hl; simpl in *; try done. f_equal.
      apply IHl. lia. }
    rewrite Hz by (by rewrite length_seq). apply NoDup_seq.
  - intros z. rewrite Hs4.
    rewrite (match_nodes_nodes _ _ _ _ s3) by done.
    rewrite (same_keys_match _ _ _ s2 s3); [|by left | done].
    rewrite Hs2. apply unique_append_food; [done |].
    apply Forall_forall. intros n Hn. by apply list_elem_of_In, in_map_iff in Hn as (? & <- & _).
Qed.

Lemma run_foods_int bs s s' :
  unique_int_key FoodCategory "id" s →
  Forall (Forall (fun food => ∃ c, category_id food = VInt c)) bs →
  run_all (map foods_query bs) s = Done s' →
  ∃ links, rels s' = rels s ++ links
    ∧ Forall2 (link_ok s') (concat bs) links
    ∧ Forall (fun r => length (nodes s) ≤ rsrc r < length (nodes s')) links
    ∧ NoDup (rsrc <$> links)
    ∧ unique_int_key FoodCategory "id" s'.
Proof.
  intros Hu Hbs. revert s Hu. induction Hbs as [|b bs Hb Hbs IH]; intros s Hu H; simpl in H.
  - injection H as <-. exists []. rewrite app_nil_r.
    split_and!; [done | constructor | constructor | constructor | done].
  - unfold session_run in H. destruct (foods_query b s) as [s1|] eqn:E; [|done].
    cbn [and_then] in H.
    pose proof (foods_query_keeps _ _ _ E) as K1.
    pose proof (run_all_keeps (map foods_query bs) s1) as K2. rewrite H in K2.
    simpl in K2. specialize (K2 ltac:(apply Forall_forall; intros q Hq;
      apply list_elem_of_In, in_map_iff in Hq as (b' & <- & _); apply foods_query_keeps)).
    destruct (foods_query_int _ _ _ Hu Hb E) as (l1 & Hr1 & Hl1 & Hb1 & Hd1 & Hu1).
    destruct (IH _ Hu1 H) as (l2 & Hr2 & Hl2 & Hb2 & Hd2 & Hu2).
    pose proof (ext_length _ _ (proj1 K1)). pose proof (ext_length _ _ (proj1 K2)).
    exists (l1 ++ l2). split_and!.
    + by rewrite Hr2, Hr1, <- app_assoc.
    + simpl. apply Forall2_app; [|done].
      eapply Forall2_impl; [exact Hl1 |]. intros food r. apply link_ok_ext, K2.
    + apply Forall_app. split.
      * eapply Forall_impl; [exact Hb1 |]. simpl. intros r ?. lia.
      * eapply Forall_impl; [exact Hb2 |]. simpl. intros r ?. lia.
    + rewrite fmap_app. apply NoDup_app. split_and!; [done | | done].
      intros j Hj1 Hj2.
      apply list_elem_of_fmap in Hj1 as (r1 & -> & Hr1').
      apply list_elem_of_fmap in Hj2 as (r2 & Hrr & Hr2').
      rewrite Forall_forall in Hb1, Hb2.
      specialize (Hb1 _ Hr1'). specialize (Hb2 _ Hr2'). lia.
    + done.
Qed.

(** C7. On a store where an integer identifies at most one category,
    [create_foods_and_categories], when it completes, creates one
    BELONGS_TO relationship per food record, in input order: it links a
    new Food node that carries the record's [fdcId], and no other record's
    node, to a FoodCategory node that carries the record's category
    identifier. *)
Theorem one_category_link_per_food (foods : list value) (s s' : store) :
  unique_int_key FoodCategory "id" s →
  Forall (fun food => ∃ c, category_id food = VInt c) foods →
  create_foods_and_categories foods s = Done s' →
  ∃ links, rels s' = rels s ++ links
    ∧ length links = length foods
    ∧ (∀ i food, foods !! i = Some food →
         ∃ r, links !! i = Some r ∧ link_ok s' food r)
    ∧ NoDup (rsrc <$> links)
    ∧ Forall (fun r => length (nodes s) ≤ rsrc r) links.
Proof.
  intros Hu Hf H. unfold create_foods_and_categories in H.
  apply run_foods_int in H as (links & Hr & Hl & Hb & Hd & _); [|done |].
  - rewrite batches_concat in Hl by (unfold FOOD_BATCH_SIZE; lia).
    exists links. split_and!; [done | symmetry; by eapply Forall2_length | | done |].
    + intros i food Hi. destruct (Forall2_lookup_l _ _ _ _ _ Hl Hi) as (r & ? & ?). eauto.
    + eapply Forall_impl; [exact Hb |]. simpl. intros r ?. lia.
  - apply Forall_concat. by rewrite batches_concat by (unfold FOOD_BATCH_SIZE; lia).
Qed.

(** ** Creating a food twice *)

Lemma clause_elem {R R'} (step : R → store → result (list R' * store)) rows s outs s' r :
  (∀ r s out s', step r s = Ok (out, s') → keeps s s') →
  clause step rows s = Ok (outs, s') → r ∈ rows →
  ∃ s1 out s2, keeps s s1 ∧ step r s1 = Ok (out, s2) ∧ ∀ o, o ∈ out → o ∈ outs.
Proof.
  intros Hstep. revert s outs. induction rows as [|r0 rows IH]; intros s outs H Hr.
  - by apply elem_of_nil in Hr.
  - simpl in H. apply bind_Ok in H as ([o s1] & H1 & H).
    apply bind_Ok in H as ([os s2] & H2 & H). injection H as <- <-.
    apply elem_of_cons in Hr as [->|Hr].
    + exists s, o, s1. split_and!; [apply keeps_refl | done |].
      intros x Hx. apply elem_of_app. by left.
    + destruct (IH _ _ H2 Hr) as (sa & out & sb & K & Hs & Hout).
      exists sa, out, sb. split_and!; [|done |].
      * eapply keeps_trans; [by eapply Hstep | done].
      * intros x Hx. apply elem_of_app. right. by apply Hout.
Qed.

Lemma run_all_elem (q : list value → store → result store) bs s s' b :
  (∀ b s s', q b s = Ok s' → keeps s s') →
  run_all (map q bs) s = Done s' → b ∈ bs →
  ∃ s1 s2, keeps s s1 ∧ q b s1 = Ok s2.
Proof.
  intros Hq. revert s. induction bs as [|b0 bs IH]; intros s H Hb.
  - by apply elem_of_nil in Hb.
  - simpl in H. unfold session_run in H. destruct (q b0 s) as [s1|] eqn:E; [|done].
    cbn [and_then] in H. apply elem_of_cons in Hb as [->|Hb].
    + exists s, s1. split; [apply keeps_refl | done].
    + destruct (IH _ H Hb) as (sa & sb & K & Hs). exists sa, sb.
      split; [|done]. eapply keeps_trans; [by eapply Hq | done].
Qed.

Lemma merge_category_row food s rows s' :
  merge_category food s = Ok (rows, s') → ∃ fc, (food, fc) ∈ rows.
Proof.
  unfold merge_category. intros H.
  apply bind_Ok in H as (cat & _ & H). apply bind_Ok in H as (cid & _ & H).
  apply bind_Ok in H as ([fcs s1] & H1 & H). injection H as <- <-.
  assert (fcs ≠ []) as Hne.
  { unfold merge_node in H1.
    destruct (match_nodes FoodCategory "id" cid s) as [|m ms] eqn:Hm.
    - destruct cid; try done;
        apply bind_Ok in H1 as ([i s2] & _ & H1); apply bind_Ok in H1 as (s3 & _ & H1);
        by injection H1 as <- <-.
    - destruct cid; try done; by injection H1 as <- <-. }
  destruct fcs as [|fc fcs]; [done |]. exists fc. simpl. by left.
Qed.

Lemma create_food_present food fc s out s' :
  constrained Food "fdcId" s = true →
  match_nodes Food "fdcId" (cy_field food "fdcId") s ≠ [] →
  create_food (food, fc) s = Ok (out, s') → False.
Proof.
  intros Hc Hm H. unfold create_food in H.
  apply bind_Ok in H as (fid & Hfid & H). apply bind_Ok in H as ([f s1] & H1 & _).
  apply cy_access_field in Hfid. subst fid.
  apply create_node_Ok in H1 as (_ & _ & Hv). unfold violates in Hv. rewrite Hc in Hv.
  simpl in Hv. destruct (match_nodes Food "fdcId" (cy_field food "fdcId") s) as [|j js] eqn:E;
    [done |].
  assert (j ∈ match_nodes Food "fdcId" (cy_field food "fdcId") s) as Hj
    by (rewrite E; by left).
  apply match_nodes_lookup in Hj as (n & Hn & _). apply lookup_lt_Some in Hn.
  simpl in Hv. apply orb_false_iff in Hv as [Hv _].
  apply negb_false_iff, Nat.eqb_eq in Hv. lia.
Qed.

Lemma match_nodes_keeps l v s s' :
  keeps s s' → match_nodes l "fdcId" v s ≠ [] → match_nodes l "fdcId" v s' ≠ [].
Proof.
  intros [E _] Hm. destruct (match_nodes l "fdcId" v s) as [|j js] eqn:Ej; [done |].
  assert (j ∈ match_nodes l "fdcId" v s') as Hj.
  { eapply match_nodes_ext; [by right | done | rewrite Ej; by left]. }
  intros E'. rewrite E' in Hj. by apply elem_of_nil in Hj.
Qed.

Lemma foods_query_present b s s' food :
  constrained Food "fdcId" s = true → food ∈ b →
  match_nodes Food "fdcId" (cy_field food "fdcId") s ≠ [] →
  foods_query b s = Ok s' → False.
Proof.
  intros Hc Hb Hm H. unfold foods_query in H.
  apply bind_Ok in H as ([rows1 s1] & H1 & H).
  apply bind_Ok in H as ([rows2 s2] & H2 & _).
  assert (keeps s s1) as K1.
  { eapply clause_keeps_any; [|exact H1]. intros ????. apply merge_category_keeps. }
  destruct (clause_elem _ _ _ _ _ food
              (fun r s out s' => merge_category_keeps r s out s') H1 Hb)
    as (sa & out & sb & _ & Hs & Hout).
  destruct (merge_category_row _ _ _ _ Hs) as (fc & Hfc). apply Hout in Hfc.
  destruct (clause_elem _ _ _ _ _ (food, fc)
              (fun r s out s' => create_food_keeps r s out s') H2 Hfc)
    as (sc & out' & sd & Kc & Hcf & _).
  assert (keeps s sc) as K by (by eapply keeps_trans).
  eapply create_food_present; [| |exact Hcf].
  - by apply (proj1 (proj1 K)).
  - by eapply match_nodes_keeps.
Qed.

Lemma cy_field_int m k z : cy_field m k = VInt z → cy_access m k = Ok (VInt z).
Proof. unfold cy_field. destruct (cy_access m k); [by intros -> | done]. Qed.

Lemma category_id_int food c :
  category_id food = VInt c →
  ∃ cat, cy_access food "foodCategory" = Ok cat ∧ cy_access cat "id" = Ok (VInt c).
Proof.
  unfold category_id. intros H. apply cy_field_int in H.
  exists (cy_field food "foodCategory"). split; [|done]. unfold cy_field in *.
  destruct (cy_access food "foodCategory"); [done |]. simpl in H. done.
Qed.

Lemma merge_category_matched food c s :
  category_id food = VInt c → match_nodes FoodCategory "id" (VInt c) s ≠ [] →
  ∃ fc fcs, merge_category food s = Ok ((food, fc) :: fcs, s).
Proof.
  intros (cat & Hcat & Hcid)%category_id_int Hm. unfold merge_category.
  rewrite Hcat. cbn [bind]. rewrite Hcid. cbn [bind]. unfold merge_node.
  destruct (match_nodes FoodCategory "id" (VInt c) s) as [|m ms]; [done |].
  cbn [bind map]. eauto.
Qed.

Lemma clause_merge_category_matched b s :
  Forall (fun food => ∃ c, category_id food = VInt c
            ∧ match_nodes FoodCategory "id" (VInt c) s ≠ []) b →
  ∃ rows, clause merge_category b s = Ok (rows, s)
    ∧ ∀ food0 b', b = food0 :: b' → ∃ fc rows', rows = (food0, fc) :: rows'.
Proof.
  induction 1 as [|food b (c & Hc & Hm) _ (rows & IH & _)]; simpl.
  - exists []. split; [done |]. intros ?? [=].
  - destruct (merge_category_matched _ _ _ Hc Hm) as (fc & fcs & ->). cbn [bind].
    rewrite IH. cbn [bind]. eexists. split; [done |].
    intros food0 b' [= <- <-]. simpl. eauto.
Qed.

Lemma violates_present l k v s :
  constrained l k s = true → match_nodes l k v s ≠ [] →
  violates l k v (length (nodes s)) s = true.
Proof.
  intros Hc Hm. unfold violates. rewrite Hc. simpl.
  destruct (match_nodes l k v s) as [|j js] eqn:E; [done |].
  assert (j ∈ match_nodes l k v s) as Hj by (rewrite E; by left).
  apply match_nodes_lookup in Hj as (n & Hn & _). apply lookup_lt_Some in Hn.
  simpl. apply orb_true_iff. left. apply negb_true_iff, Nat.eqb_neq. lia.
Qed.

Lemma foods_query_rerun food0 b k s :
  constrained Food "fdcId" s = true →
  cy_field food0 "fdcId" = VInt k →
  match_nodes Food "fdcId" (VInt k) s ≠ [] →
  Forall (fun food => ∃ c, category_id food = VInt c
            ∧ match_nodes FoodCategory "id" (VInt c) s ≠ []) (food0 :: b) →
  foods_query (food0 :: b) s = Err ConstraintError.
Proof.
  intros Hc Hk Hm Hb. unfold foods_query.
  destruct (clause_merge_category_matched _ _ Hb) as (rows & -> & Hrows).
  destruct (Hrows _ _ eq_refl) as (fc & rows' & ->). cbn [bind clause].
  unfold create_food at 1. rewrite (cy_field_int _ _ _ Hk). cbn [bind].
  unfold create_node. simpl storable. cbn [negb]. by rewrite violates_present.
Qed.

Lemma batches_head {A} (x : A) (l : list A) :
  ∃ b bs, batches FOOD_BATCH_SIZE (x :: l) = (x :: b) :: bs ∧ ∀ y, y ∈ b → y ∈ l.
Proof.
  destruct (batches FOOD_BATCH_SIZE (x :: l)) as [|b0 bs] eqn:E.
  - apply (f_equal length) in E. rewrite batches_length in E.
    unfold FOOD_BATCH_SIZE in E. cbn [length] in E.
    pose proof (Nat.div_mod_eq (S (length l) + 100 - 1) 100) as Hd.
    pose proof (Nat.mod_upper_bound (S (length l) + 100 - 1) 100) as Hm.
    rewrite E in Hd. lia.
  - assert (batches FOOD_BATCH_SIZE (x :: l) !! 0 = Some b0) as H0 by (by rewrite E).
    apply batches_lookup in H0 as [_ ->]. simpl. exists (take 99 l), bs.
    split; [done |]. intros y Hy. by apply (subseteq_take 99 l).
Qed.

Lemma link_ok_loaded s food r k c :
  cy_field food "fdcId" = VInt k → category_id food = VInt c → link_ok s food r →
  match_nodes Food "fdcId" (VInt k) s ≠ []
  ∧ match_nodes FoodCategory "id" (VInt c) s ≠ [].
Proof.
  intros Hk Hc (_ & (nf & Hnf & Hl & Hf) & (nc & Hnc & Hm)). split.
  - assert (rsrc r ∈ match_nodes Food "fdcId" (VInt k) s) as Hin.
    { apply match_nodes_lookup. exists nf. split; [done |]. unfold node_matches.
      rewrite Hl, Hf, Hk, cy_eqb_int. rewrite !bool_decide_eq_true_2; done. }
    intros E. rewrite E in Hin. by apply elem_of_nil in Hin.
  - assert (rdst r ∈ match_nodes FoodCategory "id" (VInt c) s) as Hin.
    { apply match_nodes_lookup. exists nc. split; [done |]. by rewrite <- Hc. }
    intros E. rewrite E in Hin. by apply elem_of_nil in Hin.
Qed.

(** C3. Creating foods is not idempotent.  With the uniqueness constraint
    on [Food.fdcId] in place, [create_foods_and_categories] aborts on every
    input that holds a food whose identifier a Food node of the store
    already carries; and when a run has completed, running it again on the
    same input fails on the first statement with the uniqueness-constraint
    error and leaves the store as it was. *)
Theorem food_creation_not_idempotent (foods : list value) (s : store) :
  constrained Food "fdcId" s = true →
  (∀ food, food ∈ foods →
     match_nodes Food "fdcId" (cy_field food "fdcId") s ≠ [] →
     ∃ e st, create_foods_and_categories foods s = Abort e st)
  ∧ (∀ s0, unique_int_key FoodCategory "id" s0 →
       foods ≠ [] →
       Forall (fun food => ∃ k c, cy_field food "fdcId" = VInt k
                 ∧ category_id food = VInt c) foods →
       create_foods_and_categories foods s0 = Done s →
       create_foods_and_categories foods s = Abort ConstraintError s).
Proof.
  intros Hc. split.
  - intros food Hin Hm.
    destruct (create_foods_and_categories foods s) as [s'|e st] eqn:E; [|eauto].
    exfalso. unfold create_foods_and_categories in E.
    assert (∃ b, b ∈ batches FOOD_BATCH_SIZE foods ∧ food ∈ b) as (b & Hb & Hfb).
    { pose proof (batches_concat FOOD_BATCH_SIZE foods
                    ltac:(unfold FOOD_BATCH_SIZE; lia)) as Ec.
      rewrite <- Ec in Hin. apply list_elem_of_In, in_concat in Hin as (b & Hb & Hfb).
      exists b. split; by apply list_elem_of_In. }
    destruct (run_all_elem foods_query _ _ _ b foods_query_keeps E Hb) as (s1 & s2 & K & Hq).
    eapply (foods_query_present b s1 s2 food); [| done | | done].
    + by apply (proj1 (proj1 K)).
    + by eapply match_nodes_keeps.
  - intros s0 Hu Hne Hint H0.
    assert (Forall (fun food => ∃ c, category_id food = VInt c) foods) as Hcat.
    { eapply Forall_impl; [exact Hint |]. intros food (k & c & _ & ?). eauto. }
    unfold create_foods_and_categories in H0.
    apply run_foods_int in H0 as (links & _ & Hl & _); [|done |].
    2:{ apply Forall_concat. by rewrite batches_concat by (unfold FOOD_BATCH_SIZE; lia). }
    rewrite batches_concat in Hl by (unfold FOOD_BATCH_SIZE; lia).
    assert (Forall (fun food => ∃ k c, cy_field food "fdcId" = VInt k
                      ∧ category_id food = VInt c
                      ∧ match_nodes Food "fdcId" (VInt k) s ≠ []
                      ∧ match_nodes FoodCategory "id" (VInt c) s ≠ []) foods) as Hloaded.
    { apply Forall_forall. intros food Hin. rewrite Forall_forall in Hint.
      destruct (Hint _ Hin) as (k & c & Hk & Hcid).
      apply list_elem_of_lookup_1 in Hin as (i & Hi).
      destruct (Forall2_lookup_l _ _ _ _ _ Hl Hi) as (r & _ & Hok).
      destruct (link_ok_loaded _ _ _ _ _ Hk Hcid Hok). exists k, c. done. }
    destruct foods as [|food0 rest]; [done |].
    destruct (batches_head food0 rest) as (b & bs & Eb & Hsub).
    unfold create_foods_and_categories. rewrite Eb. simpl. unfold session_run.
    apply Forall_cons in Hloaded as Hl0. destruct Hl0 as [(k & c & Hk & _ & Hm & _) Hrest].
    rewrite (foods_query_rerun food0 b k s); [done | done | done | done |].
    apply Forall_forall. intros food Hin. rewrite Forall_forall in Hloaded.
    destruct (Hloaded food) as (k' & c' & _ & Hc' & _ & Hm').
    { apply elem_of_cons in Hin as [->|Hin]; [by left | right; by apply Hsub]. }
    eauto.
Qed.

(** * Further properties of the loader *)

(** ** Loading and the confirmation prompt *)

(** X1. [load_json_data] returns the document exactly when the file is
    read as text, the text parses to an object, and the value under
    [FoundationFoods] has a length: a list, but an object or a string as
    well.  When the value under the key has no length (null, a number, a
    boolean) the progress line raises TypeError and nothing is returned,
    though the document was parsed. *)
Theorem load_json_data_returns (jl : string → option value)
    (fs : string → option string) (filepath : string) :
  (∀ data, load_json_data jl fs filepath = Ok data
     ↔ ∃ text d v, fs filepath = Some text ∧ jl text = Some data ∧ data = VDict d
         ∧ dict_lookup "FoundationFoods" d = Some v ∧ sized v)
  ∧ (∀ text d v, fs filepath = Some text → jl text = Some (VDict d) →
       dict_lookup "FoundationFoods" d = Some v →
       (load_json_data jl fs filepath = Err TypeError ↔ ¬ sized v)
       ∧ ((∃ l, v = VList l) ∨ (∃ m, v = VDict m) ∨ (∃ t, v = VStr t) →
          load_json_data jl fs filepath = Ok (VDict d))).
Proof.
  split.
  - intros data. unfold load_json_data. split.
    + destruct (fs filepath) as [text|]; [|done].
      destruct (jl text) as [data'|] eqn:Ej; [|done].
      destruct data' as [| | | | | |d]; try done. simpl.
      destruct (dict_lookup "FoundationFoods" d) as [v|] eqn:Ek; [|done]. simpl.
      destruct v; simpl; try done; intros [= <-]; by exists text, d; eexists.
    + intros (text & d & v & -> & -> & -> & Hk & Hv). simpl. rewrite Hk. simpl.
      by destruct v.
  - intros text d v Hfs Hjl Hk. unfold load_json_data. rewrite Hfs, Hjl. simpl.
    rewrite Hk. simpl. split.
    + destruct v; simpl; split; try done; try (by intros H; destruct H); tauto.
    + intros [[l ->]|[[m ->]|[t ->]]]; done.
Qed.

(** X2. When the file cannot be loaded, [run_import] aborts before any
    statement is sent: the store is left as it was, without the schema.
    This holds of every error of [load_json_data], and so of a missing
    file, of text that does not parse, of a document without the key, and
    of a value under the key that has no length. *)
Theorem run_import_load_failure (pf : string → option spec_float)
    (jl : string → option value) (fs : string → option string)
    (json_file : string) (s : store) :
  (fs json_file = None →
     run_import pf jl fs json_file s = Abort FileNotFoundError s)
  ∧ (∀ text, fs json_file = Some text → jl text = None →
       run_import pf jl fs json_file s = Abort JSONDecodeError s)
  ∧ (∀ text d, fs json_file = Some text → jl text = Some (VDict d) →
       dict_lookup "FoundationFoods" d = None →
       run_import pf jl fs json_file s = Abort (KeyError "FoundationFoods") s)
  ∧ (∀ text d v, fs json_file = Some text → jl text = Some (VDict d) →
       dict_lookup "FoundationFoods" d = Some v → ¬ sized v →
       run_import pf jl fs json_file s = Abort TypeError s)
  ∧ (∀ e, load_json_data jl fs json_file = Err e →
       run_import pf jl fs json_file s = Abort e s).
Proof.
  unfold run_import. split_and!.
  - unfold load_json_data. by intros ->.
  - unfold load_json_data. by intros text -> ->.
  - unfold load_json_data. intros text d -> -> Hk. simpl. by rewrite Hk.
  - unfold load_json_data. intros text d v -> -> Hk Hv. simpl. rewrite Hk. simpl.
    destruct v; simpl in *; done.
  - by intros e ->.
Qed.

Lemma ascii_lower_y c : ascii_lower c = "y"%char → c = "y"%char ∨ c = "Y"%char.
Proof.
  destruct c as [[] [] [] [] [] [] [] []]; vm_compute; intros H;
    first [discriminate H | by left | by right].
Qed.

Lemma ascii_lower_e c : ascii_lower c = "e"%char → c = "e"%char ∨ c = "E"%char.
Proof.
  destruct c as [[] [] [] [] [] [] [] []]; vm_compute; intros H;
    first [discriminate H | by left | by right].
Qed.

Lemma ascii_lower_s c : ascii_lower c = "s"%char → c = "s"%char ∨ c = "S"%char.
Proof.
  destruct c as [[] [] [] [] [] [] [] []]; vm_compute; intros H;
    first [discriminate H | by left | by right].
Qed.

(** X3. [main] imports only on an answer that is "yes" or "y" in any
    letter case, with nothing around it; on every other answer, the empty
    one included, it returns without touching the store. *)
Theorem main_confirmation (pf : string → option spec_float)
    (jl : string → option value) (fs : string → option string)
    (response : string) (s : store) :
  (confirmed response = true ↔
     response ∈ ["yes"; "yeS"; "yEs"; "yES"; "Yes"; "YeS"; "YEs"; "YES"; "y"; "Y"])
  ∧ (confirmed response = false → main pf jl fs response s = Done s)
  ∧ (confirmed response = true →
       main pf jl fs response s = run_import pf jl fs JSON_FILE s).
Proof.
  split_and!.
  - split.
    + unfold confirmed. intros [H|H]%orb_true_iff; apply String.eqb_eq in H.
      * destruct response as [|c1 [|c2 [|c3 [|c4 r]]]]; try discriminate H.
        simpl in H. injection H as H1 H2 H3.
        apply ascii_lower_y in H1 as [-> | ->]; apply ascii_lower_e in H2 as [-> | ->];
          apply ascii_lower_s in H3 as [-> | ->]; set_solver.
      * destruct response as [|c1 [|c2 r]]; try discriminate H.
        simpl in H. injection H as H1.
        apply ascii_lower_y in H1 as [-> | ->]; set_solver.
    + intros H. repeat (apply elem_of_cons in H as [->|H]; [vm_compute; reflexivity |]).
      by apply elem_of_nil in H.
  - unfold main. by intros ->.
  - unfold main. by intros ->.
Qed.

(** ** Batches and statements *)

Lemma batches_app_full {A} (size : nat) (b rest : list A) :
  0 < size → length b = size → batches size (b ++ rest) = b :: batches size rest.
Proof.
  intros Hs Hb. apply list_eq. intros i.
  assert ((length (b ++ rest) + size - 1) / size = S ((length rest + size - 1) / size)) as Hq.
  { rewrite length_app, Hb.
    replace (size + length rest + size - 1) with (length rest + size - 1 + 1 * size) by lia.
    rewrite Nat.div_add by lia. lia. }
  destruct (batches size (b ++ rest) !! i) as [x|] eqn:E.
  - apply batches_lookup in E as [Hi ->]. rewrite Hq in Hi. symmetry.
    destruct i as [|j]; simpl.
    + by rewrite drop_0, take_app_length' by done.
    + apply batches_lookup. split; [lia |].
      rewrite drop_app_ge by lia. rewrite Hb. do 2 f_equal. lia.
  - symmetry. destruct i as [|j]; simpl.
    + assert (batches size (b ++ rest) !! 0 = Some (take size (drop (0 * size) (b ++ rest))))
        as E' by (apply batches_lookup; split; [lia | done]).
      congruence.
    + destruct (batches size rest !! j) as [y|] eqn:E'; [|done].
      apply batches_lookup in E' as [Hj _].
      assert (batches size (b ++ rest) !! S j
              = Some (take size (drop (S j * size) (b ++ rest)))) as E''
        by (apply batches_lookup; split; [lia | done]).
      congruence.
Qed.

(** X4. The foods are written one statement per hundred, and a statement
    is all or nothing: the first hundred foods go through one statement,
    the rest follow through the same function, and when the statement of
    the first hundred fails nothing at all is written, whichever food of
    the hundred caused the failure. *)
Theorem food_batches_compose (b rest : list value) (s : store) :
  length b = 100 →
  create_foods_and_categories (b ++ rest) s
  = and_then (session_run (foods_query b) s) (create_foods_and_categories rest)
  ∧ (∀ e, foods_query b s = Err e →
       create_foods_and_categories (b ++ rest) s = Abort e s)
  ∧ (∀ s1, foods_query b s = Ok s1 →
       create_foods_and_categories (b ++ rest) s
       = create_foods_and_categories rest s1).
Proof.
  intros Hb.
  assert (create_foods_and_categories (b ++ rest) s
          = and_then (session_run (foods_query b) s) (create_foods_and_categories rest)) as E.
  { unfold create_foods_and_categories.
    rewrite batches_app_full by (unfold FOOD_BATCH_SIZE; lia). done. }
  split_and!; [done | |].
  - intros e He. rewrite E. unfold session_run. by rewrite He.
  - intros s1 H1. rewrite E. unfold session_run. by rewrite H1.
Qed.

Lemma run_all_nutrients_iff bs s s' :
  run_all (map nutrients_query bs) s = Done s' ↔ nutrients_query (concat bs) s = Ok s'.
Proof.
  revert s. induction bs as [|b bs IH]; intros s; simpl.
  - unfold nutrients_query. simpl. split; by intros [= <-].
  - unfold session_run. unfold nutrients_query at 1 3. rewrite clause_app.
    destruct (clause merge_nutrient b s) as [[o s1]|] eqn:E; simpl; [|done].
    rewrite IH. unfold nutrients_query.
    destruct (clause merge_nutrient (concat bs) s1) as [[o2 s2]|]; simpl; done.
Qed.

(** X5. Batching the nutrients does not change what a completed run
    writes: [create_nutrients] completes with a store exactly when the one
    statement over all the collected nutrients would succeed with that
    store. *)
Theorem nutrient_batches_transparent (foods : list value) (nutrients : pydict)
    (s s' : store) :
  collect_nutrients foods = Ok nutrients →
  (create_nutrients foods s = Done s'
   ↔ nutrients_query (dict_values nutrients) s = Ok s').
Proof.
  intros Hc. unfold create_nutrients. rewrite Hc, run_all_nutrients_iff.
  by rewrite batches_concat by (unfold NUTRIENT_BATCH_SIZE; lia).
Qed.

Lemma foldM_Err {A B} (f : A → B → result A) l1 x l2 a a' e :
  foldM f l1 a = Ok a' → f a' x = Err e → foldM f (l1 ++ x :: l2) a = Err e.
Proof. intros H1 Hx. rewrite foldM_app, H1. simpl. by rewrite Hx. Qed.

(** X6. [create_nutrients] reads the whole input before it writes: when
    some entry has no [nutrient], or its nutrient has no [id], the call
    raises KeyError and the store is left as it was, wherever in the input
    the entry stands. *)
Theorem create_nutrients_missing_key (pre post es1 es2 : list value)
    (fd bad : list (string * value)) (refs : list (Z * value))
    (refs1 : list (Z * value)) (s : store) :
  nutrient_refs pre = Some refs →
  dict_lookup "foodNutrients" fd = Some (VList (es1 ++ VDict bad :: es2)) →
  mapM entry_ref es1 = Some refs1 →
  (dict_lookup "nutrient" bad = None →
     create_nutrients (pre ++ VDict fd :: post) s = Abort (KeyError "nutrient") s)
  ∧ (∀ n, dict_lookup "nutrient" bad = Some (VDict n) → dict_lookup "id" n = None →
       create_nutrients (pre ++ VDict fd :: post) s = Abort (KeyError "id") s).
Proof.
  intros Hpre Hfd Hes1.
  assert (∀ e, collect_fn (emb (dedup (dedup [] refs) refs1)) (VDict bad) = Err e →
            create_nutrients (pre ++ VDict fd :: post) s = Abort e s) as Hgen.
  { intros e He. unfold create_nutrients, collect_nutrients.
    erewrite foldM_Err; [done | by apply collect_nutrients_refs |].
    unfold collect_food. simpl. rewrite Hfd. simpl.
    erewrite foldM_Err; [done | by apply collect_fns_refs | done]. }
  split.
  - intros Hn. apply Hgen. unfold collect_fn. simpl. by rewrite Hn.
  - intros n Hn Hid. apply Hgen. unfold collect_fn. simpl. rewrite Hn. simpl.
    by rewrite Hid.
Qed.

(** ** The measurement statement as a function of the nodes *)

Lemma set_rel_props_middle_eq s A r B kvs :
  set_rel_props (length A) kvs (with_rels s (A ++ r :: B))
  = let* _ := sets_check kvs in
    Ok (with_rels s
          (A ++ Rel (rkind r) (rsrc r) (rdst r) (apply_sets kvs (rprops r)) :: B)).
Proof.
  revert r. induction kvs as [|[k e] kvs IH]; intros r; simpl.
  - by destruct r.
  - destruct e as [v|e]; simpl; [|done].
    unfold set_rel_prop. simpl. rewrite list_lookup_middle by done.
    destruct (storable v); simpl; [|done].
    replace (<[length A := Rel (rkind r) (rsrc r) (rdst r) (set_prop k v (rprops r))]>
               (A ++ r :: B))
      with (A ++ Rel (rkind r) (rsrc r) (rdst r) (set_prop k v (rprops r)) :: B).
    + apply (IH (Rel (rkind r) (rsrc r) (rdst r) (set_prop k v (rprops r)))).
    + replace (length A) with (length A + 0) by lia. by rewrite insert_app_r.
Qed.

Lemma clause_create_measurement_eq rows s :
  clause create_measurement rows s
  = Ok (zip (map (fun r => r.1.2) rows) (seq (length (rels s)) (length rows)),
        with_rels s (rels s ++ map (fun r => Rel HAS_NUTRIENT r.1.1 r.2 []) rows)).
Proof.
  revert s. induction rows as [|[[f nd] n] rows IH]; intros s; simpl.
  - by rewrite app_nil_r, with_rels_id.
  - rewrite IH. simpl. rewrite length_app. simpl.
    replace (length (rels s) + 1) with (S (length (rels s))) by lia.
    unfold with_rels. simpl. by rewrite <- app_assoc.
Qed.

Lemma clause_set_measurement_eq pf s A (rows : list (nat * value * nat)) :
  clause (set_measurement pf)
    (zip (map (fun r => r.1.2) rows) (seq (length A) (length rows)))
    (with_rels s (A ++ map (fun r => Rel HAS_NUTRIENT r.1.1 r.2 []) rows))
  = let* _ := rows_check pf rows in
    Ok (seq (length A) (length rows), with_rels s (A ++ map (measurement pf) rows)).
Proof.
  revert A. induction rows as [|[[f nd] n] rows IH]; intros A; [done |].
  cbn [map length seq zip zip_with clause fst snd rows_check].
  unfold set_measurement at 1. rewrite set_rel_props_middle_eq.
  destruct (sets_check (measurement_fields pf nd)) as [[]|e];
    cbn [bind rkind rsrc rdst rprops]; [|done].
  replace (A ++ Rel HAS_NUTRIENT f n (apply_sets (measurement_fields pf nd) [])
             :: map (fun r => Rel HAS_NUTRIENT r.1.1 r.2 []) rows)
    with ((A ++ [measurement pf (f, nd, n)])
            ++ map (fun r => Rel HAS_NUTRIENT r.1.1 r.2 []) rows)
    by (by rewrite <- app_assoc).
  replace (S (length A)) with (length (A ++ [measurement pf (f, nd, n)]))
    by (rewrite length_app; simpl; lia).
  rewrite IH. destruct (rows_check pf rows) as [[]|e]; cbn [bind]; [|done].
  by rewrite <- app_assoc.
Qed.

Lemma measurements_query_eq pf fid nds s :
  measurements_query pf fid nds s
  = let* (rows, _) :=
      clause match_nutrient
        (flat_map (fun f => map (fun nd => (f, nd)) nds)
                  (match_nodes Food "fdcId" fid s)) s in
    let* _ := rows_check pf rows in
    Ok (with_rels s (rels s ++ map (measurement pf) rows)).
Proof.
  unfold measurements_query.
  destruct (clause match_nutrient _ s) as [[rows s2]|] eqn:E; simpl; [|done].
  apply clause_match_nutrient_store in E as ->.
  rewrite clause_create_measurement_eq. simpl.
  rewrite (clause_set_measurement_eq pf s (rels s) rows).
  by destruct (rows_check pf rows) as [[]|].
Qed.

Lemma clause_match_nutrient_nodes rows s t :
  nodes t = nodes s →
  clause match_nutrient rows t
  = let* (r, _) := clause match_nutrient rows s in Ok (r, t).
Proof.
  intros Hn. induction rows as [|[f nd] rows IH]; simpl; [done |].
  destruct (cy_access nd "nutrient_id") as [nid|]; simpl; [|done].
  rewrite (match_nodes_nodes _ _ _ t s) by done. rewrite IH.
  pose proof (clause_match_nutrient_store rows s) as Hs.
  destruct (clause match_nutrient rows s) as [[r s2]|]; simpl; [|done].
  done.
Qed.

Lemma measurements_query_replay pf fid nds s s' t :
  nodes t = nodes s →
  measurements_query pf fid nds s = Ok s' →
  measurements_query pf fid nds t
  = Ok (with_rels t (rels t ++ drop (length (rels s)) (rels s'))).
Proof.
  intros Hn. rewrite !measurements_query_eq.
  rewrite (match_nodes_nodes _ _ _ t s) by done.
  rewrite (clause_match_nutrient_nodes _ s t) by done.
  destruct (clause match_nutrient _ s) as [[rows s2]|]; simpl; [|done].
  destruct (rows_check pf rows) as [[]|]; simpl; [|done].
  intros [= <-]. simpl. by rewrite drop_app_length.
Qed.

Lemma create_nutrient_relationships_app_eq pf pre l s :
  create_nutrient_relationships pf (pre ++ l) s
  = and_then (create_nutrient_relationships pf pre s) (create_nutrient_relationships pf l).
Proof.
  revert s. induction pre as [|food pre IH]; intros s; simpl; [done |].
  destruct (measurement_params food) as [[fid nd]|]; [|done].
  destruct (session_run (measurements_query pf fid nd) s); simpl; [apply IH | done].
Qed.

(** X7. [create_nutrient_relationships] only adds measurements: in the
    store it leaves, whether it completes or aborts, the nodes, constraints
    and indexes are those it found, the relationships it found are still
    there, unchanged and in place, and every relationship after them is a
    HAS_NUTRIENT one. *)
Theorem measurements_only_added (pf : string → option spec_float)
    (foods : list value) (s : store) :
  nodes (final (create_nutrient_relationships pf foods s)) = nodes s
  ∧ constraints (final (create_nutrient_relationships pf foods s)) = constraints s
  ∧ indexes (final (create_nutrient_relationships pf foods s)) = indexes s
  ∧ ∃ new, rels (final (create_nutrient_relationships pf foods s)) = rels s ++ new
      ∧ Forall (fun r => rkind r = HAS_NUTRIENT) new.
Proof.
  revert s. induction foods as [|food foods IH]; intros s; simpl.
  - split_and!; try done. exists []. by rewrite app_nil_r.
  - destruct (measurement_params food) as [[fid nd]|]; simpl.
    2:{ split_and!; try done. exists []. by rewrite app_nil_r. }
    unfold session_run.
    destruct (measurements_query pf fid nd s) as [s1|] eqn:E; simpl.
    2:{ split_and!; try done. exists []. by rewrite app_nil_r. }
    apply measurements_query_Ok in E as (rows & _ & -> & _).
    destruct (IH (with_rels s (rels s ++ map (measurement pf) rows)))
      as (Hn & Hc & Hi & new & Hr & Hnew).
    split_and!; [done | done | done |].
    exists (map (measurement pf) rows ++ new). split.
    + rewrite Hr. simpl. by rewrite <- app_assoc.
    + apply Forall_app. split; [|done]. apply Forall_forall. intros r Hin.
      by apply list_elem_of_In, in_map_iff in Hin as (row & <- & _).
Qed.

(** X8. A food record without [fdcId] stops [create_nutrient_relationships]
    with KeyError once its own entries have been read, and the measurements
    of the foods before it stay in the store. *)
Theorem measurements_missing_fdcId (pf : string → option spec_float)
    (pre post : list value) (fd : list (string * value)) (nd : list value)
    (s : store) :
  nutrients_data (VDict fd) = Ok nd →
  dict_lookup "fdcId" fd = None →
  create_nutrient_relationships pf (pre ++ VDict fd :: post) s
  = and_then (create_nutrient_relationships pf pre s)
             (fun s1 => Abort (KeyError "fdcId") s1).
Proof.
  intros Hnd Hfid. rewrite create_nutrient_relationships_app_eq.
  destruct (create_nutrient_relationships pf pre s) as [s1|e s1]; simpl; [|done].
  unfold measurement_params. rewrite Hnd. simpl. by rewrite Hfid.
Qed.

Lemma create_nutrient_relationships_replay pf foods s s' t :
  nodes t = nodes s →
  create_nutrient_relationships pf foods s = Done s' →
  create_nutrient_relationships pf foods t
  = Done (with_rels t (rels t ++ drop (length (rels s)) (rels s'))).
Proof.
  revert s t. induction foods as [|food foods IH]; intros s t Hn H; simpl in *.
  - injection H as <-. by rewrite drop_all, app_nil_r, with_rels_id.
  - destruct (measurement_params food) as [[fid nd]|]; [|done].
    unfold session_run in *.
    destruct (measurements_query pf fid nd s) as [s1|] eqn:E; simpl in H; [|done].
    rewrite (measurements_query_replay pf fid nd s s1 t Hn E). simpl.
    apply measurements_query_Ok in E as (rows & _ & Hs1 & _).
    apply create_nutrient_relationships_grows in H as Hg. destruct Hg as [_ (new & Hr)].
    erewrite IH; [|  |exact H]; [|by rewrite Hs1].
    f_equal. unfold with_rels. simpl. f_equal.
    rewrite Hr, Hs1. simpl. rewrite !drop_app_length.
    rewrite <- (app_assoc (rels s)), drop_app_length. by rewrite <- app_assoc.
Qed.

(** X9. Measurements are created, never merged: when
    [create_nutrient_relationships] has completed, running it again on the
    same input completes too and adds every measurement of the first run a
    second time. *)
Theorem measurements_duplicated_on_rerun (pf : string → option spec_float)
    (foods : list value) (s s1 : store) :
  create_nutrient_relationships pf foods s = Done s1 →
  ∃ new, rels s1 = rels s ++ new
    ∧ create_nutrient_relationships pf foods s1
      = Done (with_rels s1 (rels s1 ++ new)).
Proof.
  intros H. apply create_nutrient_relationships_grows in H as Hg.
  destruct Hg as [Hn (new & Hr)]. exists new. split; [done |].
  rewrite (create_nutrient_relationships_replay pf foods s s1 s1 Hn H).
  by rewrite Hr, drop_app_length.
Qed.

(** ** Statements only add *)

Lemma appends_refl s : appends s s.
Proof. split_and!; [done | done |]. exists []. by rewrite app_nil_r. Qed.

Lemma appends_trans s1 s2 s3 : appends s1 s2 → appends s2 s3 → appends s1 s3.
Proof.
  intros (C1 & I1 & n1 & R1) (C2 & I2 & n2 & R2). split_and!; [congruence | congruence |].
  exists (n1 ++ n2). by rewrite R2, R1, <- app_assoc.
Qed.

Lemma appends_with_nodes s ns : appends s (with_nodes s ns).
Proof. split_and!; [done | done |]. exists []. by rewrite app_nil_r. Qed.

Lemma create_node_appends l k v s i s' : create_node l k v s = Ok (i, s') → appends s s'.
Proof. intros (_ & -> & _)%create_node_Ok. apply appends_with_nodes. Qed.

Lemma set_node_prop_appends i k v s s' : set_node_prop i k v s = Ok s' → appends s s'.
Proof.
  intros H. destruct (nodes s !! i) as [n|] eqn:Hn.
  - rewrite (set_node_prop_Ok _ _ _ _ _ _ H Hn). apply appends_with_nodes.
  - unfold set_node_prop in H. rewrite Hn in H. injection H as <-. apply appends_refl.
Qed.

Lemma set_node_props_appends i kvs s s' : set_node_props i kvs s = Ok s' → appends s s'.
Proof.
  revert s. induction kvs as [|[k e] kvs IH]; intros s H; simpl in H.
  - injection H as <-. apply appends_refl.
  - apply bind_Ok in H as (v & _ & H). apply bind_Ok in H as (s1 & H1 & H).
    eapply appends_trans; [by eapply set_node_prop_appends | by apply IH].
Qed.

Lemma merge_node_appends l k v kvs s ms s' :
  merge_node l k v (fun i => set_node_props i kvs) s = Ok (ms, s') → appends s s'.
Proof.
  intros H. unfold merge_node in H.
  assert ((let* (i, s1) := create_node l k v s in
           let* s2 := set_node_props i kvs s1 in Ok ([i], s2)) = Ok (ms, s') →
          appends s s') as Hcreated.
  { intros H'. apply bind_Ok in H' as ([i s1] & H1 & H').
    apply bind_Ok in H' as (s2 & H2 & H'). injection H' as _ <-.
    eapply appends_trans; [by eapply create_node_appends | by eapply set_node_props_appends]. }
  destruct (match_nodes l k v s) as [|m0 ms0].
  - destruct v; try done; by apply Hcreated.
  - destruct v; try done; injection H as _ <-; apply appends_refl.
Qed.

Lemma clause_rel {R R'} (P : store → store → Prop)
    (step : R → store → result (list R' * store)) :
  (∀ s, P s s) → (∀ a b c, P a b → P b c → P a c) →
  (∀ r s out s', step r s = Ok (out, s') → P s s') →
  ∀ rows s outs s', clause step rows s = Ok (outs, s') → P s s'.
Proof.
  intros Hrefl Htrans Hstep rows. induction rows as [|r rows IH]; intros s outs s' H.
  - simpl in H. injection H as _ <-. apply Hrefl.
  - simpl in H. apply bind_Ok in H as ([o s1] & H1 & H).
    apply bind_Ok in H as ([os s2] & H2 & H). injection H as _ <-.
    eapply Htrans; [by eapply Hstep | by eapply IH].
Qed.

Lemma run_all_rel (P : store → store → Prop) qs s :
  (∀ s, P s s) → (∀ a b c, P a b → P b c → P a c) →
  Forall (fun q => ∀ s s', q s = Ok s' → P s s') qs →
  P s (final (run_all qs s)).
Proof.
  intros Hrefl Htrans H. revert s. induction H as [|q qs Hq _ IH]; intros s; simpl;
    [apply Hrefl |].
  rewrite final_and_then. unfold session_run.
  destruct (q s) as [s'|e] eqn:E; [|apply Hrefl].
  eapply Htrans; [by apply Hq | apply IH].
Qed.

Lemma nutrients_query_appends b s s' : nutrients_query b s = Ok s' → appends s s'.
Proof.
  unfold nutrients_query. intros H. apply bind_Ok in H as ([rows s1] & H1 & H).
  injection H as <-.
  eapply (clause_rel appends); [apply appends_refl | apply appends_trans | | exact H1].
  intros r s0 out s0' H0. unfold merge_nutrient in H0.
  apply bind_Ok in H0 as (nid & _ & H0). apply bind_Ok in H0 as ([ns s2] & H2 & H0).
  injection H0 as _ <-. by eapply merge_node_appends.
Qed.

Lemma foods_query_appends b s s' : foods_query b s = Ok s' → appends s s'.
Proof.
  unfold foods_query. intros H.
  apply bind_Ok in H as ([rows1 s1] & H1 & H).
  apply bind_Ok in H as ([rows2 s2] & H2 & H).
  apply bind_Ok in H as ([rows3 s3] & H3 & H).
  apply bind_Ok in H as ([rows4 s4] & H4 & H). injection H as <-.
  apply (clause_rel appends) in H1; [|apply appends_refl | apply appends_trans |].
  2:{ intros r s0 out s0' H0. unfold merge_category in H0.
      apply bind_Ok in H0 as (cat & _ & H0). apply bind_Ok in H0 as (cid & _ & H0).
      apply bind_Ok in H0 as ([ns s5] & H5 & H0). injection H0 as _ <-.
      by eapply merge_node_appends. }
  apply clause_create_food in H2 as [-> _].
  apply (clause_rel appends) in H3 as H3'; [| apply appends_refl | apply appends_trans |].
  2:{ intros [[food fc] f] s0 out s0' H0. unfold set_food in H0.
      apply bind_Ok in H0 as (s5 & H5 & H0). injection H0 as _ <-.
      by eapply set_node_props_appends. }
  apply clause_link_category in H4 as ->.
  eapply appends_trans; [exact H1 |].
  eapply appends_trans; [apply appends_with_nodes |].
  eapply appends_trans; [exact H3' |].
  split_and!; [done | done |]. eexists. done.
Qed.

Lemma measurements_query_appends pf fid nds s s' :
  measurements_query pf fid nds s = Ok s' → appends s s'.
Proof.
  intros (rows & _ & -> & _)%measurements_query_Ok. split_and!; [done | done |].
  eexists. done.
Qed.

Lemma retains_refl s : retains s s.
Proof. split_and!; exists []; by rewrite app_nil_r. Qed.

Lemma retains_trans s1 s2 s3 : retains s1 s2 → retains s2 s3 → retains s1 s3.
Proof.
  intros ((r1 & R1) & (c1 & C1) & (i1 & I1)) ((r2 & R2) & (c2 & C2) & (i2 & I2)).
  split_and!.
  - exists (r1 ++ r2). by rewrite R2, R1, <- app_assoc.
  - exists (c1 ++ c2). by rewrite C2, C1, <- app_assoc.
  - exists (i1 ++ i2). by rewrite I2, I1, <- app_assoc.
Qed.

Lemma appends_retains s s' : appends s s' → retains s s'.
Proof.
  intros (C & I & R). split_and!; [done | |]; exists []; by rewrite app_nil_r.
Qed.

Lemma create_constraint_retains name l k s s' :
  create_constraint name l k s = Ok s' → retains s s'.
Proof.
  unfold create_constraint.
  destruct (rule_named name (constraints s) || constrained l k s).
  - intros [= <-]. apply retains_refl.
  - destruct (distinct_keys l k (nodes s)); [|done]. intros [= <-].
    split_and!; simpl; [exists []; by rewrite app_nil_r | by eexists |
                        exists []; by rewrite app_nil_r].
Qed.

Lemma create_index_retains name l k s s' :
  create_index name l k s = Ok s' → retains s s'.
Proof.
  unfold create_index. destruct (rule_named name (indexes s) || indexed l k s).
  - intros [= <-]. apply retains_refl.
  - intros [= <-].
    split_and!; simpl; [exists []; by rewrite app_nil_r | exists []; by rewrite app_nil_r |
                        by eexists].
Qed.

Lemma create_constraints_and_indexes_retains s :
  retains s (final (create_constraints_and_indexes s)).
Proof.
  apply (run_all_rel retains); [apply retains_refl | apply retains_trans |].
  repeat (apply List.Forall_cons;
          [intros ??; first [apply create_constraint_retains | apply create_index_retains] |]).
  apply List.Forall_nil.
Qed.

Lemma create_nutrients_retains foods s : retains s (final (create_nutrients foods s)).
Proof.
  unfold create_nutrients. destruct (collect_nutrients foods); [|apply retains_refl].
  apply (run_all_rel retains); [apply retains_refl | apply retains_trans |].
  apply Forall_forall. intros q Hq.
  apply list_elem_of_In, in_map_iff in Hq as (b & <- & _).
  intros s0 s0' H. by apply appends_retains, (nutrients_query_appends b).
Qed.

Lemma create_foods_and_categories_retains foods s :
  retains s (final (create_foods_and_categories foods s)).
Proof.
  apply (run_all_rel retains); [apply retains_refl | apply retains_trans |].
  apply Forall_forall. intros q Hq.
  apply list_elem_of_In, in_map_iff in Hq as (b & <- & _).
  intros s0 s0' H. by apply appends_retains, (foods_query_appends b).
Qed.

Lemma create_nutrient_relationships_retains pf foods s :
  retains s (final (create_nutrient_relationships pf foods s)).
Proof.
  revert s. induction foods as [|food foods IH]; intros s; simpl; [apply retains_refl |].
  destruct (measurement_params food) as [[fid nd]|]; [|apply retains_refl].
  rewrite final_and_then. unfold session_run.
  destruct (measurements_query pf fid nd s) as [s'|] eqn:E; [|apply retains_refl].
  eapply retains_trans; [by eapply appends_retains, measurements_query_appends | apply IH].
Qed.

Lemma run_import_retains pf jl fs file s : retains s (final (run_import pf jl fs file s)).
Proof.
  unfold run_import.
  destruct (let* data := load_json_data jl fs file in py_getitem data "FoundationFoods")
    as [foods|]; [|apply retains_refl].
  rewrite final_and_then.
  pose proof (create_constraints_and_indexes_retains s) as K0.
  destruct (create_constraints_and_indexes s) as [s1|e s1]; simpl in K0; [|exact K0].
  destruct (py_iter foods) as [fl|]; [|exact K0].
  rewrite final_and_then. pose proof (create_nutrients_retains fl s1) as K1.
  destruct (create_nutrients fl s1) as [s2|e s2]; [|by eapply retains_trans].
  rewrite final_and_then. pose proof (create_foods_and_categories_retains fl s2) as K2.
  destruct (create_foods_and_categories fl s2) as [s3|e s3];
    [|eauto using retains_trans].
  pose proof (create_nutrient_relationships_retains pf fl s3).
  eauto using retains_trans.
Qed.

Lemma perform_retains pf jl s o : retains s (perform pf jl s o).
Proof.
  destruct o; simpl.
  - apply create_constraints_and_indexes_retains.
  - apply create_nutrients_retains.
  - apply create_foods_and_categories_retains.
  - apply create_nutrient_relationships_retains.
  - apply run_import_retains.
Qed.

Lemma count_labels_le (l : label) (ns ns' : list node) :
  (∀ i n, ns !! i = Some n → ∃ n', ns' !! i = Some n' ∧ nlabel n' = nlabel n) →
  length (filter (fun n => nlabel n = l) ns) ≤ length (filter (fun n => nlabel n = l) ns').
Proof.
  revert ns'. induction ns as [|n ns IH]; intros ns' H; [simpl; lia |].
  destruct (H 0 n eq_refl) as (n' & Hn' & Hl).
  destruct ns' as [|n0 ns']; [done |]. injection Hn' as ->.
  assert (∀ i n, ns !! i = Some n → ∃ n', ns' !! i = Some n' ∧ nlabel n' = nlabel n) as Ht.
  { intros i m Hm. apply (H (S i) m Hm). }
  specialize (IH _ Ht). rewrite !filter_cons.
  destruct (decide (nlabel n = l)) as [E|E], (decide (nlabel n' = l)) as [E'|E'];
    simpl; try lia; congruence.
Qed.

Lemma count_nodes_ext l s s' : ext s s' → count_nodes l s ≤ count_nodes l s'.
Proof.
  intros [_ E]. apply count_labels_le. intros i n Hn.
  destruct (E _ _ Hn) as (n' & Hn' & (Hl & _)). eauto.
Qed.

Lemma count_rels_retains t s s' : retains s s' → count_rels t s ≤ count_rels t s'.
Proof.
  intros ((new & R) & _). unfold count_rels. rewrite R, filter_app, length_app. lia.
Qed.

(** X10. The loader never deletes.  Through any sequence of its
    operations, each completing or aborting, the relationships, constraints
    and indexes of the store stay in place, with what is new after them,
    and none of the five counts of [verify_import] goes down. *)
Theorem loader_never_deletes (pf : string → option spec_float)
    (jl : string → option value) (ops : list operation) (s : store) :
  let s' := foldl (perform pf jl) s ops in
  retains s s'
  ∧ match verify_import s, verify_import s' with
    | (f, n, c, h, b), (f', n', c', h', b') =>
        f ≤ f' ∧ n ≤ n' ∧ c ≤ c' ∧ h ≤ h' ∧ b ≤ b'
    end.
Proof.
  simpl.
  assert (retains s (foldl (perform pf jl) s ops) ∧ ext s (foldl (perform pf jl) s ops))
    as [R E].
  { revert s. induction ops as [|o ops IH]; intros s; simpl.
    - split; [apply retains_refl | apply ext_refl].
    - destruct (IH (perform pf jl s o)) as [R E]. split.
      + eapply retains_trans; [apply perform_retains | exact R].
      + eapply ext_trans; [apply perform_keeps | exact E]. }
  split; [done |]. unfold verify_import.
  split_and!; first [by apply count_nodes_ext | by apply count_rels_retains].
Qed.

(** ** Schema setup *)

Lemma rule_named_snoc name rs r :
  rule_named name (rs ++ [r]) = rule_named name rs || String.eqb r.1 name.
Proof. unfold rule_named. rewrite existsb_app. simpl. by rewrite orb_false_r. Qed.

Lemma create_constraint_cases name l k s :
  create_constraint name l k s
  = if constraint_ok name l k s
    then Ok (if rule_named name (constraints s) || constrained l k s then s
             else Store (nodes s) (rels s) (constraints s ++ [(name, (l, k))]) (indexes s))
    else Err DatabaseError.
Proof.
  unfold create_constraint, constraint_ok.
  destruct (rule_named name (constraints s) || constrained l k s); [done |].
  simpl. by destruct (distinct_keys l k (nodes s)).
Qed.

Lemma create_constraint_schema name l k s s' :
  create_constraint name l k s = Ok s' →
  schema_ext s s' ∧ rule_named name (constraints s') || constrained l k s' = true.
Proof.
  unfold create_constraint.
  destruct (rule_named name (constraints s) || constrained l k s) eqn:E.
  - intros [= <-]. split; [|done]. by split_and!.
  - destruct (distinct_keys l k (nodes s)); [|done]. intros [= <-]. split.
    + split_and!; simpl; try done.
      * intros name0. rewrite rule_named_snoc. by intros ->.
      * intros l0 k0. apply constrained_snoc.
    + simpl. rewrite rule_named_snoc. simpl. rewrite String.eqb_refl.
      by rewrite orb_true_r.
Qed.

Lemma create_index_schema name l k s s' :
  create_index name l k s = Ok s' →
  schema_ext s s' ∧ rule_named name (indexes s') || indexed l k s' = true.
Proof.
  unfold create_index.
  destruct (rule_named name (indexes s) || indexed l k s) eqn:E.
  - intros [= <-]. split; [|done]. by split_and!.
  - intros [= <-]. split.
    + split_and!; simpl; try done.
      * intros name0. rewrite rule_named_snoc. by intros ->.
      * intros l0 k0. unfold indexed. simpl. rewrite existsb_app. by intros ->.
    + simpl. rewrite rule_named_snoc. simpl. rewrite String.eqb_refl.
      by rewrite orb_true_r.
Qed.

Lemma schema_ext_refl s : schema_ext s s.
Proof. by split_and!. Qed.

Lemma schema_ext_trans s1 s2 s3 : schema_ext s1 s2 → schema_ext s2 s3 → schema_ext s1 s3.
Proof.
  intros (A1 & B1 & C1 & D1 & N1 & R1) (A2 & B2 & C2 & D2 & N2 & R2).
  split_and!; [auto | auto | auto | auto | congruence | congruence].
Qed.

Lemma schema_ext_constraint name l k s s' :
  schema_ext s s' → rule_named name (constraints s) || constrained l k s = true →
  create_constraint name l k s' = Ok s'.
Proof.
  intros (A & B & _) H. unfold create_constraint.
  apply orb_true_iff in H as [H|H]; [rewrite (A _ H) | rewrite (B _ _ H)];
    by rewrite ?orb_true_r.
Qed.

Lemma schema_ext_index name l k s s' :
  schema_ext s s' → rule_named name (indexes s) || indexed l k s = true →
  create_index name l k s' = Ok s'.
Proof.
  intros (_ & _ & C & D & _) H. unfold create_index.
  apply orb_true_iff in H as [H|H]; [rewrite (C _ H) | rewrite (D _ _ H)];
    by rewrite ?orb_true_r.
Qed.

(** X11. Schema setup leaves the data alone and can be repeated:
    whether it completes or aborts, the nodes and relationships are those it
    found; and once it has completed, running it again completes and
    changes nothing. *)
Theorem schema_setup_idempotent (s : store) :
  nodes (final (create_constraints_and_indexes s)) = nodes s
  ∧ rels (final (create_constraints_and_indexes s)) = rels s
  ∧ ∀ s', create_constraints_and_indexes s = Done s' →
      create_constraints_and_indexes s' = Done s'.
Proof.
  assert (schema_ext s (final (create_constraints_and_indexes s))) as E.
  { apply (run_all_rel schema_ext); [apply schema_ext_refl | apply schema_ext_trans |].
    repeat (apply List.Forall_cons;
            [intros ?? H; first [by apply create_constraint_schema in H as [? _]
                                | by apply create_index_schema in H as [? _]] |]).
    apply List.Forall_nil. }
  split_and!; [apply E | apply E |].
  intros s' H. unfold create_constraints_and_indexes in H. cbn [run_all] in H.
  unfold session_run in H.
  destruct (create_constraint "food_fdc_id" Food "fdcId" s) as [s1|] eqn:H1; [|done].
  cbn [and_then] in H.
  destruct (create_constraint "nutrient_id" Nutrient "id" s1) as [s2|] eqn:H2; [|done].
  cbn [and_then] in H.
  destruct (create_constraint "category_id" FoodCategory "id" s2) as [s3|] eqn:H3; [|done].
  cbn [and_then] in H.
  destruct (create_index "food_description" Food "description" s3) as [s4|] eqn:H4; [|done].
  cbn [and_then] in H.
  destruct (create_index "nutrient_name" Nutrient "name" s4) as [s5|] eqn:H5; [|done].
  cbn [and_then] in H. injection H as ->.
  apply create_constraint_schema in H1 as [E1 P1].
  apply create_constraint_schema in H2 as [E2 P2].
  apply create_constraint_schema in H3 as [E3 P3].
  apply create_index_schema in H4 as [E4 P4].
  apply create_index_schema in H5 as [E5 P5].
  unfold create_constraints_and_indexes. cbn [run_all]. unfold session_run.
  rewrite (schema_ext_constraint _ _ _ s1 s') by eauto 6 using schema_ext_trans.
  cbn [and_then].
  rewrite (schema_ext_constraint _ _ _ s2 s') by eauto 6 using schema_ext_trans.
  cbn [and_then].
  rewrite (schema_ext_constraint _ _ _ s3 s') by eauto 6 using schema_ext_trans.
  cbn [and_then].
  rewrite (schema_ext_index _ _ _ s4 s') by eauto 6 using schema_ext_trans.
  cbn [and_then].
  rewrite (schema_ext_index _ _ _ s' s') by eauto using schema_ext_refl.
  done.
Qed.

Lemma constraint_ok_after name l k name' l' k' s s1 :
  create_constraint name l k s = Ok s1 →
  String.eqb name name' = false →
  bool_decide (l = l') && String.eqb k k' = false →
  constraint_ok name' l' k' s1 = constraint_ok name' l' k' s.
Proof.
  unfold create_constraint. intros H Hn Hk.
  destruct (rule_named name (constraints s) || constrained l k s).
  - by injection H as <-.
  - destruct (distinct_keys l k (nodes s)); [|done]. injection H as <-.
    unfold constraint_ok, constrained. simpl.
    rewrite rule_named_snoc, existsb_app. simpl. by rewrite Hn, Hk, !orb_false_r.
Qed.

Lemma create_index_Ok name l k s : ∃ s', create_index name l k s = Ok s'.
Proof.
  unfold create_index. destruct (rule_named name (indexes s) || indexed l k s); eauto.
Qed.

(** The outcome of schema setup: it completes when each of the three
    constraints is there, by name or by label and key, or holds of the
    nodes present, and aborts otherwise. *)
Lemma schema_setup_cases (s : store) :
  if constraint_ok "food_fdc_id" Food "fdcId" s
     && constraint_ok "nutrient_id" Nutrient "id" s
     && constraint_ok "category_id" FoodCategory "id" s
  then ∃ s', create_constraints_and_indexes s = Done s'
         ∧ rule_named "food_fdc_id" (constraints s') || constrained Food "fdcId" s' = true
         ∧ rule_named "nutrient_id" (constraints s') || constrained Nutrient "id" s' = true
         ∧ rule_named "category_id" (constraints s') || constrained FoodCategory "id" s' = true
         ∧ rule_named "food_description" (indexes s') || indexed Food "description" s' = true
         ∧ rule_named "nutrient_name" (indexes s') || indexed Nutrient "name" s' = true
  else ∃ s', create_constraints_and_indexes s = Abort DatabaseError s'.
Proof.
  unfold create_constraints_and_indexes. cbn [run_all]. unfold session_run.
  pose proof (create_constraint_cases "food_fdc_id" Food "fdcId" s) as C1.
  destruct (constraint_ok "food_fdc_id" Food "fdcId" s); simpl;
    [|rewrite C1; simpl; eauto].
  destruct (create_constraint "food_fdc_id" Food "fdcId" s) as [s1|] eqn:H1; [|done].
  clear C1. cbn [and_then].
  pose proof (create_constraint_cases "nutrient_id" Nutrient "id" s1) as C2.
  rewrite (constraint_ok_after _ _ _ "nutrient_id" Nutrient "id" _ _ H1
             eq_refl eq_refl) in C2.
  pose proof (constraint_ok_after _ _ _ "category_id" FoodCategory "id" _ _ H1
                eq_refl eq_refl) as C13.
  destruct (constraint_ok "nutrient_id" Nutrient "id" s); simpl;
    [|rewrite C2; simpl; eauto].
  destruct (create_constraint "nutrient_id" Nutrient "id" s1) as [s2|] eqn:H2; [|done].
  clear C2. cbn [and_then].
  pose proof (create_constraint_cases "category_id" FoodCategory "id" s2) as C3.
  rewrite (constraint_ok_after _ _ _ "category_id" FoodCategory "id" _ _ H2
             eq_refl eq_refl), C13 in C3.
  destruct (constraint_ok "category_id" FoodCategory "id" s); simpl;
    [|rewrite C3; simpl; eauto].
  destruct (create_constraint "category_id" FoodCategory "id" s2) as [s3|] eqn:H3; [|done].
  clear C3. cbn [and_then].
  destruct (create_index_Ok "food_description" Food "description" s3) as [s4 H4].
  rewrite H4. cbn [and_then].
  destruct (create_index_Ok "nutrient_name" Nutrient "name" s4) as [s5 H5].
  rewrite H5. cbn [and_then]. exists s5. split; [done |].
  apply create_constraint_schema in H1 as [E1 P1].
  apply create_constraint_schema in H2 as [E2 P2].
  apply create_constraint_schema in H3 as [E3 P3].
  apply create_index_schema in H4 as [E4 P4].
  apply create_index_schema in H5 as [E5 P5].
  assert (∀ name l k sa, schema_ext sa s5 →
            rule_named name (constraints sa) || constrained l k sa = true →
            rule_named name (constraints s5) || constrained l k s5 = true) as Kc.
  { intros name l k sa (A & B & _) H.
    apply orb_true_iff in H as [H|H]; [rewrite (A _ H) | rewrite (B _ _ H)];
      by rewrite ?orb_true_r. }
  assert (∀ name l k sa, schema_ext sa s5 →
            rule_named name (indexes sa) || indexed l k sa = true →
            rule_named name (indexes s5) || indexed l k s5 = true) as Ki.
  { intros name l k sa (_ & _ & C & D & _) H.
    apply orb_true_iff in H as [H|H]; [rewrite (C _ H) | rewrite (D _ _ H)];
      by rewrite ?orb_true_r. }
  split_and!.
  - apply (Kc _ _ _ s1); [eauto 6 using schema_ext_trans | done].
  - apply (Kc _ _ _ s2); [eauto 6 using schema_ext_trans | done].
  - apply (Kc _ _ _ s3); [eauto 6 using schema_ext_trans | done].
  - apply (Ki _ _ _ s4); [done | done].
  - done.
Qed.

Lemma own_rule (rs lc : list rule) (r : rule) :
  (∀ x, x ∈ rs → x ∈ lc) →
  Forall (fun x : rule => x.1 = r.1 ∨ x.2 = r.2 → x = r) lc →
  rule_named r.1 rs
  || existsb (fun c : rule => bool_decide (fst (snd c) = r.2.1) && String.eqb (snd (snd c)) r.2.2)
       rs = true
  ↔ r ∈ rs.
Proof.
  intros Hsub Hlc. rewrite Forall_forall in Hlc. split.
  - intros [H|H]%orb_true_iff; apply existsb_exists in H as (x & Hx & Hp);
      apply list_elem_of_In in Hx; rewrite <- (Hlc x (Hsub x Hx)); try done.
    + left. by apply String.eqb_eq.
    + right. apply andb_true_iff in Hp as [Hl Hk].
      apply bool_decide_eq_true in Hl. apply String.eqb_eq in Hk.
      destruct x as [? [? ?]], r as [? [? ?]]. simpl in *. congruence.
  - intros Hr. apply orb_true_iff. left. apply existsb_exists. exists r.
    split; [by apply list_elem_of_In | apply String.eqb_refl].
Qed.

Lemma own_constraint s r :
  own_schema s → r ∈ loader_constraints →
  rule_named r.1 (constraints s) || constrained r.2.1 r.2.2 s = bool_decide (r ∈ constraints s).
Proof.
  intros [Hown _] Hr. apply eq_true_iff_eq. rewrite bool_decide_eq_true.
  apply (own_rule _ loader_constraints); [done |].
  unfold loader_constraints in *.
  repeat (apply elem_of_cons in Hr as [->|Hr]);
    [| | | by apply elem_of_nil in Hr];
    repeat constructor; simpl; intros [?|?]; done.
Qed.

Lemma own_index s r :
  own_schema s → r ∈ loader_indexes →
  rule_named r.1 (indexes s) || indexed r.2.1 r.2.2 s = true → r ∈ indexes s.
Proof.
  intros [_ Hown] Hr. apply (own_rule _ loader_indexes); [done |].
  unfold loader_indexes in *.
  repeat (apply elem_of_cons in Hr as [->|Hr]);
    [| | by apply elem_of_nil in Hr];
    repeat constructor; simpl; intros [?|?]; done.
Qed.

Lemma create_constraint_own name l k s s' :
  (name, (l, k)) ∈ loader_constraints →
  create_constraint name l k s = Ok s' → own_schema s → own_schema s'.
Proof.
  intros Hr H [Hc Hi]. unfold create_constraint in H.
  destruct (rule_named name (constraints s) || constrained l k s).
  - by injection H as <-.
  - destruct (distinct_keys l k (nodes s)); [|done]. injection H as <-.
    split; [|done]. simpl. intros r [?|Hx]%elem_of_app; [auto |].
    by apply list_elem_of_singleton in Hx as ->.
Qed.

Lemma create_index_own name l k s s' :
  (name, (l, k)) ∈ loader_indexes →
  create_index name l k s = Ok s' → own_schema s → own_schema s'.
Proof.
  intros Hr H [Hc Hi]. unfold create_index in H.
  destruct (rule_named name (indexes s) || indexed l k s).
  - by injection H as <-.
  - injection H as <-.
    split; [done |]. simpl. intros r [?|Hx]%elem_of_app; [auto |].
    by apply list_elem_of_singleton in Hx as ->.
Qed.

(** X12. On a database whose schema holds no rules but the loader's
    own, schema setup completes exactly when each of the three uniqueness
    constraints is already in place or holds of the nodes present;
    otherwise it aborts with the database's error.  When it completes, the
    three constraints and the two indexes are in place, and nothing
    else. *)
Theorem schema_setup_outcome (s : store) :
  own_schema s →
  if forallb (satisfiable s) loader_constraints
  then ∃ s', create_constraints_and_indexes s = Done s'
         ∧ (∀ r, r ∈ constraints s' ↔ r ∈ loader_constraints)
         ∧ (∀ r, r ∈ indexes s' ↔ r ∈ loader_indexes)
  else ∃ s', create_constraints_and_indexes s = Abort DatabaseError s'.
Proof.
  intros Hown. pose proof (schema_setup_cases s) as H.
  assert (∀ r, r ∈ loader_constraints →
            constraint_ok r.1 r.2.1 r.2.2 s = satisfiable s r) as Hok.
  { intros r Hr. unfold constraint_ok, satisfiable. by rewrite own_constraint. }
  assert (forallb (satisfiable s) loader_constraints
          = constraint_ok "food_fdc_id" Food "fdcId" s
            && constraint_ok "nutrient_id" Nutrient "id" s
            && constraint_ok "category_id" FoodCategory "id" s) as ->.
  { unfold loader_constraints. cbn [forallb].
    rewrite <- !Hok by (unfold loader_constraints; set_solver).
    cbn [fst snd]. by rewrite andb_true_r, andb_assoc. }
  destruct (constraint_ok "food_fdc_id" Food "fdcId" s
            && constraint_ok "nutrient_id" Nutrient "id" s
            && constraint_ok "category_id" FoodCategory "id" s); [|exact H].
  destruct H as (s' & H & P1 & P2 & P3 & P4 & P5). exists s'. split; [done |].
  assert (own_schema s') as Hown'.
  { assert (own_schema s → own_schema (final (create_constraints_and_indexes s))) as Hp.
    { apply (run_all_rel (fun a b => own_schema a → own_schema b)); [auto | auto |].
      unfold loader_constraints, loader_indexes.
      repeat (apply List.Forall_cons;
              [intros ??; first [apply create_constraint_own | apply create_index_own];
               unfold loader_constraints, loader_indexes; set_solver |]).
      apply List.Forall_nil. }
    rewrite H in Hp. by apply Hp. }
  split; intros r; (split; [apply Hown' |]); intros Hr.
  - rewrite <- (bool_decide_eq_true (r ∈ constraints s')), <- own_constraint by done.
    unfold loader_constraints in Hr.
    repeat (apply elem_of_cons in Hr as [->|Hr]); [done.. | by apply elem_of_nil in Hr].
  - apply own_index; [done | done |]. unfold loader_indexes in Hr.
    repeat (apply elem_of_cons in Hr as [->|Hr]); [done.. | by apply elem_of_nil in Hr].
Qed.

(** ** Counting what an import creates *)

Lemma int_key_Some l k n z :
  int_key l k n = Some z ↔ nlabel n = l ∧ get_prop k (nprops n) = VInt z.
Proof.
  unfold int_key. case_bool_decide as E.
  - destruct (get_prop k (nprops n)); split; try done; try by intros [_ [=]].
    + by intros [= ->].
    + by intros [_ [= ->]].
  - split; [done | by intros [? _]].
Qed.

Lemma omap_cons_eq {A B} (f : A → option B) (x : A) (l : list A) :
  omap f (x :: l) = match f x with Some y => y :: omap f l | None => omap f l end.
Proof. done. Qed.

Lemma int_keys_le l k ns :
  length (omap (int_key l k) ns) ≤ length (filter (fun n => nlabel n = l) ns).
Proof.
  induction ns as [|n ns IH]; [done |]. rewrite filter_cons, omap_cons_eq.
  unfold int_key at 1. case_bool_decide as E.
  - rewrite decide_True by done. destruct (get_prop k (nprops n)); cbn [length]; lia.
  - by rewrite decide_False by done.
Qed.

Lemma find_keyed l k z ns i :
  NoDup (omap (int_key l k) ns) →
  length (omap (int_key l k) ns) = length (filter (fun n => nlabel n = l) ns) →
  (z ∉ omap (int_key l k) ns → find_indices (node_matches l k (VInt z)) ns i = [])
  ∧ (z ∈ omap (int_key l k) ns →
     ∃ j, find_indices (node_matches l k (VInt z)) ns i = [j]).
Proof.
  revert i. induction ns as [|n ns IH]; intros i ND Hlen.
  - split; [done | by intros ?%elem_of_nil].
  - rewrite filter_cons in Hlen. pose proof (int_keys_le l k ns) as Hle.
    rewrite omap_cons_eq in *. cbn [find_indices].
    destruct (int_key l k n) as [z0|] eqn:Hk.
    + apply int_key_Some in Hk as [Hl Hv]. rewrite decide_True in Hlen by done.
      cbn [length] in Hlen. apply NoDup_cons in ND as [Hz0 ND].
      destruct (IH (S i) ND ltac:(lia)) as [IH1 IH2].
      assert (node_matches l k (VInt z) n = bool_decide (z0 = z)) as ->.
      { unfold node_matches. rewrite bool_decide_eq_true_2 by done.
        by rewrite Hv, cy_eqb_int. }
      case_bool_decide as E.
      * subst z0. split.
        -- intros Hn. exfalso. apply Hn. by left.
        -- intros _. exists i. by rewrite IH1.
      * split.
        -- intros Hn. apply IH1. intros ?. apply Hn. by right.
        -- intros [?|?]%elem_of_cons; [congruence | by apply IH2].
    + destruct (decide (nlabel n = l)) as [Hl|Hl].
      * cbn [length] in Hlen. lia.
      * assert (node_matches l k (VInt z) n = false) as ->.
        { unfold node_matches. by rewrite bool_decide_eq_false_2 by done. }
        by apply IH.
Qed.

Lemma match_keyed_in l k z s :
  keyed l k s → z ∈ int_keys l k s → ∃ j, match_nodes l k (VInt z) s = [j].
Proof. intros [ND Hlen] Hz. by apply (find_keyed l k z (nodes s) 0). Qed.

Lemma match_keyed_out l k z s :
  keyed l k s → z ∉ int_keys l k s → match_nodes l k (VInt z) s = [].
Proof. intros [ND Hlen] Hz. by apply (find_keyed l k z (nodes s) 0). Qed.

Lemma match_keyed_nil l k z s :
  keyed l k s → match_nodes l k (VInt z) s = [] → z ∉ int_keys l k s.
Proof.
  intros K Hm Hz. destruct (match_keyed_in _ _ _ _ K Hz) as [j Hj]. congruence.
Qed.

Lemma keyed_unique l k s : keyed l k s → unique_int_key l k s.
Proof.
  intros K z. destruct (decide (z ∈ int_keys l k s)) as [Hz|Hz].
  - destruct (match_keyed_in _ _ _ _ K Hz) as [j ->]. simpl. lia.
  - rewrite (match_keyed_out _ _ _ _ K Hz). simpl. lia.
Qed.

Lemma int_keys_app l k s ns :
  int_keys l k (with_nodes s (nodes s ++ ns))
  = int_keys l k s ++ omap (int_key l k) ns.
Proof. unfold int_keys. by rewrite with_nodes_nodes, omap_app. Qed.

Lemma count_nodes_app l s ns :
  count_nodes l (with_nodes s (nodes s ++ ns))
  = count_nodes l s + length (filter (fun n => nlabel n = l) ns).
Proof. unfold count_nodes. by rewrite with_nodes_nodes, filter_app, length_app. Qed.

Lemma same_keys_view l k s s' :
  k = "id" ∨ k = "fdcId" → same_keys s s' →
  int_keys l k s' = int_keys l k s ∧ count_nodes l s' = count_nodes l s.
Proof.
  intros Hk H. unfold int_keys, count_nodes, same_keys in *.
  induction H as [|n n' ns ns' (Hl & Hf & Hi) _ [IH1 IH2]]; [done |].
  rewrite !filter_cons, !omap_cons_eq, IH1.
  assert (int_key l k n' = int_key l k n) as ->.
  { unfold int_key. rewrite Hl. by destruct Hk as [-> | ->]; rewrite ?Hi, ?Hf. }
  split; [done |]. rewrite Hl. destruct (decide (nlabel n = l)); simpl; by rewrite IH2.
Qed.

Lemma other_label_view l l' k s ns :
  l ≠ l' → Forall (fun n => nlabel n = l') ns →
  int_keys l k (with_nodes s (nodes s ++ ns)) = int_keys l k s
  ∧ count_nodes l (with_nodes s (nodes s ++ ns)) = count_nodes l s.
Proof.
  intros Hne Hns. rewrite int_keys_app, count_nodes_app.
  assert (omap (int_key l k) ns = [] ∧ filter (fun n => nlabel n = l) ns = []) as [-> ->].
  { induction Hns as [|n ns Hn _ [IH1 IH2]]; [done |]. rewrite filter_cons, omap_cons_eq.
    unfold int_key at 1.
    rewrite bool_decide_eq_false_2 by congruence. rewrite decide_False by congruence.
    done. }
  by rewrite app_nil_r, Nat.add_0_r.
Qed.

Lemma keyed_snoc l k s n z :
  keyed l k s → nlabel n = l → get_prop k (nprops n) = VInt z →
  z ∉ int_keys l k s →
  keyed l k (with_nodes s (nodes s ++ [n]))
  ∧ int_keys l k (with_nodes s (nodes s ++ [n])) = int_keys l k s ++ [z].
Proof.
  intros [ND Hlen] Hl Hv Hz.
  assert (int_key l k n = Some z) as Hk by (by apply int_key_Some).
  assert (int_keys l k (with_nodes s (nodes s ++ [n])) = int_keys l k s ++ [z]) as E.
  { rewrite int_keys_app, omap_cons_eq, Hk. done. }
  split; [|done]. split.
  - rewrite E. apply NoDup_app. split_and!; [done | | apply NoDup_singleton].
    intros x Hx ->%list_elem_of_singleton. done.
  - rewrite E, count_nodes_app, length_app, filter_cons, decide_True by done.
    rewrite filter_nil. simpl. lia.
Qed.

Lemma keyed_view l k s s' :
  int_keys l k s' = int_keys l k s → count_nodes l s' = count_nodes l s →
  keyed l k s → keyed l k s'.
Proof. unfold keyed. by intros -> ->. Qed.

Lemma merge_category_keys food s rows s' :
  keyed FoodCategory "id" s → int_ids food →
  merge_category food s = Ok (rows, s') →
  ∃ fc new, rows = [(food, fc)]
    ∧ s' = with_nodes s (nodes s ++ new)
    ∧ Forall (fun n => nlabel n = FoodCategory) new
    ∧ keyed FoodCategory "id" s'
    ∧ (list_to_set (int_keys FoodCategory "id" s') : gset Z)
      = list_to_set (int_keys FoodCategory "id" s) ∪ {[category_key food]}.
Proof.
  intros K (k0 & c & _ & Hc) H. unfold category_key. rewrite Hc. cbn [int_of].
  unfold merge_category in H.
  apply bind_Ok in H as (cat & Hcat & H). apply bind_Ok in H as (cid & Hcid & H).
  apply bind_Ok in H as ([fcs s1] & H1 & H). injection H as <- <-.
  apply cy_access_field in Hcat, Hcid. unfold category_id in Hc.
  rewrite Hcat, Hcid in Hc. subst cid. unfold merge_node in H1.
  destruct (match_nodes FoodCategory "id" (VInt c) s) as [|m ms] eqn:Hm.
  - rewrite create_node_unmatched in H1 by done. cbn [bind] in H1.
    apply bind_Ok in H1 as (s2 & H2 & H1). injection H1 as <- <-.
    apply set_node_props_last in H2. subst s2. cbn [nlabel nprops].
    set (n' := Node FoodCategory _).
    assert (get_prop "id" (nprops n') = VInt c) as Hid.
    { unfold n'. cbn [nprops].
      destruct (apply_sets_plain
                  [("code", cy_access cat "code"); ("description", cy_access cat "description")]
                  (set_prop "id" (VInt c) [])) as [_ ->]; [plain |].
      by rewrite get_prop_set. }
    pose proof (match_keyed_nil _ _ _ _ K Hm) as Hz.
    destruct (keyed_snoc FoodCategory "id" s n' c K eq_refl Hid Hz) as [K' E].
    exists (length (nodes s)), [n']. split_and!; [done | done | by constructor | done |].
    rewrite E, list_to_set_app_L. set_solver.
  - assert (c ∈ int_keys FoodCategory "id" s) as Hz.
    { destruct (decide (c ∈ int_keys FoodCategory "id" s)) as [?|Hn]; [done |].
      rewrite (match_keyed_out _ _ _ _ K Hn) in Hm. done. }
    pose proof (keyed_unique _ _ _ K c) as Hlen. rewrite Hm in Hlen.
    destruct ms; [|simpl in Hlen; lia]. injection H1 as <- <-.
    exists m, []. rewrite app_nil_r, with_nodes_id.
    split_and!; [done | done | constructor | done |].
    apply (elem_of_list_to_set (C := gset Z)) in Hz. set_solver.
Qed.

Lemma with_nodes_app s ns ns' :
  with_nodes (with_nodes s (nodes s ++ ns)) (nodes (with_nodes s (nodes s ++ ns)) ++ ns')
  = with_nodes s (nodes s ++ ns ++ ns').
Proof. rewrite with_nodes_twice, with_nodes_nodes. by rewrite <- app_assoc. Qed.

Lemma clause_merge_category_keys b s rows s' :
  keyed FoodCategory "id" s → Forall int_ids b →
  clause merge_category b s = Ok (rows, s') →
  ∃ new, s' = with_nodes s (nodes s ++ new)
    ∧ Forall (fun n => nlabel n = FoodCategory) new
    ∧ keyed FoodCategory "id" s'
    ∧ (list_to_set (int_keys FoodCategory "id" s') : gset Z)
      = list_to_set (int_keys FoodCategory "id" s) ∪ list_to_set (category_key <$> b)
    ∧ rows.*1 = b.
Proof.
  intros K Hb. revert s rows K. induction Hb as [|food b Hf _ IH]; intros s rows K H.
  - simpl in H. injection H as <- <-. exists []. rewrite app_nil_r, with_nodes_id.
    split_and!; [done | constructor | done | | done]. simpl. set_solver.
  - simpl in H. apply bind_Ok in H as ([o s1] & H1 & H).
    apply bind_Ok in H as ([os s2] & H2 & H). injection H as <- <-.
    destruct (merge_category_keys _ _ _ _ K Hf H1) as (fc & new1 & -> & -> & F1 & K1 & E1).
    destruct (IH _ _ K1 H2) as (new2 & -> & F2 & K2 & E2 & Hrows).
    exists (new1 ++ new2). rewrite with_nodes_app.
    rewrite with_nodes_app in K2, E2.
    split_and!; [done | by apply Forall_app | done | | by rewrite fmap_app, Hrows].
    rewrite E2, E1. rewrite fmap_cons, list_to_set_cons. set_solver.
Qed.

Lemma constrained_with_nodes l k s ns :
  constrained l k (with_nodes s ns) = constrained l k s.
Proof. done. Qed.

Lemma clause_create_food_keys rows s rows' s' :
  constrained Food "fdcId" s = true → keyed Food "fdcId" s →
  Forall (fun row : value * nat => ∃ k, cy_field row.1 "fdcId" = VInt k) rows →
  clause create_food rows s = Ok (rows', s') →
  keyed Food "fdcId" s'
  ∧ int_keys Food "fdcId" s' = int_keys Food "fdcId" s ++ ((fun row => food_key row.1) <$> rows).
Proof.
  intros Hc K Hrows. revert s rows' Hc K.
  induction Hrows as [|[food fc] rows [k Hk] _ IH]; intros s rows' Hc K H; simpl in H.
  - injection H as <- <-. by rewrite app_nil_r.
  - apply bind_Ok in H as ([o s1] & H1 & H). apply bind_Ok in H as ([os s2] & H2 & H).
    injection H as <- <-. apply bind_Ok in H1 as (fid & Hfid & H1).
    apply bind_Ok in H1 as ([f s1'] & H1 & E). injection E as <- <-.
    apply cy_access_field in Hfid. simpl in Hk. rewrite Hk in Hfid. subst fid.
    apply create_node_Ok in H1 as (-> & -> & Hv).
    assert (match_nodes Food "fdcId" (VInt k) s = []) as Hm.
    { destruct (match_nodes Food "fdcId" (VInt k) s) eqn:E; [done |].
      rewrite violates_present in Hv; [done | done |]. by rewrite E. }
    pose proof (match_keyed_nil _ _ _ _ K Hm) as Hz.
    destruct (keyed_snoc Food "fdcId" s (Node Food (set_prop "fdcId" (VInt k) [])) k
                K eq_refl eq_refl Hz) as [K1 E1].
    destruct (IH _ _ ltac:(by rewrite constrained_with_nodes) K1 H2) as [K2 E2].
    split; [done |]. rewrite E2, E1, <- app_assoc. simpl.
    unfold food_key at 2. by rewrite Hk.
Qed.

Lemma foods_added_nil s :
  constrained Food "fdcId" s = true → keyed Food "fdcId" s → keyed FoodCategory "id" s →
  foods_added [] s s.
Proof.
  intros Hc KF KC. unfold foods_added. rewrite !app_nil_r.
  split_and!; try done; [set_solver |]. exists []. by rewrite app_nil_r.
Qed.

Lemma foods_added_app b1 b2 s s1 s2 :
  foods_added b1 s s1 → foods_added b2 s1 s2 → foods_added (b1 ++ b2) s s2.
Proof.
  intros (_ & _ & _ & F1 & C1 & N1 & M1 & l1 & R1 & L1 & B1)
         (Hc & KF & KC & F2 & C2 & N2 & M2 & l2 & R2 & L2 & B2).
  split_and!; [done | done | done | | | congruence | congruence |].
  - by rewrite F2, F1, fmap_app, <- app_assoc.
  - rewrite C2, C1, fmap_app, list_to_set_app_L. set_solver.
  - exists (l1 ++ l2). split_and!.
    + by rewrite R2, R1, <- app_assoc.
    + rewrite !length_app. lia.
    + by apply Forall_app.
Qed.

Lemma foods_query_keys b s s' :
  constrained Food "fdcId" s = true → keyed Food "fdcId" s → keyed FoodCategory "id" s →
  Forall int_ids b → foods_query b s = Ok s' →
  foods_added b s s'.
Proof.
  intros Hc KF KC Hb H. pose proof (foods_query_keeps _ _ _ H) as [[Hcon _] _].
  unfold foods_query in H.
  apply bind_Ok in H as ([rows1 s1] & H1 & H).
  apply bind_Ok in H as ([rows2 s2] & H2 & H).
  apply bind_Ok in H as ([rows3 s3] & H3 & H).
  apply bind_Ok in H as ([rows4 s4] & H4 & H). injection H as <-.
  destruct (clause_merge_category_keys _ _ _ _ KC Hb H1) as (cats & -> & Fc & KC1 & EC1 & Hr1).
  set (s1 := with_nodes s (nodes s ++ cats)) in *.
  destruct (other_label_view Food FoodCategory "fdcId" s cats ltac:(done) Fc) as [EF1 CF1].
  destruct (other_label_view Nutrient FoodCategory "id" s cats ltac:(done) Fc) as [EN1 CN1].
  fold s1 in EF1, CF1, EN1, CN1.
  assert (keyed Food "fdcId" s1) as KF1 by (by eapply keyed_view).
  assert (Forall (fun row : value * nat => ∃ k, cy_field row.1 "fdcId" = VInt k) rows1) as Hk1.
  { apply Forall_forall. intros row Hrow. rewrite Forall_forall in Hb.
    destruct (Hb row.1) as (k & c & Hk & _); [|eauto].
    rewrite <- Hr1. apply list_elem_of_fmap. eauto. }
  assert (constrained Food "fdcId" s1 = true) as Hc1 by exact Hc.
  destruct (clause_create_food_keys _ _ _ _ Hc1 KF1 Hk1 H2) as [KF2 EF2].
  apply clause_create_food in H2 as [Es2 Er2].
  set (fnodes := map (fun row : value * nat =>
                        Node Food (set_prop "fdcId" (cy_field row.1 "fdcId") [])) rows1) in *.
  assert (Forall (fun n => nlabel n = Food) fnodes) as Ff.
  { unfold fnodes. apply Forall_forall. intros n Hn.
    apply list_elem_of_In, in_map_iff in Hn as (row & <- & _). done. }
  destruct (other_label_view FoodCategory Food "id" s1 fnodes ltac:(done) Ff) as [EC2 CC2].
  destruct (other_label_view Nutrient Food "id" s1 fnodes ltac:(done) Ff) as [EN2 CN2].
  rewrite <- Es2 in EC2, CC2, EN2, CN2.
  apply clause_set_food in H3 as (-> & R3 & S3).
  destruct (same_keys_view Food "fdcId" _ _ ltac:(by right) S3) as [EF3 CF3].
  destruct (same_keys_view FoodCategory "id" _ _ ltac:(by left) S3) as [EC3 CC3].
  destruct (same_keys_view Nutrient "id" _ _ ltac:(by left) S3) as [EN3 CN3].
  apply clause_link_category in H4 as ->.
  assert ((fun row : value * nat => food_key row.1) <$> rows1 = food_key <$> b) as Eids.
  { rewrite <- Hr1, <- list_fmap_compose. done. }
  assert (length rows2 = length b) as Hlen.
  { rewrite Er2, length_zip_with, length_seq, <- Hr1, length_fmap. lia. }
  unfold foods_added, int_keys, count_nodes, keyed, int_keys, count_nodes. simpl.
  fold (int_keys Food "fdcId" s3) (int_keys FoodCategory "id" s3) (int_keys Nutrient "id" s3).
  fold (count_nodes Food s3) (count_nodes FoodCategory s3) (count_nodes Nutrient s3).
  fold (keyed Food "fdcId" s3) (keyed FoodCategory "id" s3).
  fold (int_keys Food "fdcId" s) (int_keys FoodCategory "id" s) (int_keys Nutrient "id" s).
  fold (count_nodes Nutrient s).
  split_and!.
  - apply Hcon, Hc.
  - by apply (keyed_view _ _ s2).
  - apply (keyed_view _ _ s2); [done | done |]. by apply (keyed_view _ _ s1).
  - by rewrite EF3, EF2, EF1, Eids.
  - by rewrite EC3, EC2, EC1.
  - by rewrite EN3, EN2, EN1.
  - by rewrite CN3, CN2, CN1.
  - eexists. rewrite R3, Es2. split_and!; [done | by rewrite length_map |].
    apply Forall_forall. intros r Hr.
    apply list_elem_of_In, in_map_iff in Hr as (row & <- & _). done.
Qed.

Lemma run_foods_keys bs s s' :
  constrained Food "fdcId" s = true → keyed Food "fdcId" s → keyed FoodCategory "id" s →
  Forall (Forall int_ids) bs →
  run_all (map foods_query bs) s = Done s' →
  foods_added (concat bs) s s'.
Proof.
  intros Hc KF KC Hbs. revert s Hc KF KC.
  induction Hbs as [|b bs Hb _ IH]; intros s Hc KF KC H; simpl in H.
  - injection H as <-. by apply foods_added_nil.
  - unfold session_run in H. destruct (foods_query b s) as [s1|] eqn:E; [|done].
    cbn [and_then] in H. pose proof (foods_query_keys _ _ _ Hc KF KC Hb E) as A1.
    pose proof A1 as (Hc1 & KF1 & KC1 & _).
    simpl. eapply foods_added_app; [exact A1 | by apply IH].
Qed.

Lemma nutrient_refs_cons food foods refs :
  nutrient_refs (food :: foods) = Some refs →
  ∃ entries r1 r2, food_entries food = Some entries
    ∧ mapM entry_ref entries = Some r1
    ∧ nutrient_refs foods = Some r2 ∧ refs = r1 ++ r2.
Proof.
  unfold nutrient_refs.
  destruct (mapM food_refs (food :: foods)) as [refss|] eqn:E; [|done].
  intros [= <-]. apply mapM_Some in E.
  apply Forall2_cons_inv_l in E as (r1 & refss' & H1 & H2 & ->).
  apply mapM_Some in H2. rewrite H2. unfold food_refs in H1.
  destruct (food_entries food) as [entries|]; [|done]. simpl in H1.
  by exists entries, r1, (concat refss').
Qed.

Lemma food_fdcId_getitem food entries k fid :
  food_entries food = Some entries → cy_field food "fdcId" = VInt k →
  py_getitem food "fdcId" = Ok fid → fid = VInt k.
Proof.
  destruct food as [| | | | | |fd]; try done. intros _. unfold cy_field, get_prop. simpl.
  unfold get_prop. destruct (dict_lookup "fdcId" fd); [|done]. by intros -> [= <-].
Qed.

Lemma measurements_count pf foods refs s s' :
  nutrient_refs foods = Some refs →
  Forall (fun food => ∃ k f, cy_field food "fdcId" = VInt k
            ∧ match_nodes Food "fdcId" (VInt k) s = [f]) foods →
  Forall (fun p : Z * value => ∃ n, match_nodes Nutrient "id" (VInt p.1) s = [n]) refs →
  create_nutrient_relationships pf foods s = Done s' →
  nodes s' = nodes s
  ∧ ∃ new, rels s' = rels s ++ new ∧ length new = length refs
      ∧ Forall (fun r => rkind r = HAS_NUTRIENT) new.
Proof.
  revert refs s s'. induction foods as [|food foods IH]; intros refs s s' Hr Hf Hrefs H.
  - injection Hr as <-. simpl in H. injection H as <-. split; [done |].
    exists []. by rewrite app_nil_r.
  - apply nutrient_refs_cons in Hr as (entries & r1 & r2 & He & H1 & H2 & ->).
    apply Forall_cons in Hf as [(k & f & Hk & Hm) Hf].
    apply Forall_app in Hrefs as [Hrefs1 Hrefs2].
    cbn [create_nutrient_relationships] in H. unfold measurement_params in H.
    rewrite (nutrients_data_entries _ _ He) in H.
    destruct (map_result nutrient_entry entries) as [nds|] eqn:End; [|done].
    apply map_result_Forall2 in End. cbn [bind] in H.
    destruct (py_getitem food "fdcId") as [fid|] eqn:Hfid; [|done].
    apply (food_fdcId_getitem _ _ _ _ He Hk) in Hfid. subst fid.
    cbn [bind] in H. unfold session_run in H.
    destruct (measurements_query pf (VInt k) nds s) as [s1|] eqn:Eq; [|done].
    cbn [and_then] in H.
    apply measurements_query_Ok in Eq as (rows & Hrows & -> & _).
    rewrite Hm in Hrows. cbn [flat_map] in Hrows. rewrite app_nil_r in Hrows.
    assert (Forall (fun fn => ∃ z nutr n, entry_ref fn = Some (z, nutr)
              ∧ match_nodes Nutrient "id" (VInt z) s = [n]) entries) as Hent.
    { apply mapM_Some in H1. clear -H1 Hrefs1.
      induction H1 as [|fn [z nutr] entries r1 Hfn _ IH]; constructor.
      - apply Forall_cons in Hrefs1 as [[n Hn] _]. by exists z, nutr, n.
      - apply Forall_cons in Hrefs1 as [_ ?]. by apply IH. }
    destruct (entries_targets s _ _ End Hent) as (ns & Hns & _).
    rewrite (clause_match_nutrient_unique f nds ns s Hns) in Hrows.
    injection Hrows as <-.
    match type of H with create_nutrient_relationships _ _ ?t = _ => set (s1 := t) in H end.
    destruct (IH r2 s1 s' H2 Hf Hrefs2 H) as (Hn & new & Hnew & Hlen & Hkind).
    split; [done |]. simpl in Hnew. rewrite <- app_assoc in Hnew.
    eexists. split_and!; [exact Hnew | |].
    + rewrite !length_app, length_map, length_zip_with, Hlen.
      apply Forall2_length in End, Hns. apply mapM_Some, Forall2_length in H1. lia.
    + apply Forall_app. split; [|done]. apply Forall_forall. intros r Hin.
      apply list_elem_of_In, in_map_iff in Hin as (row & <- & _). done.
Qed.

Lemma keyed_none l k s : count_nodes l s = 0 → keyed l k s ∧ int_keys l k s = [].
Proof.
  intros H0. pose proof (int_keys_le l k (nodes s)) as Hle.
  fold (int_keys l k s) in Hle. fold (count_nodes l s) in Hle.
  assert (int_keys l k s = []) as E by (apply length_zero_iff_nil; lia).
  split; [|done]. split; rewrite E; [constructor | by rewrite H0].
Qed.

Lemma int_keys_nutrient_nodes (d : list (Z * value)) :
  Forall ref_ok d → omap (int_key Nutrient "id") (map nutrient_node d.*2) = d.*1.
Proof.
  induction 1 as [|p d Hp _ IH]; [done |].
  assert (int_key Nutrient "id" (nutrient_node p.2) = Some p.1) as Hk.
  { apply int_key_Some. split; [done |]. by rewrite nutrient_node_id, ref_ok_field. }
  rewrite !fmap_cons. cbn [map]. rewrite omap_cons_eq, Hk. f_equal. exact IH.
Qed.

Lemma create_nutrients_view foods refs s s' :
  nutrient_refs foods = Some refs → count_nodes Nutrient s = 0 →
  create_nutrients foods s = Done s' →
  keyed Nutrient "id" s'
  ∧ int_keys Nutrient "id" s' = (dedup [] refs).*1
  ∧ (∀ l k, l ≠ Nutrient →
       int_keys l k s' = int_keys l k s ∧ count_nodes l s' = count_nodes l s)
  ∧ rels s' = rels s
  ∧ constraints s' = constraints s.
Proof.
  intros Hr H0 H. apply (create_nutrients_Done _ _ _ _ Hr) in H.
  assert (filter (unmatched s) (dedup [] refs).*2 = (dedup [] refs).*2) as Ef.
  { apply filter_all. apply Forall_forall. intros v _. by apply count_nodes_zero. }
  rewrite Ef in H. subst s'.
  assert (Forall ref_ok (dedup [] refs)) as Hok.
  { apply dedup_ok; [constructor |]. by eapply nutrient_refs_ok. }
  destruct (keyed_none Nutrient "id" s H0) as [_ E0].
  assert (int_keys Nutrient "id" (with_nodes s (nodes s ++ map nutrient_node (dedup [] refs).*2))
          = (dedup [] refs).*1) as E.
  { by rewrite int_keys_app, E0, int_keys_nutrient_nodes. }
  split_and!; [| done | | done | done].
  - split; rewrite E; [apply dedup_NoDup; constructor |].
    rewrite count_nodes_app, H0, filter_nutrient_nodes, length_map, !length_fmap. done.
  - intros l k Hl. apply (other_label_view l Nutrient); [done |].
    apply Forall_forall. intros n Hn.
    apply list_elem_of_In, in_map_iff in Hn as (v & <- & _). done.
Qed.

Lemma schema_on_empty :
  create_constraints_and_indexes empty_store
  = Done (Store [] []
            [ ("food_fdc_id", (Food, "fdcId")); ("nutrient_id", (Nutrient, "id"));
              ("category_id", (FoodCategory, "id")) ]
            [ ("food_description", (Food, "description"));
              ("nutrient_name", (Nutrient, "name")) ]).
Proof. reflexivity. Qed.

Lemma count_rels_app t s new :
  count_rels t (with_rels s (rels s ++ new))
  = count_rels t s + length (filter (fun r => rkind r = t) new).
Proof. unfold count_rels. simpl. by rewrite filter_app, length_app. Qed.

Lemma filter_kind t t' (rs : list rel) :
  Forall (fun r => rkind r = t') rs →
  length (filter (fun r => rkind r = t) rs) = if decide (t' = t) then length rs else 0.
Proof.
  induction 1 as [|r rs Hr _ IH]; [by destruct (decide (t' = t)) |].
  rewrite filter_cons. destruct (decide (t' = t)) as [E|E].
  - rewrite decide_True by congruence. simpl. by rewrite IH.
  - rewrite decide_False by congruence. done.
Qed.

(** X13. On a store that enforces unique [fdcId]s, where every Food node
    and every FoodCategory node carries an integer identifier of its own,
    [create_foods_and_categories] completes only if the [fdcId]s of the
    input differ from each other and from those of the store.  It then
    has created one Food node and one BELONGS_TO relationship per record
    and one FoodCategory node per category identifier that the store did
    not have, and no Nutrient node. *)
Theorem foods_counted (foods : list value) (s s' : store) :
  constrained Food "fdcId" s = true →
  keyed Food "fdcId" s → keyed FoodCategory "id" s →
  Forall int_ids foods →
  create_foods_and_categories foods s = Done s' →
  NoDup (int_keys Food "fdcId" s ++ (food_key <$> foods))
  ∧ count_nodes Food s' = count_nodes Food s + length foods
  ∧ count_nodes FoodCategory s'
    = size (list_to_set (int_keys FoodCategory "id" s) ∪ list_to_set (category_key <$> foods)
            : gset Z)
  ∧ count_nodes Nutrient s' = count_nodes Nutrient s
  ∧ count_rels BELONGS_TO s' = count_rels BELONGS_TO s + length foods
  ∧ count_rels HAS_NUTRIENT s' = count_rels HAS_NUTRIENT s.
Proof.
  intros Hc KF KC Hf H. unfold create_foods_and_categories in H.
  apply run_foods_keys in H; [|done | done | done |].
  2:{ apply Forall_concat. by rewrite batches_concat by (unfold FOOD_BATCH_SIZE; lia). }
  rewrite batches_concat in H by (unfold FOOD_BATCH_SIZE; lia).
  destruct H as (_ & [ND1 L1] & [ND2 L2] & EF & EC & _ & CN & links & R & Ll & Hl).
  destruct KF as [_ L0]. split_and!.
  - by rewrite <- EF.
  - rewrite <- L1, EF, length_app, length_fmap. lia.
  - rewrite <- L2, <- EC. symmetry. by apply size_list_to_set.
  - done.
  - unfold count_rels. rewrite R, filter_app, length_app, (filter_kind _ BELONGS_TO links) by done.
    rewrite decide_True by done. lia.
  - unfold count_rels. rewrite R, filter_app, length_app, (filter_kind _ BELONGS_TO links) by done.
    rewrite decide_False by done. lia.
Qed.

(** X14. When every food of the input is matched by exactly one Food node
    and every nutrient identifier it refers to by exactly one Nutrient node,
    [create_nutrient_relationships], when it completes, has added exactly
    one measurement per entry of the input's [foodNutrients] lists, and
    nothing else. *)
Theorem measurements_counted (pf : string → option spec_float)
    (foods : list value) (refs : list (Z * value)) (s s' : store) :
  nutrient_refs foods = Some refs →
  Forall (fun food => ∃ k f, cy_field food "fdcId" = VInt k
            ∧ match_nodes Food "fdcId" (VInt k) s = [f]) foods →
  Forall (fun p : Z * value => ∃ n, match_nodes Nutrient "id" (VInt p.1) s = [n]) refs →
  create_nutrient_relationships pf foods s = Done s' →
  nodes s' = nodes s
  ∧ count_rels HAS_NUTRIENT s' = count_rels HAS_NUTRIENT s + length refs
  ∧ count_rels BELONGS_TO s' = count_rels BELONGS_TO s.
Proof.
  intros Hr Hf Hrefs H.
  destruct (measurements_count _ _ _ _ _ Hr Hf Hrefs H) as (Hn & new & R & L & Hk).
  split; [done |]. unfold count_rels. rewrite R, !filter_app, !length_app.
  rewrite !(filter_kind _ HAS_NUTRIENT new) by done.
  destruct (decide (HAS_NUTRIENT = BELONGS_TO)); [done |].
  rewrite decide_True by done. lia.
Qed.

Lemma create_nutrients_appends foods s : appends s (final (create_nutrients foods s)).
Proof.
  unfold create_nutrients. destruct (collect_nutrients foods); [|apply appends_refl].
  apply (run_all_rel appends); [apply appends_refl | apply appends_trans |].
  apply Forall_forall. intros q Hq.
  apply list_elem_of_In, in_map_iff in Hq as (b & <- & _). apply nutrients_query_appends.
Qed.

Lemma create_foods_and_categories_appends foods s :
  appends s (final (create_foods_and_categories foods s)).
Proof.
  apply (run_all_rel appends); [apply appends_refl | apply appends_trans |].
  apply Forall_forall. intros q Hq.
  apply list_elem_of_In, in_map_iff in Hq as (b & <- & _). apply foods_query_appends.
Qed.

Lemma create_nutrient_relationships_appends pf foods s :
  appends s (final (create_nutrient_relationships pf foods s)).
Proof.
  revert s. induction foods as [|food foods IH]; intros s; simpl; [apply appends_refl |].
  destruct (measurement_params food) as [[fid nd]|]; [|apply appends_refl].
  rewrite final_and_then. unfold session_run.
  destruct (measurements_query pf fid nd s) as [s'|] eqn:E; [|apply appends_refl].
  eapply appends_trans; [by eapply measurements_query_appends | apply IH].
Qed.

Lemma load_foods jl fs json_file text d foods :
  fs json_file = Some text → jl text = Some (VDict d) →
  dict_lookup "FoundationFoods" d = Some (VList foods) →
  (let* data := load_json_data jl fs json_file in py_getitem data "FoundationFoods")
  = Ok (VList foods).
Proof.
  intros Hfs Hjl Hd. unfold load_json_data. rewrite Hfs, Hjl.
  cbn [bind py_getitem]. rewrite Hd. cbn [bind py_len py_getitem]. by rewrite Hd.
Qed.

Lemma import_stages pf jl fs json_file text d foods refs s' :
  fs json_file = Some text →
  jl text = Some (VDict d) →
  dict_lookup "FoundationFoods" d = Some (VList foods) →
  nutrient_refs foods = Some refs →
  Forall int_ids foods →
  run_import pf jl fs json_file empty_store = Done s' →
  ∃ s3, create_nutrient_relationships pf foods s3 = Done s' ∧ imported foods refs s3 s'.
Proof.
  intros Hfs Hjl Hd Hr Hf H. unfold run_import in H.
  rewrite (load_foods _ _ _ _ _ _ Hfs Hjl Hd) in H.
  rewrite schema_on_empty in H. cbn [and_then py_iter] in H.
  set (s1 := Store [] [] _ _) in H.
  destruct (create_nutrients foods s1) as [s2|] eqn:H2; [|done]. cbn [and_then] in H.
  destruct (create_foods_and_categories foods s2) as [s3|] eqn:H3; [|done].
  cbn [and_then] in H. exists s3. split; [done |].
  destruct (create_nutrients_view foods refs s1 s2 Hr eq_refl H2)
    as (KN2 & EN2 & Hother & R2 & C2).
  destruct (Hother Food "fdcId" ltac:(done)) as [EF2 CF2].
  destruct (Hother FoodCategory "id" ltac:(done)) as [EC2 CC2].
  assert (constrained Food "fdcId" s2 = true) as Hc2.
  { unfold constrained. by rewrite C2. }
  destruct (keyed_none Food "fdcId" s2 CF2) as [KF2 EF2'].
  destruct (keyed_none FoodCategory "id" s2 CC2) as [KC2 EC2'].
  pose proof (create_nutrients_appends foods s1) as (_ & I2' & _).
  rewrite H2 in I2'. cbn [final] in I2'.
  pose proof (create_foods_and_categories_appends foods s2) as (C3 & I3 & _).
  rewrite H3 in C3, I3. cbn [final] in C3, I3.
  pose proof (create_nutrient_relationships_appends pf foods s3) as (C4 & I4 & _).
  rewrite H in C4, I4. cbn [final] in C4, I4.
  unfold create_foods_and_categories in H3.
  apply run_foods_keys in H3; [|done | done | done |].
  2:{ apply Forall_concat. by rewrite batches_concat by (unfold FOOD_BATCH_SIZE; lia). }
  rewrite batches_concat in H3 by (unfold FOOD_BATCH_SIZE; lia).
  destruct H3 as (_ & KF3 & KC3 & EF3 & EC3 & EN3 & CN3 & links & R3 & Ll & Hl).
  rewrite EF2' in EF3. rewrite EC2' in EC3. simpl in EF3.
  assert (keyed Nutrient "id" s3) as KN3 by (by apply (keyed_view _ _ s2)).
  assert (Forall (fun food => ∃ k f, cy_field food "fdcId" = VInt k
            ∧ match_nodes Food "fdcId" (VInt k) s3 = [f]) foods) as Hfoods.
  { apply Forall_forall. intros food Hin. rewrite Forall_forall in Hf.
    destruct (Hf _ Hin) as (k & c & Hk & _).
    destruct (match_keyed_in Food "fdcId" k s3 KF3) as [f Hm]; [|eauto].
    rewrite EF3. apply list_elem_of_fmap. exists food. split; [|done].
    unfold food_key. by rewrite Hk. }
  assert (Forall (fun p : Z * value =>
                    ∃ n, match_nodes Nutrient "id" (VInt p.1) s3 = [n]) refs) as Hrefs.
  { apply Forall_forall. intros p Hin. apply (match_keyed_in Nutrient "id" p.1 s3 KN3).
    rewrite EN3, EN2. apply dedup_keys. apply list_elem_of_fmap. eauto. }
  destruct (measurements_count _ _ _ _ _ Hr Hfoods Hrefs H) as (Hn & new & R & L & Hk).
  rewrite R2 in R3. cbn [rels s1 app] in R3.
  unfold imported. split_and!; try done.
  - by rewrite C4, C3, C2.
  - by rewrite I4, I3, I2'.
  - rewrite EC3. set_solver.
  - by rewrite EN3.
  - by rewrite R3.
  - by rewrite R3.
  - eauto.
Qed.

(** X15. The summary of an import into an empty database.  When the file
    holds a list of food records with integer [fdcId]s and category
    identifiers, whose entries refer to nutrients by integer identifiers,
    and [run_import] completes, then the [fdcId]s of the input are pairwise
    distinct and the five counts that [verify_import] reports are: one
    Food node per record, one Nutrient node per distinct nutrient
    identifier, one FoodCategory node per distinct category identifier, one
    HAS_NUTRIENT relationship per entry, and one BELONGS_TO relationship
    per record. *)
Theorem import_counts (pf : string → option spec_float) (jl : string → option value)
    (fs : string → option string) (json_file text : string)
    (d : list (string * value)) (foods : list value) (refs : list (Z * value))
    (s' : store) :
  fs json_file = Some text →
  jl text = Some (VDict d) →
  dict_lookup "FoundationFoods" d = Some (VList foods) →
  nutrient_refs foods = Some refs →
  Forall int_ids foods →
  run_import pf jl fs json_file empty_store = Done s' →
  NoDup (food_key <$> foods)
  ∧ verify_import s'
    = (length foods,
       size (list_to_set refs.*1 : gset Z),
       size (list_to_set (category_key <$> foods) : gset Z),
       length refs,
       length foods).
Proof.
  intros Hfs Hjl Hd Hr Hf H.
  destruct (import_stages _ _ _ _ _ _ _ _ _ Hfs Hjl Hd Hr Hf H)
    as (s3 & _ & Hn & _ & _ & [NDF LF] & [NDC LC] & [_ LN] & EF & EC & EN
        & [Ll Hl] & new & R & L & Hk).
  split; [by rewrite <- EF |].
  unfold verify_import, count_nodes, count_rels. rewrite Hn, R.
  fold (count_nodes Food s3) (count_nodes Nutrient s3) (count_nodes FoodCategory s3).
  rewrite <- LF, <- LC, <- LN, EF, EN.
  rewrite !filter_app, !length_app.
  rewrite !(filter_kind _ HAS_NUTRIENT new), !(filter_kind _ BELONGS_TO (rels s3)) by done.
  destruct (decide (BELONGS_TO = HAS_NUTRIENT)); [done |].
  destruct (decide (HAS_NUTRIENT = BELONGS_TO)); [done |].
  rewrite !decide_True by done.
  rewrite !length_fmap, dedup_length, L, Ll.
  rewrite <- (size_list_to_set (C := gset Z) (int_keys FoodCategory "id" s3)) by done.
  rewrite EC, Nat.add_0_r. done.
Qed.

Lemma foods_rerun foods s :
  constrained Food "fdcId" s = true → foods ≠ [] →
  Forall (fun food => ∃ k c, cy_field food "fdcId" = VInt k
            ∧ category_id food = VInt c
            ∧ match_nodes Food "fdcId" (VInt k) s ≠ []
            ∧ match_nodes FoodCategory "id" (VInt c) s ≠ []) foods →
  create_foods_and_categories foods s = Abort ConstraintError s.
Proof.
  intros Hc Hne Hloaded. destruct foods as [|food0 rest]; [done |].
  destruct (batches_head food0 rest) as (b & bs & Eb & Hsub).
  unfold create_foods_and_categories. rewrite Eb. simpl. unfold session_run.
  apply Forall_cons in Hloaded as Hl0. destruct Hl0 as [(k & c & Hk & _ & Hm & _) Hrest].
  rewrite (foods_query_rerun food0 b k s); [done | done | done | done |].
  apply Forall_forall. intros food Hin. rewrite Forall_forall in Hloaded.
  destruct (Hloaded food) as (k' & c' & _ & Hc' & _ & Hm').
  { apply elem_of_cons in Hin as [->|Hin]; [by left | right; by apply Hsub]. }
  eauto.
Qed.

(** X17. An import cannot be repeated.  After [run_import] has completed
    on the empty database, for a file of at least one food record with
    integer identifiers, running it again on the same file goes through
    schema setup and the nutrients without changing anything, and aborts
    at the first batch of foods with the uniqueness-constraint error: the
    database is left exactly as the first run left it. *)
Theorem import_not_repeatable (pf : string → option spec_float)
    (jl : string → option value) (fs : string → option string)
    (json_file text : string) (d : list (string * value)) (foods : list value)
    (refs : list (Z * value)) (s' : store) :
  fs json_file = Some text →
  jl text = Some (VDict d) →
  dict_lookup "FoundationFoods" d = Some (VList foods) →
  nutrient_refs foods = Some refs →
  Forall int_ids foods →
  foods ≠ [] →
  run_import pf jl fs json_file empty_store = Done s' →
  create_constraints_and_indexes s' = Done s'
  ∧ create_nutrients foods s' = Done s'
  ∧ create_foods_and_categories foods s' = Abort ConstraintError s'
  ∧ run_import pf jl fs json_file s' = Abort ConstraintError s'.
Proof.
  intros Hfs Hjl Hd Hr Hf Hne H.
  destruct (import_stages _ _ _ _ _ _ _ _ _ Hfs Hjl Hd Hr Hf H)
    as (s3 & _ & Hn & Hc & Hi & KF & KC & KN & EF & EC & EN & _).
  assert (create_constraints_and_indexes s' = Done s') as E0.
  { unfold create_constraints_and_indexes. cbn [run_all]. unfold session_run.
    do 3 (rewrite (schema_ext_constraint _ _ _ s' s' (schema_ext_refl _))
            by (unfold constrained; by rewrite Hc); cbn [and_then]).
    do 2 (rewrite (schema_ext_index _ _ _ s' s' (schema_ext_refl _))
            by (unfold indexed; by rewrite Hi); cbn [and_then]).
    done. }
  assert (create_nutrients foods s' = Done s') as E1.
  { unfold create_nutrients. rewrite (collect_nutrients_refs _ _ Hr).
    apply run_all_matched. apply Forall_concat.
    rewrite batches_concat by (unfold NUTRIENT_BATCH_SIZE; lia).
    assert (dict_values (emb (dedup [] refs)) = (dedup [] refs).*2) as ->.
    { unfold dict_values, emb. by rewrite <- list_fmap_compose. }
    assert (Forall ref_ok (dedup [] refs)) as Hok.
    { apply dedup_ok; [constructor |]. by eapply nutrient_refs_ok. }
    apply Forall_forall. intros v Hv.
    apply list_elem_of_fmap in Hv as ([z v'] & -> & Hp).
    rewrite Forall_forall in Hok. destruct (Hok _ Hp) as (nd & Hv' & Hid).
    simpl in Hv', Hid. subst v'. exists nd, z. split_and!; [done | done |].
    rewrite (match_nodes_nodes _ _ _ s' s3 Hn).
    destruct (match_keyed_in Nutrient "id" z s3 KN) as [j ->]; [|done].
    rewrite EN. apply list_elem_of_fmap. by exists (z, VDict nd). }
  assert (create_foods_and_categories foods s' = Abort ConstraintError s') as E2.
  { apply foods_rerun; [| done |].
    - unfold constrained. by rewrite Hc.
    - apply Forall_forall. intros food Hin. rewrite Forall_forall in Hf.
      destruct (Hf _ Hin) as (k & c & Hk & Hcat). exists k, c.
      rewrite !(match_nodes_nodes _ _ _ s' s3 Hn). split_and!; [done | done | |].
      + destruct (match_keyed_in Food "fdcId" k s3 KF) as [j ->]; [|done].
        rewrite EF. apply list_elem_of_fmap. exists food. split; [|done].
        unfold food_key. by rewrite Hk.
      + destruct (match_keyed_in FoodCategory "id" c s3 KC) as [j ->]; [|done].
        apply (elem_of_list_to_set (C := gset Z)). rewrite EC.
        apply elem_of_list_to_set, list_elem_of_fmap. exists food. split; [|done].
        unfold category_key. by rewrite Hcat. }
  split_and!; [done | done | done |].
  unfold run_import. rewrite (load_foods _ _ _ _ _ _ Hfs Hjl Hd), E0.
  cbn [and_then py_iter]. rewrite E1. cbn [and_then]. by rewrite E2.
Qed.

(** ** Nodes are never updated *)

Lemma adds_refl P s : adds P s s.
Proof. exists []. by rewrite app_nil_r. Qed.

Lemma adds_trans P s1 s2 s3 : adds P s1 s2 → adds P s2 s3 → adds P s1 s3.
Proof.
  intros (n1 & E1 & F1) (n2 & E2 & F2). exists (n1 ++ n2).
  split; [by rewrite E2, E1, <- app_assoc | by apply Forall_app].
Qed.

Lemma adds_weaken (P Q : node → Prop) s s' :
  (∀ n, P n → Q n) → adds P s s' → adds Q s s'.
Proof. intros H (new & E & F). exists new. split; [done | by eapply Forall_impl]. Qed.

Lemma merge_node_adds l k v kvs s ms s' :
  merge_node l k v (fun i => set_node_props i kvs) s = Ok (ms, s') →
  adds (fun n => nlabel n = l) s s'.
Proof.
  intros H. unfold merge_node in H.
  assert ((let* (i, s1) := create_node l k v s in
           let* s2 := set_node_props i kvs s1 in Ok ([i], s2)) = Ok (ms, s') →
          adds (fun n => nlabel n = l) s s') as Hcreated.
  { intros H'. apply bind_Ok in H' as ([i s1] & H1 & H').
    apply bind_Ok in H' as (s2 & H2 & H'). injection H' as _ <-.
    apply create_node_Ok in H1 as (-> & -> & _).
    apply set_node_props_last in H2 as ->. eexists [_]. split; [done |].
    by constructor. }
  destruct (match_nodes l k v s) as [|m0 ms0].
  - destruct v; try done; by apply Hcreated.
  - destruct v; try done; injection H as _ <-; apply adds_refl.
Qed.

Lemma create_nutrients_adds foods s :
  adds (fun n => nlabel n = Nutrient) s (final (create_nutrients foods s)).
Proof.
  unfold create_nutrients. destruct (collect_nutrients foods); [|apply adds_refl].
  apply (run_all_rel (adds _)); [apply adds_refl | apply adds_trans |].
  apply Forall_forall. intros q Hq.
  apply list_elem_of_In, in_map_iff in Hq as (b & <- & _).
  intros s0 s0' H. unfold nutrients_query in H.
  apply bind_Ok in H as ([rows s1] & H1 & H). injection H as <-.
  eapply (clause_rel (adds _)); [apply adds_refl | apply adds_trans | | exact H1].
  intros r s2 out s2' H0. unfold merge_nutrient in H0.
  apply bind_Ok in H0 as (nid & _ & H0). apply bind_Ok in H0 as ([ns s3] & H3 & H0).
  injection H0 as _ <-. by eapply merge_node_adds.
Qed.

Lemma set_node_props_prefix N i kvs s s' :
  N ≤ i → set_node_props i kvs s = Ok s' → take N (nodes s') = take N (nodes s).
Proof.
  intros Hi. revert s. induction kvs as [|[k e] kvs IH]; intros s H; simpl in H.
  - by injection H as <-.
  - apply bind_Ok in H as (v & _ & H). apply bind_Ok in H as (s1 & H1 & H).
    rewrite (IH _ H). destruct (nodes s !! i) as [n|] eqn:Hn.
    + rewrite (set_node_prop_Ok _ _ _ _ _ _ H1 Hn), with_nodes_nodes.
      by apply take_insert_ge.
    + unfold set_node_prop in H1. rewrite Hn in H1. by injection H1 as <-.
Qed.

Lemma clause_set_food_prefix N rows s rows' s' :
  Forall (fun row : value * nat * nat => N ≤ row.2) rows →
  clause set_food rows s = Ok (rows', s') → take N (nodes s') = take N (nodes s).
Proof.
  intros Hrows. revert s rows'.
  induction Hrows as [|[[food fc] f] rows Hf _ IH]; intros s rows' H; cbn [clause] in H.
  - by injection H as _ <-.
  - apply bind_Ok in H as ([o s1] & H1 & H). apply bind_Ok in H as ([os s2] & H2 & H).
    injection H as _ <-. unfold set_food in H1.
    apply bind_Ok in H1 as (s1' & H1 & E). injection E as _ <-.
    rewrite (IH _ _ H2). by eapply (set_node_props_prefix N f).
Qed.

Lemma food_rows_ge N m (rows1 : list (value * nat)) :
  N ≤ m →
  Forall (fun row : value * nat * nat => N ≤ row.2)
    (zip_with (fun (row : value * nat) (i : nat) => (row.1, row.2, i)) rows1
              (seq m (length rows1))).
Proof.
  revert m. induction rows1 as [|row rows1 IH]; intros m Hm; simpl; constructor.
  - simpl. lia.
  - apply IH. lia.
Qed.

Lemma foods_query_adds b s s' :
  foods_query b s = Ok s' → adds (fun n => nlabel n ≠ Nutrient) s s'.
Proof.
  unfold foods_query. intros H.
  apply bind_Ok in H as ([rows1 s1] & H1 & H).
  apply bind_Ok in H as ([rows2 s2] & H2 & H).
  apply bind_Ok in H as ([rows3 s3] & H3 & H).
  apply bind_Ok in H as ([rows4 s4] & H4 & H). injection H as <-.
  apply (clause_rel (adds (fun n => nlabel n ≠ Nutrient))) in H1;
    [|apply adds_refl | apply adds_trans |].
  2:{ intros r s0 out s0' H0. unfold merge_category in H0.
      apply bind_Ok in H0 as (cat & _ & H0). apply bind_Ok in H0 as (cid & _ & H0).
      apply bind_Ok in H0 as ([ns s5] & H5 & H0). injection H0 as _ <-.
      apply merge_node_adds in H5. eapply adds_weaken; [|exact H5].
      intros n ->. done. }
  apply clause_create_food in H2 as [-> ->].
  pose proof (food_rows_ge (length (nodes s1)) (length (nodes s1)) rows1 ltac:(lia)) as Hge.
  pose proof (clause_set_food_prefix (length (nodes s1)) _ _ _ _ Hge H3) as Hp.
  apply clause_set_food in H3 as (_ & _ & S3).
  apply clause_link_category in H4 as ->.
  eapply adds_trans; [exact H1 |]. unfold same_keys in S3.
  rewrite with_nodes_nodes in S3, Hp. rewrite take_app_length in Hp.
  exists (drop (length (nodes s1)) (nodes s3)). split.
  - change (nodes (with_rels s3 _)) with (nodes s3).
    by rewrite <- Hp at 1; rewrite take_drop.
  - apply Forall2_length in S3 as Hlen.
    apply (Forall2_drop _ _ _ (length (nodes s1))) in S3.
    rewrite drop_app_length in S3. clear -S3.
    apply Forall_forall. intros n Hn.
    apply list_elem_of_lookup_1 in Hn as (i & Hi).
    destruct (Forall2_lookup_r _ _ _ _ _ S3 Hi) as (n0 & Hn0 & (Hl & _)).
    apply list_elem_of_lookup_2, list_elem_of_In, in_map_iff in Hn0 as (row & <- & _).
    by rewrite Hl.
Qed.

Lemma create_foods_and_categories_adds foods s :
  adds (fun n => nlabel n ≠ Nutrient) s (final (create_foods_and_categories foods s)).
Proof.
  apply (run_all_rel (adds _)); [apply adds_refl | apply adds_trans |].
  apply Forall_forall. intros q Hq.
  apply list_elem_of_In, in_map_iff in Hq as (b & <- & _). apply foods_query_adds.
Qed.

Lemma create_nutrient_relationships_nodes pf foods s :
  nodes (final (create_nutrient_relationships pf foods s)) = nodes s.
Proof.
  revert s. induction foods as [|food foods IH]; intros s; simpl; [done |].
  destruct (measurement_params food) as [[fid nd]|]; [|done].
  rewrite final_and_then. unfold session_run.
  destruct (measurements_query pf fid nd s) as [s'|] eqn:E; [|done].
  rewrite IH. by apply measurements_query_Ok in E as (rows & _ & -> & _).
Qed.

Lemma perform_adds pf jl s o : adds (fun _ => True) s (perform pf jl s o).
Proof.
  assert (∀ s, adds (fun _ => True) s (final (create_constraints_and_indexes s))) as A0.
  { intros s0. exists []. rewrite app_nil_r. split; [|constructor].
    assert (schema_ext s0 (final (create_constraints_and_indexes s0))) as E; [|apply E].
    apply (run_all_rel schema_ext); [apply schema_ext_refl | apply schema_ext_trans |].
    repeat (apply List.Forall_cons;
            [intros ?? H; first [by apply create_constraint_schema in H as [? _]
                                | by apply create_index_schema in H as [? _]] |]).
    apply List.Forall_nil. }
  assert (∀ foods s, adds (fun _ => True) s (final (create_nutrients foods s))) as A1.
  { intros foods s0. eapply adds_weaken; [|apply create_nutrients_adds]. done. }
  assert (∀ foods s, adds (fun _ => True) s (final (create_foods_and_categories foods s)))
    as A2.
  { intros foods s0. eapply adds_weaken; [|apply create_foods_and_categories_adds]. done. }
  assert (∀ foods s, adds (fun _ => True) s (final (create_nutrient_relationships pf foods s)))
    as A3.
  { intros foods s0. exists []. rewrite app_nil_r. split; [|constructor].
    apply create_nutrient_relationships_nodes. }
  destruct o; simpl; [apply A0 | apply A1 | apply A2 | apply A3 |].
  unfold run_import.
  destruct (let* data := load_json_data jl fs json_file in py_getitem data "FoundationFoods")
    as [foods|]; [|apply adds_refl].
  rewrite final_and_then. pose proof (A0 s) as K0.
  destruct (create_constraints_and_indexes s) as [s1|e s1]; simpl in K0; [|exact K0].
  destruct (py_iter foods) as [fl|]; [|exact K0].
  rewrite final_and_then. pose proof (A1 fl s1) as K1.
  destruct (create_nutrients fl s1) as [s2|e s2]; [|by eapply adds_trans].
  rewrite final_and_then. pose proof (A2 fl s2) as K2.
  destruct (create_foods_and_categories fl s2) as [s3|e s3];
    [|eauto using adds_trans].
  pose proof (A3 fl s3). eauto using adds_trans.
Qed.

(** X16. The loader never updates a node.  Through any sequence of its
    operations, each completing or aborting, the nodes of the store stay
    as they are, with every property, and what is new comes after them:
    a nutrient or a category that is already there is not overwritten by
    the input.  [create_nutrients] adds Nutrient nodes only,
    [create_foods_and_categories] adds no Nutrient node, and
    [create_nutrient_relationships] adds no node. *)
Theorem nodes_never_updated (pf : string → option spec_float)
    (jl : string → option value) (s : store) :
  (∀ ops, ∃ new, nodes (foldl (perform pf jl) s ops) = nodes s ++ new)
  ∧ (∀ foods, ∃ new, nodes (final (create_nutrients foods s)) = nodes s ++ new
       ∧ Forall (fun n => nlabel n = Nutrient) new)
  ∧ (∀ foods, ∃ new, nodes (final (create_foods_and_categories foods s)) = nodes s ++ new
       ∧ Forall (fun n => nlabel n ≠ Nutrient) new)
  ∧ (∀ foods, nodes (final (create_nutrient_relationships pf foods s)) = nodes s).
Proof.
  split_and!.
  - intros ops. assert (adds (fun _ => True) s (foldl (perform pf jl) s ops)) as (new & E & _).
    { revert s. induction ops as [|o ops IH]; intros s; simpl; [apply adds_refl |].
      eapply adds_trans; [apply perform_adds | apply IH]. }
    eauto.
  - intros foods. apply create_nutrients_adds.
  - intros foods. apply create_foods_and_categories_adds.
  - intros foods. apply create_nutrient_relationships_nodes.
Qed.

(** * The properties on the small input *)

Example ex_import :
  run_import ex_parse_float ex_json_loads ex_fs "foods.json" empty_store = Done ex_loaded
  ∧ verify_import ex_loaded = (2, 1, 1, 2, 2).
Proof. split; vm_compute; reflexivity. Qed.

Example ex_import_twice :
  run_import ex_parse_float ex_json_loads ex_fs "foods.json" ex_loaded
  = Abort ConstraintError ex_loaded.
Proof. vm_compute. reflexivity. Qed.

(** A NaN identifier is one key of the dict [nutrients], however often it
    occurs. *)
Example ex_nan_key :
  collect_fn [(VFloat S754_nan, VStr "first")]
    (VDict [("nutrient", VDict [("id", VFloat S754_nan)])])
  = Ok [(VFloat S754_nan, VDict [("id", VFloat S754_nan)])].
Proof. reflexivity. Qed.

(** C1 on the small input: two references to one identifier, one node. *)
Lemma distinct_nutrient_nodes_witness :
  nutrient_refs ex_foods = Some ex_refs
  ∧ (∃ nutrients, collect_nutrients ex_foods = Ok nutrients
       ∧ length (dict_values nutrients) = 1)
  ∧ count_nodes Nutrient ex_with_nutrients = 1.
Proof.
  assert (nutrient_refs ex_foods = Some ex_refs) as H by (vm_compute; reflexivity).
  assert (size (list_to_set ex_refs.*1 : gset Z) = 1) as Hsize by (vm_compute; reflexivity).
  destruct (distinct_nutrient_nodes ex_foods ex_refs H) as [(nutrients & Hc & Hl) H2].
  split; [exact H |]. split.
  - exists nutrients. split; [exact Hc |]. rewrite Hl. exact Hsize.
  - destruct (H2 ex_schema ex_with_nutrients) as [Hn _].
    + vm_compute; reflexivity.
    + vm_compute; reflexivity.
    + rewrite Hn. exact Hsize.
Defined.

(** C4 as stated fails on the small input: the first reference to
    nutrient 1051 names it "Water", the node stored names it
    "Water, total", as the last reference does. *)
Lemma first_occurrence_not_kept :
  nutrient_refs ex_foods = Some ex_refs
  ∧ create_nutrients ex_foods ex_schema = Done ex_with_nutrients
  ∧ map (fun n => get_prop "name" (nprops n)) (nodes ex_with_nutrients)
    = [VStr "Water, total"]
  ∧ ¬ (∀ n, n ∈ nodes ex_with_nutrients → nlabel n = Nutrient →
         get_prop "name" (nprops n) = get_prop "name" (ex_nutrient "Water")).
Proof.
  split_and!; [vm_compute; reflexivity | vm_compute; reflexivity
              | vm_compute; reflexivity |].
  intros H. specialize (H (nutrient_node (VDict (ex_nutrient "Water, total")))).
  assert (VStr "Water, total" = VStr "Water") as E; [|discriminate E].
  apply H; [|reflexivity]. vm_compute. by left.
Qed.

Lemma nutrient_last_occurrence_witness :
  nutrient_refs ex_foods
  = Some ([(1051%Z, VDict (ex_nutrient "Water"))]
            ++ (1051%Z, VDict (ex_nutrient "Water, total")) :: [])
  ∧ ∃ i n, match_nodes Nutrient "id" (VInt 1051) ex_with_nutrients = [i]
      ∧ nodes ex_with_nutrients !! i = Some n
      ∧ get_prop "name" (nprops n) = VStr "Water, total".
Proof.
  assert (nutrient_refs ex_foods
          = Some ([(1051%Z, VDict (ex_nutrient "Water"))]
                    ++ (1051%Z, VDict (ex_nutrient "Water, total")) :: [])) as H
    by (vm_compute; reflexivity).
  split; [exact H |].
  destruct (nutrient_last_occurrence ex_foods _ _ _ _ H) as [_ H2].
  - simpl. apply not_elem_of_nil.
  - destruct (H2 ex_schema ex_with_nutrients) as (i & n & Hi & Hn & _ & Hname & _).
    + vm_compute; reflexivity.
    + vm_compute; reflexivity.
    + exists i, n. split; [exact Hi |]. split; [exact Hn |]. exact Hname.
Defined.

(** C5 on the small input: into a store without nodes the one nutrient of
    the input is created, and a second run changes nothing. *)
Lemma nutrient_upsert_idempotent_witness :
  nutrient_refs ex_foods = Some ex_refs
  ∧ nodes ex_schema = []
  ∧ create_nutrients ex_foods ex_schema = Done ex_with_nutrients
  ∧ (∃ new n, nodes ex_with_nutrients = nodes ex_schema ++ new
       ∧ n ∈ new ∧ get_prop "id" (nprops n) = VInt 1051
       ∧ NoDup (map (fun n => get_prop "id" (nprops n)) new))
  ∧ match_nodes Nutrient "id" (VInt 1051) ex_with_nutrients ≠ []
  ∧ create_nutrients ex_foods ex_with_nutrients = Done ex_with_nutrients.
Proof.
  assert (nutrient_refs ex_foods = Some ex_refs) as H by (vm_compute; reflexivity).
  assert (create_nutrients ex_foods ex_schema = Done ex_with_nutrients) as H1
    by (vm_compute; reflexivity).
  assert (1051%Z ∈ ex_refs.*1) as Hin by (vm_compute; by left).
  destruct (nutrient_upsert_idempotent ex_foods ex_refs ex_schema ex_with_nutrients H H1)
    as ((new & Hn & _ & _ & ND & Hc) & Hp & Hagain).
  destruct (Hc 1051%Z Hin eq_refl) as (n & Hnew & Hid).
  split; [exact H |]. split; [reflexivity |]. split; [exact H1 |]. split.
  - exists new, n. split; [exact Hn |]. split; [exact Hnew |]. split; [exact Hid | exact ND].
  - split; [exact (Hp 1051%Z Hin) | exact Hagain].
Defined.

Lemma load_json_data_result_witness :
  ex_fs "foods.json" = Some "foods"
  ∧ load_json_data ex_json_loads ex_fs "foods.json"
    = Ok (VDict [("FoundationFoods", VList ex_foods)])
  ∧ load_json_data ex_json_loads ex_fs "empty.json" = Err (KeyError "FoundationFoods")
  ∧ load_json_data ex_json_loads ex_fs "broken.json" = Err JSONDecodeError.
Proof.
  destruct (load_json_data_result ex_json_loads ex_fs "foods.json" "foods" eq_refl)
    as (_ & _ & _ & Hfoods).
  destruct (load_json_data_result ex_json_loads ex_fs "empty.json" "empty" eq_refl)
    as (_ & Hempty & _).
  destruct (load_json_data_result ex_json_loads ex_fs "broken.json" "{" eq_refl)
    as (Hbroken & _).
  split; [reflexivity |]. split; [|split].
  - exact (Hfoods _ ex_foods eq_refl eq_refl).
  - exact (Hempty _ eq_refl eq_refl).
  - exact (Hbroken eq_refl).
Defined.

Lemma food_without_nutrients_witness :
  dict_lookup "foodNutrients" ex_food_bare = None
  ∧ create_nutrients [VDict ex_food_a; VDict ex_food_bare; VDict ex_food_b] ex_schema
    = create_nutrients ex_foods ex_schema
  ∧ create_nutrient_relationships ex_parse_float
      [VDict ex_food_a; VDict ex_food_bare; VDict ex_food_b] ex_with_foods
    = create_nutrient_relationships ex_parse_float ex_foods ex_with_foods.
Proof.
  assert (dict_lookup "foodNutrients" ex_food_bare = None) as H by reflexivity.
  destruct (food_without_nutrients ex_parse_float ex_food_bare
              [VDict ex_food_a] [VDict ex_food_b] ex_schema H) as (_ & _ & H3 & _).
  destruct (food_without_nutrients ex_parse_float ex_food_bare
              [VDict ex_food_a] [VDict ex_food_b] ex_with_foods H) as (_ & _ & _ & H4).
  destruct (H4 (VInt 3) eq_refl) as (_ & _ & H5).
  split; [exact H |]. split; [exact H3 | exact H5].
Defined.

(** C2 as stated fails on the small input: the entries give dataPoints 8
    and 4, and the measurements hold the integers 8 and 4, not the floats
    that [toFloat] makes of them. *)
Lemma dataPoints_not_coerced :
  create_nutrient_relationships ex_parse_float ex_foods ex_with_foods = Done ex_loaded
  ∧ map (fun r => (rkind r, get_prop "dataPoints" (rprops r))) (rels ex_loaded)
    = [ (BELONGS_TO, VNone); (BELONGS_TO, VNone);
        (HAS_NUTRIENT, VInt 8); (HAS_NUTRIENT, VInt 4) ]
  ∧ toFloat ex_parse_float (VInt 8) = Ok (VFloat (float_of_int 8))
  ∧ ¬ (∀ r, r ∈ rels ex_loaded → rkind r = HAS_NUTRIENT →
         get_prop "dataPoints" (rprops r) = VNone
         ∨ ∃ f, get_prop "dataPoints" (rprops r) = VFloat f).
Proof.
  split_and!; [vm_compute; reflexivity | vm_compute; reflexivity | reflexivity |].
  intros H.
  destruct (H (Rel HAS_NUTRIENT 2 0 [("dataPoints", VInt 8)])) as [E|[f E]];
    [| reflexivity | discriminate E | discriminate E].
  vm_compute. right. right. by left.
Qed.

Lemma measurement_per_entry_witness :
  create_nutrient_relationships ex_parse_float ([] ++ VDict ex_food_a :: [VDict ex_food_b])
    ex_with_foods = Done ex_loaded
  ∧ match_nodes Food "fdcId" (VInt 1) ex_with_foods = [2]
  ∧ ∃ r, rels ex_loaded !! 2 = Some r
      ∧ rkind r = HAS_NUTRIENT ∧ rsrc r = 2
      ∧ match_nodes Nutrient "id" (VInt 1051) ex_with_foods = [rdst r]
      ∧ get_prop "amount" (rprops r) = VNone
      ∧ get_prop "dataPoints" (rprops r) = VInt 8.
Proof.
  assert (create_nutrient_relationships ex_parse_float
            ([] ++ VDict ex_food_a :: [VDict ex_food_b]) ex_with_foods = Done ex_loaded)
    as H by (vm_compute; reflexivity).
  assert (match_nodes Food "fdcId" (VInt 1) ex_with_foods = [2]) as Hf
    by (vm_compute; reflexivity).
  split; [exact H |]. split; [exact Hf |].
  destruct (measurement_per_entry ex_parse_float [] [VDict ex_food_b] ex_food_a
              [VDict ex_entry_a] (VInt 1) 2 ex_with_foods ex_loaded H)
    as (s1 & created & later & Hs1 & Hrels & Hlen & Hentry).
  - reflexivity.
  - reflexivity.
  - exact Hf.
  - constructor; [|constructor].
    exists 1051%Z, (VDict (ex_nutrient "Water")), 0. split; vm_compute; reflexivity.
  - destruct (Hentry 0 (VDict ex_entry_a) eq_refl)
      as (r & efd & z & nutr & Hfn & Href & Hr & Hk & Hsrc & Hdst & _ & _ & _ & _
            & Hdp & _ & _ & Hnull).
    injection Hfn as <-. injection Href as <- <-.
    assert (length (rels s1) = 2) as Hbase.
    { apply Done_inj in Hs1. rewrite <- Hs1. vm_compute. reflexivity. }
    exists r. split.
    + rewrite Hrels. rewrite lookup_app_r by (rewrite Hbase; lia).
      rewrite lookup_app_l by (rewrite Hlen, Hbase; simpl; lia).
      rewrite Hbase. exact Hr.
    + split; [exact Hk |]. split; [exact Hsrc |]. split; [exact Hdst |].
      split; [exact (Hnull eq_refl) | exact Hdp].
Defined.

Lemma measurement_endpoints_exist_witness :
  integrity empty_store
  ∧ integrity ex_loaded
  ∧ integrity (final (run_import ex_parse_float ex_json_loads ex_fs "foods.json" ex_loaded)).
Proof.
  assert (integrity empty_store) as H.
  { intros r Hr. apply elem_of_nil in Hr. destruct Hr. }
  assert (foldl (perform ex_parse_float ex_json_loads) empty_store
            [Schema; Nutrients ex_foods; Foods ex_foods; Measurements ex_foods]
          = ex_loaded) as E1 by (vm_compute; reflexivity).
  assert (foldl (perform ex_parse_float ex_json_loads) empty_store
            [Import ex_fs "foods.json"; Import ex_fs "foods.json"]
          = final (run_import ex_parse_float ex_json_loads ex_fs "foods.json" ex_loaded))
    as E2 by (vm_compute; reflexivity).
  split; [exact H |]. split.
  - rewrite <- E1. apply measurement_endpoints_exist. exact H.
  - rewrite <- E2. apply measurement_endpoints_exist. exact H.
Defined.

Lemma one_category_link_per_food_witness :
  create_foods_and_categories ex_foods ex_with_nutrients = Done ex_with_foods
  ∧ ∃ links, rels ex_with_foods = rels ex_with_nutrients ++ links
      ∧ length links = 2
      ∧ NoDup (rsrc <$> links).
Proof.
  assert (create_foods_and_categories ex_foods ex_with_nutrients = Done ex_with_foods)
    as H by (vm_compute; reflexivity).
  split; [exact H |].
  destruct (one_category_link_per_food ex_foods ex_with_nutrients ex_with_foods)
    as (links & Hr & Hl & _ & Hd & _).
  - intros z. vm_compute. lia.
  - repeat constructor; exists 9%Z; reflexivity.
  - exact H.
  - exists links. split; [exact Hr |]. split; [exact Hl | exact Hd].
Defined.

Lemma food_creation_not_idempotent_witness :
  constrained Food "fdcId" ex_with_foods = true
  ∧ create_foods_and_categories ex_foods ex_with_nutrients = Done ex_with_foods
  ∧ create_foods_and_categories ex_foods ex_with_foods
    = Abort ConstraintError ex_with_foods.
Proof.
  assert (constrained Food "fdcId" ex_with_foods = true) as Hc by (vm_compute; reflexivity).
  assert (create_foods_and_categories ex_foods ex_with_nutrients = Done ex_with_foods)
    as H by (vm_compute; reflexivity).
  split; [exact Hc |]. split; [exact H |].
  apply (proj2 (food_creation_not_idempotent ex_foods ex_with_foods Hc) ex_with_nutrients).
  - intros z. vm_compute. lia.
  - discriminate.
  - repeat constructor; eexists _, 9%Z; split; reflexivity.
  - exact H.
Defined.

(** X4 on a batch of a hundred copies of one record: the second copy
    breaks the uniqueness constraint, and nothing of the batch is kept. *)
Lemma food_batches_compose_witness :
  length (replicate 100 (VDict ex_food_a)) = 100
  ∧ create_foods_and_categories (replicate 100 (VDict ex_food_a) ++ [VDict ex_food_b])
      ex_schema
    = Abort ConstraintError ex_schema.
Proof.
  assert (length (replicate 100 (VDict ex_food_a)) = 100) as Hlen by reflexivity.
  split; [exact Hlen |].
  destruct (food_batches_compose (replicate 100 (VDict ex_food_a)) [VDict ex_food_b]
              ex_schema Hlen) as (_ & Hab & _).
  apply Hab. vm_compute. reflexivity.
Defined.

(** X5 on the small input: one statement for the one nutrient. *)
Lemma nutrient_batches_transparent_witness :
  collect_nutrients ex_foods = Ok [(VInt 1051, VDict (ex_nutrient "Water, total"))]
  ∧ nutrients_query (dict_values [(VInt 1051, VDict (ex_nutrient "Water, total"))]) ex_schema
    = Ok ex_with_nutrients.
Proof.
  assert (collect_nutrients ex_foods
          = Ok [(VInt 1051, VDict (ex_nutrient "Water, total"))]) as H
    by (vm_compute; reflexivity).
  split; [exact H |].
  apply (nutrient_batches_transparent ex_foods _ ex_schema ex_with_nutrients H).
  vm_compute. reflexivity.
Defined.

(** X6 on the small input followed by a food whose second entry names no
    nutrient: no nutrient of the input is written. *)
Lemma create_nutrients_missing_key_witness :
  create_nutrients
    (ex_foods
     ++ [VDict [("fdcId", VInt 4);
                ("foodNutrients", VList [VDict ex_entry_a; VDict [("amount", VInt 1)]])]])
    ex_schema
  = Abort (KeyError "nutrient") ex_schema.
Proof.
  assert (nutrient_refs ex_foods = Some ex_refs) as H1 by (vm_compute; reflexivity).
  destruct (create_nutrients_missing_key ex_foods [] [VDict ex_entry_a] []
              [("fdcId", VInt 4);
               ("foodNutrients", VList [VDict ex_entry_a; VDict [("amount", VInt 1)]])]
              [("amount", VInt 1)] ex_refs [(1051%Z, VDict (ex_nutrient "Water"))]
              ex_schema H1 eq_refl eq_refl) as [Hk _].
  apply Hk. reflexivity.
Defined.

(** X8 on the small input followed by a record without [fdcId]: the
    measurements of the two foods before it stay. *)
Lemma measurements_missing_fdcId_witness :
  create_nutrient_relationships ex_parse_float
    (ex_foods ++ [VDict [("description", VStr "Plums, raw")]]) ex_with_foods
  = Abort (KeyError "fdcId") ex_loaded.
Proof.
  rewrite (measurements_missing_fdcId ex_parse_float ex_foods []
             [("description", VStr "Plums, raw")] [] ex_with_foods eq_refl eq_refl).
  vm_compute. reflexivity.
Defined.

(** X9 on the small input: a second run adds the two measurements again. *)
Lemma measurements_duplicated_on_rerun_witness :
  create_nutrient_relationships ex_parse_float ex_foods ex_with_foods = Done ex_loaded
  ∧ count_rels HAS_NUTRIENT ex_loaded = 2
  ∧ ∃ new, rels ex_loaded = rels ex_with_foods ++ new
      ∧ create_nutrient_relationships ex_parse_float ex_foods ex_loaded
        = Done (with_rels ex_loaded (rels ex_loaded ++ new)).
Proof.
  assert (create_nutrient_relationships ex_parse_float ex_foods ex_with_foods
          = Done ex_loaded) as H by (vm_compute; reflexivity).
  split; [exact H |]. split; [reflexivity |].
  exact (measurements_duplicated_on_rerun ex_parse_float ex_foods ex_with_foods ex_loaded H).
Defined.

(** X13 on the small input: two foods of one category. *)
Lemma foods_counted_witness :
  create_foods_and_categories ex_foods ex_with_nutrients = Done ex_with_foods
  ∧ NoDup ([] ++ (food_key <$> ex_foods))
  ∧ count_nodes Food ex_with_foods = 0 + 2
  ∧ count_rels BELONGS_TO ex_with_foods = 0 + 2.
Proof.
  assert (create_foods_and_categories ex_foods ex_with_nutrients = Done ex_with_foods) as H
    by (vm_compute; reflexivity).
  assert (keyed Food "fdcId" ex_with_nutrients) as KF.
  { split; [apply NoDup_nil_2 | reflexivity]. }
  assert (keyed FoodCategory "id" ex_with_nutrients) as KC.
  { split; [apply NoDup_nil_2 | reflexivity]. }
  assert (Forall int_ids ex_foods) as Hf.
  { repeat constructor.
    - exists 1%Z, 9%Z. split; reflexivity.
    - exists 2%Z, 9%Z. split; reflexivity. }
  destruct (foods_counted ex_foods ex_with_nutrients ex_with_foods eq_refl KF KC Hf H)
    as (ND & CF & _ & _ & CB & _).
  split; [exact H |]. split; [exact ND |]. split; [exact CF | exact CB].
Defined.

(** X14 on the small input: one measurement for each of the two entries. *)
Lemma measurements_counted_witness :
  create_nutrient_relationships ex_parse_float ex_foods ex_with_foods = Done ex_loaded
  ∧ count_rels HAS_NUTRIENT ex_loaded = 0 + 2.
Proof.
  assert (create_nutrient_relationships ex_parse_float ex_foods ex_with_foods
          = Done ex_loaded) as H by (vm_compute; reflexivity).
  assert (nutrient_refs ex_foods = Some ex_refs) as Hr by (vm_compute; reflexivity).
  assert (Forall (fun food => ∃ k f, cy_field food "fdcId" = VInt k
            ∧ match_nodes Food "fdcId" (VInt k) ex_with_foods = [f]) ex_foods) as Hf.
  { repeat constructor.
    - exists 1%Z, 2. split; reflexivity.
    - exists 2%Z, 3. split; reflexivity. }
  assert (Forall (fun p : Z * value =>
                    ∃ n, match_nodes Nutrient "id" (VInt p.1) ex_with_foods = [n])
                 ex_refs) as Hn.
  { repeat constructor; exists 0; reflexivity. }
  destruct (measurements_counted ex_parse_float ex_foods ex_refs ex_with_foods ex_loaded
              Hr Hf Hn H) as (_ & CH & _).
  split; [exact H | exact CH].
Defined.

(** X15 on the small input: two foods, one nutrient, one category, two
    measurements, two category links. *)
Lemma import_counts_witness :
  run_import ex_parse_float ex_json_loads ex_fs "foods.json" empty_store = Done ex_loaded
  ∧ NoDup (food_key <$> ex_foods)
  ∧ verify_import ex_loaded = (2, 1, 1, 2, 2).
Proof.
  assert (run_import ex_parse_float ex_json_loads ex_fs "foods.json" empty_store
          = Done ex_loaded) as H by (vm_compute; reflexivity).
  assert (nutrient_refs ex_foods = Some ex_refs) as Hr by (vm_compute; reflexivity).
  assert (Forall int_ids ex_foods) as Hf.
  { repeat constructor.
    - exists 1%Z, 9%Z. split; reflexivity.
    - exists 2%Z, 9%Z. split; reflexivity. }
  destruct (import_counts ex_parse_float ex_json_loads ex_fs "foods.json" "foods"
              [("FoundationFoods", VList ex_foods)] ex_foods ex_refs ex_loaded
              eq_refl eq_refl eq_refl Hr Hf H) as [ND _].
  split; [exact H |]. split; [exact ND |]. reflexivity.
Defined.

(** X12 on the empty database, where schema setup completes, and on a
    database without schema that holds two foods with one [fdcId], where it
    aborts. *)
Lemma schema_setup_outcome_witness :
  (∃ s', create_constraints_and_indexes empty_store = Done s'
     ∧ (∀ r, r ∈ constraints s' ↔ r ∈ loader_constraints)
     ∧ (∀ r, r ∈ indexes s' ↔ r ∈ loader_indexes))
  ∧ ∃ s', create_constraints_and_indexes
            (Store [Node Food [("fdcId", VInt 1)]; Node Food [("fdcId", VInt 1)]] [] [] [])
          = Abort DatabaseError s'.
Proof.
  assert (∀ ns, own_schema (Store ns [] [] [])) as H.
  { intros ns. split; intros r Hr; by apply elem_of_nil in Hr. }
  split.
  - exact (schema_setup_outcome empty_store (H [])).
  - exact (schema_setup_outcome _ (H [Node Food [("fdcId", VInt 1)];
                                      Node Food [("fdcId", VInt 1)]])).
Defined.

(** X17 on the small input: the second import aborts and changes
    nothing. *)
Lemma import_not_repeatable_witness :
  run_import ex_parse_float ex_json_loads ex_fs "foods.json" empty_store = Done ex_loaded
  ∧ run_import ex_parse_float ex_json_loads ex_fs "foods.json" ex_loaded
    = Abort ConstraintError ex_loaded.
Proof.
  assert (run_import ex_parse_float ex_json_loads ex_fs "foods.json" empty_store
          = Done ex_loaded) as H by (vm_compute; reflexivity).
  assert (nutrient_refs ex_foods = Some ex_refs) as Hr by (vm_compute; reflexivity).
  assert (Forall int_ids ex_foods) as Hf.
  { repeat constructor.
    - exists 1%Z, 9%Z. split; reflexivity.
    - exists 2%Z, 9%Z. split; reflexivity. }
  assert (ex_foods ≠ []) as Hne by discriminate.
  destruct (import_not_repeatable ex_parse_float ex_json_loads ex_fs "foods.json" "foods"
              [("FoundationFoods", VList ex_foods)] ex_foods ex_refs ex_loaded
              eq_refl eq_refl eq_refl Hr Hf Hne H) as (_ & _ & _ & E).
  split; [exact H | exact E].
Defined.
